(** * Long Beach climate dashboard: aggregation queries and dry-streak detection

    A shallow embedding of the three Streamlit pages of the dashboard
    ([Snapshot.py], [pages/2_Holiday Outlook.py],
    [pages/3_Climate History By Day.py]) and of the library behaviour they
    rely on (proleptic Gregorian dates, SQL aggregates with NULL, pandas
    [fillna] and [str.strip]).

    Conventions.
    - A date is its proleptic Gregorian ordinal (day 1 is 0001-01-01), the
      number CPython's [datetime] uses; a missing date (NaT / NULL) is [None].
    - A measurement is a double, taken by its exact value, a rational ([Q]);
      a missing one (NaN / NULL) is [None].  Comparisons, [MIN] and [MAX] of
      doubles are exact, and so are they here.  A sum, a mean or a rounding
      of doubles is itself rounded to a double: [SUM], [AVG] and [ROUND1]
      give the value in exact arithmetic, from which the engine's differs by
      that rounding.  A theorem therefore names such a value, and orders two
      of them only where the engine's rounding keeps the order; it never
      orders a mean against the readings it averages ([Doubles] shows a mean
      of doubles above its greatest reading).  Where a rounded mean is ranked
      and displayed (the ranked months), the engine's arithmetic is a
      parameter of the query.
    - A frame is its list of column labels together with its rows, in order. *)

From Stdlib Require Import ZArith QArith Qround Bool List String Ascii Lia Lqa.
From Stdlib Require Import Sorting.Sorted Sorting.Permutation.
From Stdlib Require Floats.
Import ListNotations.

Local Open Scope Z_scope.

(* ================================================================== *)
(** * Part I: the embedding                                            *)
(* ================================================================== *)

(** ** Calendar arithmetic (the date library under pandas and DuckDB) *)

Module Calendar.

(** A date, as an ordinal. *)
Definition date := Z.

Definition is_leap (year : Z) : bool :=
  (year mod 4 =? 0) && (negb (year mod 100 =? 0) || (year mod 400 =? 0)).

Definition days_before_year (year : Z) : Z :=
  let y := year - 1 in y * 365 + y / 4 - y / 100 + y / 400.

Definition days_in_month_table (month : Z) : Z :=
  match month with
  | 1 => 31 | 2 => 28 | 3 => 31 | 4 => 30 | 5 => 31 | 6 => 30
  | 7 => 31 | 8 => 31 | 9 => 30 | 10 => 31 | 11 => 30 | 12 => 31
  | _ => -1
  end.

Definition days_before_month_table (month : Z) : Z :=
  match month with
  | 1 => 0 | 2 => 31 | 3 => 59 | 4 => 90 | 5 => 120 | 6 => 151
  | 7 => 181 | 8 => 212 | 9 => 243 | 10 => 273 | 11 => 304 | 12 => 334
  | _ => -1
  end.

Definition days_in_month (year month : Z) : Z :=
  if (month =? 2) && is_leap year then 29 else days_in_month_table month.

Definition days_before_month (year month : Z) : Z :=
  days_before_month_table month
  + (if (2 <? month) && is_leap year then 1 else 0).

(** year, month, day -> ordinal *)
Definition ymd2ord (year month day : Z) : date :=
  days_before_year year + days_before_month year month + day.

Definition valid_ymd (year month day : Z) : bool :=
  (1 <=? year) && (1 <=? month) && (month <=? 12)
  && (1 <=? day) && (day <=? days_in_month year month).

Definition DI400Y : Z := 146097.
Definition DI100Y : Z := 36524.
Definition DI4Y : Z := 1461.

(** Month and day of the [n]-th day (from 0) of a year. *)
Definition month_day (leapyear : bool) (n : Z) : Z * Z :=
  let month := Z.shiftr (n + 50) 5 in
  let preceding :=
    days_before_month_table month
    + (if (2 <? month) && leapyear then 1 else 0) in
  if n <? preceding then
    let month := month - 1 in
    let preceding :=
      preceding
      - (days_in_month_table month
         + (if (month =? 2) && leapyear then 1 else 0)) in
    (month, n - preceding + 1)
  else (month, n - preceding + 1).

(** ordinal -> (year, month, day) *)
Definition ord2ymd (n : date) : Z * Z * Z :=
  let n := n - 1 in
  let n400 := n / DI400Y in
  let n := n mod DI400Y in
  let year := n400 * 400 + 1 in
  let n100 := n / DI100Y in
  let n := n mod DI100Y in
  let n4 := n / DI4Y in
  let n := n mod DI4Y in
  let n1 := n / 365 in
  let n := n mod 365 in
  let year := year + n100 * 100 + n4 * 4 + n1 in
  if (n1 =? 4) || (n100 =? 4) then (year - 1, 12, 31)
  else
    let leapyear := (n1 =? 3) && (negb (n4 =? 24) || (n100 =? 3)) in
    let '(month, day) := month_day leapyear n in
    (year, month, day).

Definition year_of (d : date) : Z := fst (fst (ord2ymd d)).
Definition month_of (d : date) : Z := snd (fst (ord2ymd d)).
Definition day_of (d : date) : Z := snd (ord2ymd d).

(** Monday is 0, Sunday is 6. *)
Definition dayofweek (d : date) : Z := (d + 6) mod 7.

(** [date + INTERVAL 1 DAY] *)
Definition next_day (d : date) : date := d + 1.

(** [pd.date_range(start, end)] with the default daily frequency: every
    day from [start] to [end], both included. *)
Definition date_range (start stop : date) : list date :=
  map (fun i => start + Z.of_nat i) (seq 0 (Z.to_nat (stop - start + 1))).

(** ISO rendering, [strftime("%Y-%m-%d")], for years 0 to 9999. *)
Definition digit (n : Z) : ascii :=
  ascii_of_nat (48 + Z.to_nat (n mod 10)).

Definition zfill2 (n : Z) : string :=
  String (digit (n / 10)) (String (digit n) EmptyString).

Definition zfill4 (n : Z) : string :=
  String (digit (n / 1000)) (String (digit (n / 100)) (zfill2 n)).

Definition strftime_ymd (d : date) : string :=
  zfill4 (year_of d) ++ "-" ++ zfill2 (month_of d) ++ "-" ++ zfill2 (day_of d).

(** The cast of an ISO literal ['YYYY-MM-DD'] to a date. *)
Definition digit_val (c : ascii) : option Z :=
  let n := nat_of_ascii c in
  if ((48 <=? n) && (n <=? 57))%nat then Some (Z.of_nat (n - 48)) else None.

Definition num2 (a b : ascii) : option Z :=
  match digit_val a, digit_val b with
  | Some x, Some y => Some (10 * x + y)
  | _, _ => None
  end.

Definition parse_ymd (s : string) : option date :=
  match s with
  | String y1 (String y2 (String y3 (String y4 (String sep1
      (String m1 (String m2 (String sep2
      (String d1 (String d2 EmptyString))))))))) =>
      if (Ascii.eqb sep1 "-") && (Ascii.eqb sep2 "-") then
        match num2 y1 y2, num2 y3 y4, num2 m1 m2, num2 d1 d2 with
        | Some yh, Some yl, Some m, Some d =>
            let y := 100 * yh + yl in
            if valid_ymd y m d then Some (ymd2ord y m d) else None
        | _, _, _, _ => None
        end
      else None
  | _ => None
  end.

(** [all_in_range p f base]: [f] holds on [base, base + p). *)
Fixpoint all_in_range (p : positive) (f : Z -> bool) (base : Z) : bool :=
  match p with
  | xH => f base
  | xO p' => all_in_range p' f base && all_in_range p' f (base + Zpos p')
  | xI p' =>
      f base && all_in_range p' f (base + 1)
      && all_in_range p' f (base + 1 + Zpos p')
  end.

(** The check behind [month_day]: month and day are in range and name the
    [n]-th day of the year. *)
Definition month_day_check (leap : bool) (n : Z) : bool :=
  let '(m, d) := month_day leap n in
  (1 <=? m) && (m <=? 12) && (1 <=? d)
  && (d <=? days_in_month_table m + (if (m =? 2) && leap then 1 else 0))
  && (days_before_month_table m + (if (2 <? m) && leap then 1 else 0) + d
      =? n + 1).

End Calendar.


(** ** SQL and pandas building blocks (the query engine under the pages) *)

Module SQL.

Local Open Scope Q_scope.

Definition Qltb (a b : Q) : bool := negb (Qle_bool b a).

(** [x > c]: a NULL never satisfies a comparison. *)
Definition gt (x : option Q) (c : Q) : bool :=
  match x with Some v => Qltb c v | None => false end.

(** [x = c] *)
Definition eq_const (x : option Q) (c : Q) : bool :=
  match x with Some v => Qeq_bool v c | None => false end.

Definition is_null {A : Type} (x : option A) : bool :=
  match x with Some _ => false | None => true end.

Definition is_not_null {A : Type} (x : option A) : bool := negb (is_null x).

(** The non-NULL values of a column: what an aggregate looks at. *)
Definition non_null {A : Type} (l : list (option A)) : list A :=
  flat_map (fun x => match x with Some v => [v] | None => [] end) l.

Definition Qsum (l : list Q) : Q := fold_right Qplus 0 l.

Definition Qcount {A : Type} (l : list A) : Q := inject_Z (Z.of_nat (List.length l)).

Definition Qmin2 (a b : Q) : Q := if Qle_bool a b then a else b.
Definition Qmax2 (a b : Q) : Q := if Qle_bool a b then b else a.

Definition SUM (l : list (option Q)) : option Q :=
  match non_null l with
  | [] => None
  | vs => Some (Qsum vs)
  end.

Definition AVG (l : list (option Q)) : option Q :=
  match non_null l with
  | [] => None
  | vs => Some (Qsum vs / Qcount vs)
  end.

(** An aggregate whose arithmetic is the engine's: NULLs are skipped, no
    value at all gives NULL, and the values present go to [f], which stands
    for the engine's evaluation on doubles (for [ROUND(AVG(x), 1)]: the sum
    of the doubles, its quotient by their number and the rounding to one
    decimal, each step rounded as the engine rounds it). *)
Definition AGG (f : list Q -> Q) (l : list (option Q)) : option Q :=
  match non_null l with
  | [] => None
  | vs => Some (f vs)
  end.

Definition MIN (l : list (option Q)) : option Q :=
  match non_null l with
  | [] => None
  | v :: vs => Some (fold_left Qmin2 vs v)
  end.

Definition MAX (l : list (option Q)) : option Q :=
  match non_null l with
  | [] => None
  | v :: vs => Some (fold_left Qmax2 vs v)
  end.

(** [COUNT( * )] *)
Definition COUNT {A : Type} (l : list A) : Z := Z.of_nat (List.length l).

(** [ROUND(x, 1)]: to one decimal place, halves away from zero. *)
Definition ROUND1 (x : Q) : Q :=
  if Qle_bool 0 x
  then inject_Z (Qfloor (x * 10 + 0.5)) / 10
  else - (inject_Z (Qfloor (- x * 10 + 0.5)) / 10).

(** [ROUND(AVG(x), 1)] of the values present, in exact arithmetic. *)
Definition exact_round_avg (vs : list Q) : Q := ROUND1 (Qsum vs / Qcount vs).

(** [ORDER BY]: a stable insertion sort along a boolean order. *)
Fixpoint insert {A : Type} (leb : A -> A -> bool) (x : A) (l : list A) : list A :=
  match l with
  | [] => [x]
  | y :: t => if leb x y then x :: y :: t else y :: insert leb x t
  end.

Definition sort {A : Type} (leb : A -> A -> bool) (l : list A) : list A :=
  fold_right (insert leb) [] l.

(** Ascending and descending orders on nullable values, NULLs last. *)
Definition asc_leb {A : Type} (leb : A -> A -> bool) (a b : option A) : bool :=
  match a, b with
  | Some x, Some y => leb x y
  | _, None => true
  | None, Some _ => false
  end.

Definition desc_leb {A : Type} (leb : A -> A -> bool) (a b : option A) : bool :=
  match a, b with
  | Some x, Some y => leb y x
  | _, None => true
  | None, Some _ => false
  end.

Definition opt_eqb {A : Type} (eqb : A -> A -> bool) (a b : option A) : bool :=
  match a, b with
  | Some x, Some y => eqb x y
  | None, None => true
  | _, _ => false
  end.

(** [GROUP BY]: the distinct keys in order of first appearance, each with
    the rows that carry it. *)
Fixpoint distinct {K : Type} (eqb : K -> K -> bool) (l : list K) : list K :=
  match l with
  | [] => []
  | k :: t => k :: filter (fun k' => negb (eqb k k')) (distinct eqb t)
  end.

Definition group_by {A K : Type} (eqb : K -> K -> bool) (key : A -> K)
    (l : list A) : list (K * list A) :=
  map (fun k => (k, filter (fun r => eqb (key r) k) l))
      (distinct eqb (map key l)).

(** [LIMIT n] *)
Definition LIMIT {A : Type} (n : nat) (l : list A) : list A := firstn n l.

(** [EXTRACT(part FROM d)] on a nullable date. *)
Definition EXTRACT (part : Calendar.date -> Z) (d : option Calendar.date)
    : option Z :=
  option_map part d.

(** [COUNT(DISTINCT x)]: the number of distinct non-NULL values. *)
Definition COUNT_DISTINCT (l : list (option Z)) : Z :=
  Z.of_nat (List.length (distinct Z.eqb (non_null l))).

(** [MIN(d)] over dates. *)
Definition MIN_date (l : list (option Calendar.date)) : option Calendar.date :=
  match non_null l with
  | [] => None
  | d :: ds => Some (fold_left Z.min ds d)
  end.

(** [x / n] with a count for divisor; NULL when the count is 0. *)
Definition div_count (x : Q) (n : Z) : option Q :=
  if (n =? 0)%Z then None else Some (x / inject_Z n).

(** [SELECT DISTINCT ON (key)]: of the rows in their order, the first of
    each key. *)
Fixpoint distinct_on {A K : Type} (eqb : K -> K -> bool) (key : A -> K)
    (l : list A) : list A :=
  match l with
  | [] => []
  | x :: t =>
      x :: filter (fun y => negb (eqb (key x) (key y))) (distinct_on eqb key t)
  end.

End SQL.

(** ** The daily-observation frame *)

Module Frame.

Import Calendar.

(** One row of [updated_data.csv]; the temperature and precipitation fields
    stand for the columns ["TMAX (Degrees Fahrenheit)"],
    ["TMIN (Degrees Fahrenheit)"], ["TAVG (Degrees Fahrenheit)"] and
    ["PRCP (Inches)"]. *)
Record Row : Type := mkRow {
  Date : option date;
  TMAX : option Q;
  TMIN : option Q;
  TAVG : option Q;
  PRCP : option Q
}.

Record DataFrame : Type := mkFrame {
  columns : list string;
  rows : list Row
}.

(** [str.strip()]: drop leading and trailing whitespace. *)
Definition is_space (c : ascii) : bool :=
  let n := nat_of_ascii c in
  (((9 <=? n) && (n <=? 13)) || ((28 <=? n) && (n <=? 32)))%nat.

Fixpoint lstrip (s : string) : string :=
  match s with
  | EmptyString => EmptyString
  | String c s' => if is_space c then lstrip s' else s
  end.

Fixpoint rstrip (s : string) : string :=
  match s with
  | EmptyString => EmptyString
  | String c s' =>
      match rstrip s' with
      | EmptyString => if is_space c then EmptyString else String c EmptyString
      | t => String c t
      end
  end.

Definition strip (s : string) : string := rstrip (lstrip s).

(** [series >= "YYYY-MM-DD"]: a missing date compares false. *)
Definition date_ge (d : option date) (bound : date) : bool :=
  match d with Some x => bound <=? x | None => false end.

(** The derived columns [Year], [Decade], [Month] and [Day]. *)
Definition Year (r : Row) : option Z := option_map year_of (Date r).
Definition Decade (r : Row) : option Z :=
  option_map (fun y => (y / 10) * 10) (Year r).
Definition Month (r : Row) : option Z := option_map month_of (Date r).
Definition Day (r : Row) : option Z := option_map day_of (Date r).

End Frame.

(** ** [Snapshot.py] *)

Module Snapshot.

Import Calendar SQL Frame.
Local Open Scope Q_scope.

Definition load_data (csv : DataFrame) : DataFrame :=
  let df := csv in
  let df := mkFrame (map strip (columns df)) (rows df) in
  let df := mkFrame (columns df)
              (filter (fun r => date_ge (Date r) (ymd2ord 1949 1 1)) (rows df)) in
  df.

(** The table registered as [weather]. *)
Definition weather (csv : DataFrame) : list Row := rows (load_data csv).

Record monthly_temp_row : Type := {
  mt_Month : option Z;
  AvgLow : option Q;
  AvgHigh : option Q;
  MinLow : option Q;
  MaxHigh : option Q
}.

Definition monthly_temp_combined (weather : list Row) : list monthly_temp_row :=
  let selected :=
    filter (fun r => is_not_null (TMIN r) && is_not_null (TMAX r)) weather in
  let groups :=
    group_by (opt_eqb Z.eqb) (fun r => EXTRACT month_of (Date r)) selected in
  sort (fun a b => asc_leb Z.leb (mt_Month a) (mt_Month b))
    (map (fun g =>
            {| mt_Month := fst g;
               AvgLow := AVG (map TMIN (snd g));
               AvgHigh := AVG (map TMAX (snd g));
               MinLow := MIN (map TMIN (snd g));
               MaxHigh := MAX (map TMAX (snd g)) |})
         groups).

(** [WHERE Year < 2025] *)
Definition year_lt_2025 (r : Row) : bool :=
  match Year r with Some y => (y <? 2025)%Z | None => false end.

Record annual_avg_row : Type := {
  aa_Year : option Z;
  avg_temp : option Q
}.

Definition annual_avg_sql (weather : list Row) : list annual_avg_row :=
  let groups := group_by (opt_eqb Z.eqb) Year (filter year_lt_2025 weather) in
  sort (fun a b => asc_leb Z.leb (aa_Year a) (aa_Year b))
    (map (fun g => {| aa_Year := fst g; avg_temp := AVG (map TAVG (snd g)) |})
         groups).

Record annual_total_row : Type := {
  at_Year : option Z;
  Total_Precipitation : option Q
}.

Definition annual_total_prcp (weather : list Row) : list annual_total_row :=
  let groups := group_by (opt_eqb Z.eqb) Year (filter year_lt_2025 weather) in
  sort (fun a b => asc_leb Z.leb (at_Year a) (at_Year b))
    (map (fun g =>
            {| at_Year := fst g; Total_Precipitation := SUM (map PRCP (snd g)) |})
         groups).

(** A ranked day: the date and the ranked measurement. *)
Record day_value : Type := {
  dv_Date : option date;
  dv_value : option Q
}.

Definition warmest_days (weather : list Row) : list day_value :=
  LIMIT 10
    (sort (fun a b => desc_leb Qle_bool (dv_value a) (dv_value b))
       (map (fun r => {| dv_Date := Date r; dv_value := TMAX r |})
          (filter (fun r => is_not_null (TMAX r)) weather))).

Definition coldest_days (weather : list Row) : list day_value :=
  LIMIT 10
    (sort (fun a b => asc_leb Qle_bool (dv_value a) (dv_value b))
       (map (fun r => {| dv_Date := Date r; dv_value := TMIN r |})
          (filter (fun r => is_not_null (TMIN r)) weather))).

Definition wettest_days (weather : list Row) : list day_value :=
  LIMIT 10
    (sort (fun a b => desc_leb Qle_bool (dv_value a) (dv_value b))
       (map (fun r => {| dv_Date := Date r; dv_value := PRCP r |})
          (filter (fun r => is_not_null (PRCP r)) weather))).

Record monthly_precip_row : Type := {
  mp_Month : option Z;
  Average_Precipitation : option Q
}.

(** Per month, the precipitation summed over all years and divided by the
    number of distinct years that have a reading in that month. *)
Definition monthly_avg_precip (weather : list Row) : list monthly_precip_row :=
  let selected := filter (fun r => is_not_null (PRCP r)) weather in
  let groups :=
    group_by (opt_eqb Z.eqb) (fun r => EXTRACT month_of (Date r)) selected in
  sort (fun a b => asc_leb Z.leb (mp_Month a) (mp_Month b))
    (map (fun g =>
            {| mp_Month := fst g;
               Average_Precipitation :=
                 match SUM (map PRCP (snd g)) with
                 | Some total =>
                     div_count total
                       (COUNT_DISTINCT
                          (map (fun r => EXTRACT year_of (Date r)) (snd g)))
                 | None => None
                 end |})
         groups).

Record monthly_avg_temp_row : Type := {
  ma_Month : option Z;
  Average_Temperature : option Q
}.

Definition monthly_avg_temp (weather : list Row) : list monthly_avg_temp_row :=
  let selected := filter (fun r => is_not_null (TAVG r)) weather in
  let groups :=
    group_by (opt_eqb Z.eqb) (fun r => EXTRACT month_of (Date r)) selected in
  sort (fun a b => asc_leb Z.leb (ma_Month a) (ma_Month b))
    (map (fun g =>
            {| ma_Month := fst g;
               Average_Temperature := AVG (map TAVG (snd g)) |})
         groups).

(** [STRFTIME(Date, '%Y-%m')] as a grouping key: the year and the month. *)
Definition year_month (d : option date) : option (Z * Z) :=
  option_map (fun x => (year_of x, month_of x)) d.

Definition year_month_eqb (a b : option (Z * Z)) : bool :=
  opt_eqb (fun x y => (fst x =? fst y)%Z && (snd x =? snd y)%Z) a b.

(** A ranked month: the earliest date of the month's rows and the ranked
    aggregate. *)
Record month_value : Type := {
  SampleDate : option date;
  mv_value : option Q
}.

(** The month's value is [ROUND(AVG(TAVG), 1)], by which the months are
    ranked and which the page prints: [round_avg] is that expression as
    the engine evaluates it on the month's doubles. *)
Definition warmest_months (round_avg : list Q -> Q) (weather : list Row)
    : list month_value :=
  LIMIT 10
    (sort (fun a b => desc_leb Qle_bool (mv_value a) (mv_value b))
       (map (fun g =>
               {| SampleDate := MIN_date (map Date (snd g));
                  mv_value := AGG round_avg (map TAVG (snd g)) |})
          (group_by year_month_eqb (fun r => year_month (Date r))
             (filter (fun r => is_not_null (TAVG r)) weather)))).

Definition coldest_months (round_avg : list Q -> Q) (weather : list Row)
    : list month_value :=
  LIMIT 10
    (sort (fun a b => asc_leb Qle_bool (mv_value a) (mv_value b))
       (map (fun g =>
               {| SampleDate := MIN_date (map Date (snd g));
                  mv_value := AGG round_avg (map TAVG (snd g)) |})
          (group_by year_month_eqb (fun r => year_month (Date r))
             (filter (fun r => is_not_null (TAVG r)) weather)))).

Definition wettest_months (weather : list Row) : list month_value :=
  LIMIT 10
    (sort (fun a b => desc_leb Qle_bool (mv_value a) (mv_value b))
       (map (fun g =>
               {| SampleDate := MIN_date (map Date (snd g));
                  mv_value := SUM (map PRCP (snd g)) |})
          (group_by year_month_eqb (fun r => year_month (Date r))
             (filter (fun r => is_not_null (PRCP r)) weather)))).

End Snapshot.

(** ** [pages/2_Holiday Outlook.py] *)

Module HolidayOutlook.

Import Calendar SQL Frame.
Local Open Scope Q_scope.
Local Open Scope string_scope.

Definition load_data (csv : DataFrame) : DataFrame :=
  let df := csv in
  let df := mkFrame (map strip (columns df)) (rows df) in
  let df := mkFrame (columns df)
              (filter (fun r => date_ge (Date r) (ymd2ord 1949 1 1)) (rows df)) in
  df.

(** [series.fillna(other)]: a missing value takes the value [other] has in
    the same row. *)
Definition fillna {A : Type} (x other : option A) : option A :=
  match x with Some v => Some v | None => other end.

(** The frame registered as [weather]: loaded, then null TMAX filled with
    TAVG and null PRCP filled with 0. *)
Definition weather_df (csv : DataFrame) : list Row :=
  let df := rows (load_data csv) in
  let df :=
    map (fun r => mkRow (Date r) (fillna (TMAX r) (TAVG r)) (TMIN r) (TAVG r)
                    (PRCP r)) df in
  let df :=
    map (fun r => mkRow (Date r) (TMAX r) (TMIN r) (TAVG r)
                    (fillna (PRCP r) (Some 0))) df in
  df.

Definition holiday_names : list (string * (Z * Z)) :=
  [("New Year's Day", (1, 1)%Z); ("Independence Day", (7, 4)%Z);
   ("Christmas", (12, 25)%Z)].

(** [range(start, stop)] *)
Definition range (start stop : Z) : list Z :=
  map (fun i => (start + Z.of_nat i)%Z) (seq 0 (Z.to_nat (stop - start))).

(** [max] and [min] of a sequence of dates; the empty sequence raises. *)
Definition max_date (l : list date) : option date :=
  match l with
  | [] => None
  | d :: t => Some (fold_left Z.max t d)
  end.

Definition min_date (l : list date) : option date :=
  match l with
  | [] => None
  | d :: t => Some (fold_left Z.min t d)
  end.

(** One turn of the loop of [get_variable_holiday_dates]: the three dates
    of a year, or [None] where Python raises. *)
Definition variable_holidays_of_year (year : Z) : option (date * date * date) :=
  match max_date (filter (fun x => dayofweek x =? 0)
                    (date_range (ymd2ord year 5 1) (ymd2ord year 5 31))) with
  | None => None
  | Some memorial =>
      match min_date (filter (fun x => dayofweek x =? 0)
                        (date_range (ymd2ord year 9 1) (ymd2ord year 9 7))) with
      | None => None
      | Some labor =>
          let thursdays :=
            filter (fun x => dayofweek x =? 3)
              (date_range (ymd2ord year 11 1) (ymd2ord year 11 30)) in
          match nth_error thursdays 3 with
          | None => None
          | Some thanksgiving => Some (memorial, labor, thanksgiving)
          end
      end
  end%Z.

(** The dictionary being filled: the lists for "Memorial Day", "Labor Day"
    and "Thanksgiving". *)
Definition holiday_lists : Type := (list string * list string * list string)%type.

Fixpoint for_years (years : list Z) (holiday_dates : holiday_lists)
    : option holiday_lists :=
  match years with
  | [] => Some holiday_dates
  | year :: rest =>
      match variable_holidays_of_year year with
      | None => None
      | Some (memorial, labor, thanksgiving) =>
          let '(ms, ls, ts) := holiday_dates in
          for_years rest
            (ms ++ [strftime_ymd memorial], ls ++ [strftime_ymd labor],
             ts ++ [strftime_ymd thanksgiving])%list
      end
  end.

(** [now_year] is [datetime.now().year]. *)
Definition get_variable_holiday_dates (now_year : Z)
    : option (list (string * list string)) :=
  let years := range 1949 (now_year + 1) in
  match for_years years ([], [], []) with
  | None => None
  | Some (ms, ls, ts) =>
      Some [("Memorial Day", ms); ("Labor Day", ls); ("Thanksgiving", ts)]
  end.

Record holiday_row : Type := {
  h_Date : option date;
  h_TMAX : option Q;
  h_TMIN : option Q;
  h_TAVG : option Q;
  h_PRCP : option Q;
  Holiday : string
}.

Definition select_row (name : string) (r : Row) : holiday_row :=
  {| h_Date := Date r; h_TMAX := TMAX r; h_TMIN := TMIN r; h_TAVG := TAVG r;
     h_PRCP := PRCP r; Holiday := name |}.

(** [EXTRACT(month FROM Date) = m AND EXTRACT(day FROM Date) = d] *)
Definition on_month_day (month day : Z) (r : Row) : bool :=
  opt_eqb Z.eqb (EXTRACT month_of (Date r)) (Some month)
  && opt_eqb Z.eqb (EXTRACT day_of (Date r)) (Some day).

(** [Date IN ('YYYY-MM-DD', ...)] *)
Definition date_in (dates : list string) (r : Row) : bool :=
  match Date r with
  | None => false
  | Some d =>
      existsb (fun s => match parse_ymd s with
                        | Some d' => (d =? d')%Z
                        | None => false
                        end) dates
  end.

Definition fixed_holiday_rows (weather : list Row) : list holiday_row :=
  flat_map (fun entry =>
              let '(name, (month, day)) := entry in
              map (select_row name) (filter (on_month_day month day) weather))
           holiday_names.

Definition variable_holiday_rows (variable_holidays : list (string * list string))
    (weather : list Row) : list holiday_row :=
  flat_map (fun entry =>
              let '(name, dates) := entry in
              map (select_row name) (filter (date_in dates) weather))
           variable_holidays.

Definition all_holidays_df (variable_holidays : list (string * list string))
    (weather : list Row) : list holiday_row :=
  (fixed_holiday_rows weather ++ variable_holiday_rows variable_holidays weather)%list.

Definition h_Year (r : holiday_row) : option Z := option_map year_of (h_Date r).

Definition holiday_order : list string :=
  ["New Year's Day"; "Memorial Day"; "Independence Day"; "Labor Day";
   "Thanksgiving"; "Christmas"].

Definition holiday_df (all : list holiday_row) (holiday : string)
    : list holiday_row :=
  sort (fun a b => asc_leb Z.leb (h_Year a) (h_Year b))
    (filter (fun r => String.eqb (Holiday r) holiday) all).

(** [series.mean()] of a boolean series; NaN on the empty series. *)
Definition mean_bool (l : list bool) : option Q :=
  match l with
  | [] => None
  | _ => Some (Qcount (filter (fun b => b) l) / Qcount l)
  end.

Definition precip_chance (holiday_df : list holiday_row) : option Q :=
  option_map (fun m => m * 100)
    (mean_bool (map (fun r => gt (h_PRCP r) 0) holiday_df)).

(** The statistics of one holiday: [mean], [max] and [min] skip the missing
    values. *)
Definition avg_temp (holiday_df : list holiday_row) : option Q :=
  AVG (map h_TAVG holiday_df).
Definition avg_high (holiday_df : list holiday_row) : option Q :=
  AVG (map h_TMAX holiday_df).
Definition avg_low (holiday_df : list holiday_row) : option Q :=
  AVG (map h_TMIN holiday_df).
Definition max_temp (holiday_df : list holiday_row) : option Q :=
  MAX (map h_TMAX holiday_df).
Definition min_temp (holiday_df : list holiday_row) : option Q :=
  MIN (map h_TMIN holiday_df).

(** [df.loc[df[col].idxmax()]]: the first row that holds the extreme value;
    [None] where Python raises (no value present). *)
Definition row_at (col : holiday_row -> option Q) (extreme : option Q)
    (holiday_df : list holiday_row) : option holiday_row :=
  match extreme with
  | None => None
  | Some m =>
      find (fun r => match col r with
                     | Some v => Qeq_bool v m
                     | None => false
                     end) holiday_df
  end.

(** [int(year)] of that row; [None] where Python raises. *)
Definition max_temp_year (holiday_df : list holiday_row) : option Z :=
  match row_at h_TMAX (max_temp holiday_df) holiday_df with
  | Some r => h_Year r
  | None => None
  end.

Definition min_temp_year (holiday_df : list holiday_row) : option Z :=
  match row_at h_TMIN (min_temp holiday_df) holiday_df with
  | Some r => h_Year r
  | None => None
  end.

(** [sort_values(col, ascending=...).head(5)]: missing values go last. *)
Definition warmest_days (holiday_df : list holiday_row) : list holiday_row :=
  firstn 5 (sort (fun a b => desc_leb Qle_bool (h_TMAX a) (h_TMAX b)) holiday_df).

Definition coldest_days (holiday_df : list holiday_row) : list holiday_row :=
  firstn 5 (sort (fun a b => asc_leb Qle_bool (h_TMIN a) (h_TMIN b)) holiday_df).

Definition wettest_days (holiday_df : list holiday_row) : list holiday_row :=
  firstn 5 (sort (fun a b => desc_leb Qle_bool (h_PRCP a) (h_PRCP b)) holiday_df).

End HolidayOutlook.

(** ** [pages/3_Climate History By Day.py] *)

Module ClimateHistoryByDay.

Import Calendar SQL Frame.
Local Open Scope Q_scope.

Definition load_data (csv : DataFrame) : DataFrame :=
  let df := csv in
  let df := mkFrame (map strip (columns df)) (rows df) in
  let df := mkFrame (columns df)
              (filter (fun r => date_ge (Date r) (ymd2ord 1949 1 1)) (rows df)) in
  df.

Definition weather (csv : DataFrame) : list Row := rows (load_data csv).

(** *** The per-calendar-day summary *)

Definition filtered_data (month_num selected_day : Z) (weather : list Row)
    : list Row :=
  filter (fun r =>
            opt_eqb Z.eqb (EXTRACT month_of (Date r)) (Some month_num)
            && opt_eqb Z.eqb (EXTRACT day_of (Date r)) (Some selected_day))
         weather.

Record summary_row : Type := {
  Avg_Temp : option Q;
  Avg_High_Temp : option Q;
  Avg_Low_Temp : option Q;
  Chance_of_Rain : option Q;
  Record_High : option Q;
  Record_Low : option Q
}.

(** [CASE WHEN PRCP > 0.01 THEN 1 ELSE 0 END] *)
Definition rained (r : Row) : Q := if gt (PRCP r) 0.01 then 1 else 0.

Definition summary (filtered : list Row) : summary_row :=
  {| Avg_Temp := option_map ROUND1 (AVG (map TAVG filtered));
     Avg_High_Temp := option_map ROUND1 (AVG (map TMAX filtered));
     Avg_Low_Temp := option_map ROUND1 (AVG (map TMIN filtered));
     Chance_of_Rain :=
       option_map
         (fun s => ROUND1 (s * 100 / inject_Z (COUNT filtered)))
         (SUM (map (fun r => Some (rained r)) filtered));
     Record_High := MAX (map TMAX filtered);
     Record_Low := MIN (map TMIN filtered) |}.

(** [x = (SELECT agg ...)], NULL on either side never matches. *)
Definition eq_opt (x y : option Q) : bool :=
  match x, y with
  | Some a, Some b => Qeq_bool a b
  | _, _ => false
  end.

Definition high_date (filtered : list Row) : list (option date) :=
  LIMIT 1
    (map Date
       (filter (fun r => eq_opt (TMAX r) (MAX (map TMAX filtered))) filtered)).

Definition low_date (filtered : list Row) : list (option date) :=
  LIMIT 1
    (map Date
       (filter (fun r => eq_opt (TMIN r) (MIN (map TMIN filtered))) filtered)).

Definition swing (r : Row) : option Q :=
  match TMAX r, TMIN r with
  | Some hi, Some lo => Some (hi - lo)
  | _, _ => None
  end.

Definition biggest_swing (filtered : list Row) : list Row :=
  LIMIT 1 (sort (fun a b => desc_leb Qle_bool (swing a) (swing b)) filtered).

(** The cross join of the four one-row (or empty) tables. *)
Definition day_summary (month_num selected_day : Z) (weather : list Row)
    : list (summary_row * option date * option date * Row) :=
  let filtered := filtered_data month_num selected_day weather in
  flat_map (fun h =>
    flat_map (fun l =>
      map (fun b => (summary filtered, h, l, b)) (biggest_swing filtered))
      (low_date filtered))
    (high_date filtered).

(** *** The dry-streak query *)

Record weather_clean_row : Type := {
  wc_Date : date;
  wc_PRCP : option Q;
  is_dry : Z
}.

Definition clean (d : date) (r : Row) : weather_clean_row :=
  {| wc_Date := d;
     wc_PRCP := PRCP r;
     is_dry := if is_null (PRCP r) || eq_const (PRCP r) 0 then 1%Z else 0%Z |}.

Definition weather_clean (weather : list Row) : list weather_clean_row :=
  sort (fun a b => (wc_Date a <=? wc_Date b)%Z)
    (flat_map (fun r => match Date r with
                        | Some d => [clean d r]
                        | None => []
                        end) weather).

Record runs_row : Type := {
  base : weather_clean_row;
  wet_group : Z
}.

(** [CASE WHEN is_dry = 0 THEN 1 ELSE 0 END] *)
Definition wet_flag (r : weather_clean_row) : Z :=
  if (is_dry r =? 0)%Z then 1%Z else 0%Z.

(** The running sum over the rows up to the current one; [acc] is the sum
    over the rows already passed. *)
Fixpoint running_sum (acc : Z) (l : list weather_clean_row) : list runs_row :=
  match l with
  | [] => []
  | r :: t =>
      let acc := (acc + wet_flag r)%Z in
      {| base := r; wet_group := acc |} :: running_sum acc t
  end.

Definition runs (weather : list Row) : list runs_row :=
  running_sum 0
    (sort (fun a b => (wc_Date a <=? wc_Date b)%Z) (weather_clean weather)).

Record streaks_row : Type := {
  s_wet_group : Z;
  s_StartDate : date;
  s_EndDate : date;
  StreakDays : Z
}.

(** The aggregates of one group; a group is never empty. *)
Definition streak_of (g : Z * list runs_row) : list streaks_row :=
  match map (fun r => wc_Date (base r)) (snd g) with
  | [] => []
  | d :: ds =>
      [{| s_wet_group := fst g;
          s_StartDate := fold_left Z.min ds d;
          s_EndDate := fold_left Z.max ds d;
          StreakDays := COUNT (snd g) |}]
  end.

Definition streaks (weather : list Row) : list streaks_row :=
  filter (fun s => (150 <=? StreakDays s)%Z)
    (flat_map streak_of
       (group_by Z.eqb wet_group
          (filter (fun r => (is_dry (base r) =? 1)%Z) (runs weather)))).

Record rain_on_next_day_row : Type := {
  s : streaks_row;
  RainDate : date;
  r_Rain : option Q
}.

Definition rain_on_next_day (weather : list Row) : list rain_on_next_day_row :=
  flat_map (fun st =>
    flat_map (fun w =>
      match Date w with
      | Some d =>
          if (d =? next_day (s_EndDate st))%Z && gt (PRCP w) 0.01
          then [{| s := st; RainDate := d; r_Rain := PRCP w |}]
          else []
      | None => []
      end)
      weather)
    (streaks weather).

Record dry_streaks_row : Type := {
  EndDate : date;
  StartDate : date;
  streak_length : Z;
  Rain : option Q
}.

Definition dry_streaks (weather : list Row) : list dry_streaks_row :=
  map (fun j =>
         {| EndDate := RainDate j;
            StartDate := s_StartDate (s j);
            streak_length := StreakDays (s j);
            Rain := r_Rain j |})
      (rain_on_next_day weather).

(** *** The wettest day of each month *)

Record wettest_row : Type := {
  w_Month : option Z;
  w_Date : option date;
  w_Rain : option Q
}.

(** [ORDER BY Month, "PRCP (Inches)" DESC] *)
Definition month_then_rain_leb (a b : wettest_row) : bool :=
  if opt_eqb Z.eqb (w_Month a) (w_Month b)
  then desc_leb Qle_bool (w_Rain a) (w_Rain b)
  else asc_leb Z.leb (w_Month a) (w_Month b).

Definition wettest_days (weather : list Row) : list wettest_row :=
  distinct_on (opt_eqb Z.eqb) w_Month
    (sort month_then_rain_leb
       (map (fun r => {| w_Month := EXTRACT month_of (Date r);
                         w_Date := Date r;
                         w_Rain := PRCP r |})
          (filter (fun r => is_not_null (PRCP r)) weather))).

End ClimateHistoryByDay.

(** ** The properties under test, in the words of the specification *)

Module Spec.

Import Calendar SQL Frame.
Local Open Scope Z_scope.

(** *** Floating holidays *)

Definition in_month (year month : Z) (d : date) : Prop :=
  year_of d = year /\ month_of d = month.

(** The last day of the month that falls on the weekday. *)
Definition last_weekday_of (weekday year month : Z) (d : date) : Prop :=
  in_month year month d /\ dayofweek d = weekday
  /\ forall d', in_month year month d' -> dayofweek d' = weekday -> d' <= d.

(** The first day of the month that falls on the weekday. *)
Definition first_weekday_of (weekday year month : Z) (d : date) : Prop :=
  in_month year month d /\ dayofweek d = weekday
  /\ forall d', in_month year month d' -> dayofweek d' = weekday -> d <= d'.

(** The fourth such day: exactly three days of the month on that weekday
    come before it. *)
Definition fourth_weekday_of (weekday year month : Z) (d : date) : Prop :=
  in_month year month d /\ dayofweek d = weekday
  /\ exists earlier : list date,
       List.length earlier = 3%nat /\ NoDup earlier
       /\ forall d', In d' earlier <->
                     (in_month year month d' /\ dayofweek d' = weekday /\ d' < d).

Definition memorial_day (year : Z) (d : date) : Prop := last_weekday_of 0 year 5 d.
Definition labor_day (year : Z) (d : date) : Prop := first_weekday_of 0 year 9 d.
Definition thanksgiving_day (year : Z) (d : date) : Prop :=
  fourth_weekday_of 3 year 11 d.

(** *** The normalized dataset *)

(** [t] is [s] without its surrounding whitespace. *)
Fixpoint all_space (s : string) : bool :=
  match s with
  | EmptyString => true
  | String c s' => is_space c && all_space s'
  end.

Definition no_space_at_ends (t : string) : Prop :=
  (forall c t', t = String c t' -> is_space c = false)
  /\ (forall c t', t = (t' ++ String c EmptyString)%string -> is_space c = false).

Definition trimmed (s t : string) : Prop :=
  (exists pre suf, s = (pre ++ t ++ suf)%string
                   /\ all_space pre = true /\ all_space suf = true)
  /\ no_space_at_ends t.

(** [kept] is [l] restricted to the rows dated on or after the bound: the
    same rows, in the same order, none altered. *)
Inductive restricted (bound : date) : list Row -> list Row -> Prop :=
| restricted_nil : restricted bound [] []
| restricted_keep r l kept :
    (exists d, Date r = Some d /\ bound <= d) ->
    restricted bound l kept -> restricted bound (r :: l) (r :: kept)
| restricted_drop r l kept :
    ~ (exists d, Date r = Some d /\ bound <= d) ->
    restricted bound l kept -> restricted bound (r :: l) kept.

Definition normalized (csv df : DataFrame) : Prop :=
  Forall2 trimmed (columns csv) (columns df)
  /\ restricted (ymd2ord 1949 1 1) (rows csv) (rows df).

(** *** Monthly climatology *)

Definition calendar_months : list (option Z) :=
  map Some [1; 2; 3; 4; 5; 6; 7; 8; 9; 10; 11; 12].

(** Every calendar month has a row with both temperatures present. *)
Definition covers_all_months (weather : list Row) : bool :=
  forallb (fun m =>
             existsb (fun r => opt_eqb Z.eqb (Month r) (Some m)
                               && is_not_null (TMIN r) && is_not_null (TMAX r))
                     weather)
          [1; 2; 3; 4; 5; 6; 7; 8; 9; 10; 11; 12].

(** Every row with both temperatures present has its low at or below its
    high. *)
Definition lows_below_highs (weather : list Row) : bool :=
  forallb (fun r => match TMIN r, TMAX r with
                    | Some lo, Some hi => Qle_bool lo hi
                    | _, _ => true
                    end) weather.

Definition low_avg_ordered (r : Snapshot.monthly_temp_row) : Prop :=
  exists a b, Snapshot.MinLow r = Some a /\ Snapshot.AvgLow r = Some b
              /\ (a <= b)%Q.

Definition avg_high_ordered (r : Snapshot.monthly_temp_row) : Prop :=
  exists c d, Snapshot.AvgHigh r = Some c /\ Snapshot.MaxHigh r = Some d
              /\ (c <= d)%Q.

Definition avgs_ordered (r : Snapshot.monthly_temp_row) : Prop :=
  exists b c, Snapshot.AvgLow r = Some b /\ Snapshot.AvgHigh r = Some c
              /\ (b <= c)%Q.

Definition fully_ordered (r : Snapshot.monthly_temp_row) : Prop :=
  low_avg_ordered r /\ avgs_ordered r /\ avg_high_ordered r.

(** Over the rows of the row's month that have both temperatures, MinLow is
    the least low and MaxHigh the greatest high: readings of the month
    that bound all the others. *)
Definition extremes_of_month (weather : list Row)
    (r : Snapshot.monthly_temp_row) : Prop :=
  exists a d,
    Snapshot.MinLow r = Some a /\ Snapshot.MaxHigh r = Some d
    /\ (exists x, In x weather /\ Month x = Snapshot.mt_Month r
                  /\ TMIN x = Some a /\ TMAX x <> None)
    /\ (exists x, In x weather /\ Month x = Snapshot.mt_Month r
                  /\ TMAX x = Some d /\ TMIN x <> None)
    /\ forall x lo hi,
         In x weather -> Month x = Snapshot.mt_Month r ->
         TMIN x = Some lo -> TMAX x = Some hi -> (a <= lo /\ hi <= d)%Q.

Definition low_high_ordered (r : Snapshot.monthly_temp_row) : Prop :=
  exists a d, Snapshot.MinLow r = Some a /\ Snapshot.MaxHigh r = Some d
              /\ (a <= d)%Q.

(** *** Annual summary *)

(** No year of either annual result reaches [current_year]. *)
Definition excludes_year (current_year : Z) (weather : list Row) : Prop :=
  Forall (fun r => exists y, Snapshot.aa_Year r = Some y /\ y < current_year)
         (Snapshot.annual_avg_sql weather)
  /\ Forall (fun r => exists y, Snapshot.at_Year r = Some y /\ y < current_year)
            (Snapshot.annual_total_prcp weather).

(** *** Ranked days *)

(** Later rows rank at or below earlier ones; every value is present. *)
Definition descending (l : list Snapshot.day_value) : Prop :=
  StronglySorted
    (fun r1 r2 => exists a b, Snapshot.dv_value r1 = Some a
                              /\ Snapshot.dv_value r2 = Some b /\ (b <= a)%Q) l.

Definition ascending (l : list Snapshot.day_value) : Prop :=
  StronglySorted
    (fun r1 r2 => exists a b, Snapshot.dv_value r1 = Some a
                              /\ Snapshot.dv_value r2 = Some b /\ (a <= b)%Q) l.

Definition no_null_value (l : list Snapshot.day_value) : Prop :=
  Forall (fun r => Snapshot.dv_value r <> None) l.

(** *** Chance of rain on a calendar day *)

Definition count_rows (p : Row -> bool) (l : list Row) : Q :=
  Qcount (filter p l).

(** The percentage over the rows whose precipitation is present. *)
Definition chance_over_non_null (matching : list Row) : Q :=
  (100 * count_rows (fun r => gt (PRCP r) 0.01) matching
   / count_rows (fun r => is_not_null (PRCP r)) matching)%Q.

(** The percentage over all the matching rows. *)
Definition chance_over_all (matching : list Row) : Q :=
  (100 * count_rows (fun r => gt (PRCP r) 0.01) matching
   / count_rows (fun _ => true) matching)%Q.

(** *** Holiday outlook *)

(** [r'] is [r] after the fill: a null maximum temperature takes the row's
    average temperature, a null precipitation takes 0, the rest stays. *)
Definition filled (r r' : Row) : Prop :=
  Date r' = Date r /\ TMIN r' = TMIN r /\ TAVG r' = TAVG r
  /\ TMAX r' = match TMAX r with Some v => Some v | None => TAVG r end
  /\ PRCP r' = match PRCP r with Some p => Some p | None => Some 0%Q end.

Definition filled_holiday (r r' : HolidayOutlook.holiday_row) : Prop :=
  HolidayOutlook.h_Date r' = HolidayOutlook.h_Date r
  /\ HolidayOutlook.Holiday r' = HolidayOutlook.Holiday r
  /\ HolidayOutlook.h_TMIN r' = HolidayOutlook.h_TMIN r
  /\ HolidayOutlook.h_TAVG r' = HolidayOutlook.h_TAVG r
  /\ HolidayOutlook.h_TMAX r'
     = match HolidayOutlook.h_TMAX r with
       | Some v => Some v
       | None => HolidayOutlook.h_TAVG r
       end
  /\ HolidayOutlook.h_PRCP r'
     = match HolidayOutlook.h_PRCP r with
       | Some p => Some p
       | None => Some 0%Q
       end.

(** The percentage of the matching holiday days, as loaded, with
    precipitation above 0, over all of them. *)
Definition holiday_chance (matching : list HolidayOutlook.holiday_row) : Q :=
  (100 * Qcount (filter (fun r => gt (HolidayOutlook.h_PRCP r) 0) matching)
   / Qcount matching)%Q.

(** *** Dry streaks *)

Import ClimateHistoryByDay.

Definition ends_wet (l : list weather_clean_row) : bool :=
  match rev l with
  | [] => true
  | r :: _ => is_dry r =? 0
  end.

Definition starts_wet (l : list weather_clean_row) : bool :=
  match l with
  | [] => true
  | r :: _ => is_dry r =? 0
  end.

(** [run] is a maximal run of dry days of the date-ordered series: dry
    throughout, with a wet day (or nothing) on either side. *)
Definition maximal_dry_run (series pre run post : list weather_clean_row) : Prop :=
  series = pre ++ run ++ post
  /\ run <> []
  /\ forallb (fun r => is_dry r =? 1) run = true
  /\ ends_wet pre = true
  /\ starts_wet post = true.

(** The number of wet days before the run: the run's group. *)
Definition group_of (pre : list weather_clean_row) : Z :=
  fold_right (fun r n => wet_flag r + n) 0 pre.

Definition first_day (run : list weather_clean_row) : option date :=
  option_map wc_Date (hd_error run).

Definition last_day (run : list weather_clean_row) : option date :=
  option_map wc_Date (hd_error (rev run)).

(** [n] consecutive days from [day0]. *)
Definition days_from (day0 : date) (n : nat) : list (option date) :=
  map (fun k => Some (day0 + Z.of_nat k)) (seq 0 n).

(** *** Grouped results *)

(** The order of a grouping key: ascending, a NULL key after the others. *)
Definition key_lt (a b : option Z) : Prop :=
  match a, b with
  | Some x, Some y => x < y
  | Some _, None => True
  | None, _ => False
  end.

(** The readings of a year. *)
Definition in_year (y : Z) (r : Row) : bool := opt_eqb Z.eqb (Year r) (Some y).

(** The precipitation readings of a calendar month, all years together. *)
Definition month_readings (m : Z) (weather : list Row) : list Row :=
  filter (fun r => opt_eqb Z.eqb (Month r) (Some m) && is_not_null (PRCP r))
         weather.

(** The years that have a precipitation reading in the month. *)
Definition years_with_reading (m : Z) (weather : list Row) : list Z :=
  distinct Z.eqb (non_null (map Year (month_readings m weather))).

(** The precipitation of the month in one year. *)
Definition year_total (m y : Z) (weather : list Row) : Q :=
  Qsum (non_null (map PRCP (filter (in_year y) (month_readings m weather)))).

Definition mean (l : list Q) : Q := (Qsum l / Qcount l)%Q.

(** *** Ranked months *)

Definition descending_by {A : Type} (value : A -> option Q) (l : list A) : Prop :=
  StronglySorted
    (fun r1 r2 => exists a b, value r1 = Some a /\ value r2 = Some b
                              /\ (b <= a)%Q) l.

Definition ascending_by {A : Type} (value : A -> option Q) (l : list A) : Prop :=
  StronglySorted
    (fun r1 r2 => exists a b, value r1 = Some a /\ value r2 = Some b
                              /\ (a <= b)%Q) l.

(** The rows of the calendar month of [d]. *)
Definition same_month (d : date) (r : Row) : bool :=
  Snapshot.year_month_eqb (Snapshot.year_month (Date r))
    (Some (year_of d, month_of d)).

(** [d] is the earliest day of its calendar month with a reading in the
    column. *)
Definition earliest_reading (col : Row -> option Q) (weather : list Row)
    (d : date) : Prop :=
  (exists r, In r weather /\ Date r = Some d /\ is_not_null (col r) = true)
  /\ forall r, In r weather -> same_month d r = true ->
               is_not_null (col r) = true ->
               exists d', Date r = Some d' /\ d <= d'.

(** Each ranked month stands for one calendar month, no month twice, is
    dated by the month's earliest reading and carries the aggregate of the
    month's readings. *)
Definition month_rows (col : Row -> option Q)
    (agg : list (option Q) -> option Q) (weather : list Row)
    (result : list Snapshot.month_value) : Prop :=
  NoDup (map (fun row => Snapshot.year_month (Snapshot.SampleDate row)) result)
  /\ Forall (fun row =>
               exists d, Snapshot.SampleDate row = Some d
                         /\ earliest_reading col weather d
                         /\ Snapshot.mv_value row
                            = agg (map col (filter (same_month d) weather)))
            result.

(** *** Monthly average temperature *)

(** The average-temperature readings of a calendar month. *)
Definition month_temperatures (m : Z) (weather : list Row) : list Row :=
  filter (fun r => opt_eqb Z.eqb (Month r) (Some m) && is_not_null (TAVG r))
         weather.

(** *** Ranked rows *)

(** [result] is the head of [l] in the order [leb]: the first [n] rows, or
    all of them when there are fewer; in order; rows of [l]; and a row of
    [l] left out ranks no better than any row listed. *)
Definition ranked_head {A : Type} (leb : A -> A -> bool) (n : nat)
    (l result : list A) : Prop :=
  List.length result = Nat.min n (List.length l)
  /\ StronglySorted (fun a b => leb a b = true) result
  /\ (forall x, In x result -> In x l)
  /\ forall c, In c l ->
               In c result \/ forall x, In x result -> leb x c = true.

(** *** The days of a holiday *)

(** [d] is a day of the holiday [name], the floating holidays being looked
    up for the years 1949 to [now_year]. *)
Definition holiday_on (name : string) (now_year : Z) (d : date) : Prop :=
  (name = "New Year's Day"%string /\ month_of d = 1 /\ day_of d = 1)
  \/ (name = "Independence Day"%string /\ month_of d = 7 /\ day_of d = 4)
  \/ (name = "Christmas"%string /\ month_of d = 12 /\ day_of d = 25)
  \/ (1949 <= year_of d <= now_year
      /\ ((name = "Memorial Day"%string /\ memorial_day (year_of d) d)
          \/ (name = "Labor Day"%string /\ labor_day (year_of d) d)
          \/ (name = "Thanksgiving"%string
              /\ thanksgiving_day (year_of d) d))).

End Spec.

(** ** Sample tables *)

Module Examples.

Import Calendar SQL Frame.

(** A reading of precipitation only. *)
Definition rain_row (d : date) (p : Q) : Row :=
  mkRow (Some d) None None None (Some p).

(** Four hundred days from 2000-01-01: a tenth of an inch every day, except
    days 100 to 260, which are dry, and day 261, with half an inch. *)
Definition synthetic_row (k : nat) : Row :=
  rain_row (ymd2ord 2000 1 1 + Z.of_nat k)
    (if ((100 <=? k) && (k <=? 260))%nat then 0
     else if (k =? 261)%nat then 0.5 else 0.1)%Q.

Definition synthetic_series : list Row := map synthetic_row (seq 0 400).

(** The same with the dry days cut to 149: days 100 to 248. *)
Definition short_row (k : nat) : Row :=
  rain_row (ymd2ord 2000 1 1 + Z.of_nat k)
    (if ((100 <=? k) && (k <=? 248))%nat then 0
     else if (k =? 249)%nat then 0.5 else 0.1)%Q.

Definition short_series : list Row := map short_row (seq 0 400).

(** One day in the middle of each month of 2000, the lows under the highs. *)
Definition year_2000 : DataFrame :=
  mkFrame [" Date "%string]
    (map (fun m => mkRow (Some (ymd2ord 2000 m 15)) (Some (60 + inject_Z m)%Q)
                     (Some (50 + inject_Z m)%Q) None None)
         [1; 2; 3; 4; 5; 6; 7; 8; 9; 10; 11; 12]).

(** The same with January's readings exchanged: a low of 70 over a high
    of 60. *)
Definition year_2000_exchanged : DataFrame :=
  mkFrame [" Date "%string]
    (mkRow (Some (ymd2ord 2000 1 15)) (Some 60%Q) (Some 70%Q) None None
     :: tl (rows year_2000)).

Definition no_month : Snapshot.monthly_temp_row :=
  {| Snapshot.mt_Month := None; Snapshot.AvgLow := None;
     Snapshot.AvgHigh := None; Snapshot.MinLow := None;
     Snapshot.MaxHigh := None |}.

End Examples.

(** ** Double-precision arithmetic

    The mean of doubles as the engine has it: the sum of the readings, then
    one division by their number, every operation rounded to the nearest
    double (IEEE 754 binary64).  The sum is taken from left to right; for
    two readings, or three equal ones, every order of the additions gives
    the same double. *)

Module Doubles.

Import PrimFloat.

Definition double_mean (l : list float) : float :=
  (fold_left add l 0
   / of_uint63 (Uint63.of_Z (Z.of_nat (List.length l))))%float.

End Doubles.

(* ================================================================== *)
(** * Part II: properties                                              *)
(* ================================================================== *)

(** ** Calendar facts *)

Section CalendarFacts.
Import Calendar.

Lemma all_in_range_spec (p : positive) (f : Z -> bool) (base : Z) :
  all_in_range p f base = true ->
  forall n, base <= n < base + Zpos p -> f n = true.
Proof.
  revert base; induction p as [p IH | p IH |]; intros base H n Hn; simpl in H.
  - apply andb_prop in H as [H H2]. apply andb_prop in H as [H0 H1].
    destruct (Z.eq_dec n base) as [-> | Hne]; [assumption |].
    destruct (Z_lt_dec n (base + 1 + Zpos p)).
    + apply (IH _ H1); lia.
    + apply (IH _ H2); lia.
  - apply andb_prop in H as [H1 H2].
    destruct (Z_lt_dec n (base + Zpos p)).
    + apply (IH _ H1); lia.
    + apply (IH _ H2); lia.
  - assert (n = base) by lia. subst; assumption.
Qed.

Lemma month_day_checked (leap : bool) :
  all_in_range 365 (month_day_check leap) 0 = true.
Proof. destruct leap; vm_compute; reflexivity. Qed.

Lemma is_leap_decomp a c f h :
  0 <= c <= 3 -> 0 <= f <= 24 -> 0 <= h <= 3 ->
  is_leap (a * 400 + 1 + c * 100 + f * 4 + h)
  = (h =? 3) && (negb (f =? 24) || (c =? 3)).
Proof.
  intros Hc Hf Hh. unfold is_leap.
  set (y := a * 400 + 1 + c * 100 + f * 4 + h).
  assert (E4 : y mod 4 = (h + 1) mod 4).
  { unfold y. replace (a * 400 + 1 + c * 100 + f * 4 + h)
      with (h + 1 + (a * 100 + c * 25 + f) * 4) by ring.
    apply Z_mod_plus_full. }
  assert (E100 : y mod 100 = (f * 4 + h + 1) mod 100).
  { unfold y. replace (a * 400 + 1 + c * 100 + f * 4 + h)
      with (f * 4 + h + 1 + (a * 4 + c) * 100) by ring.
    apply Z_mod_plus_full. }
  assert (E400 : y mod 400 = (c * 100 + f * 4 + h + 1) mod 400).
  { unfold y. replace (a * 400 + 1 + c * 100 + f * 4 + h)
      with (c * 100 + f * 4 + h + 1 + a * 400) by ring.
    apply Z_mod_plus_full. }
  rewrite E4, E100, E400.
  destruct (h =? 3) eqn:Eh, (f =? 24) eqn:Ef, (c =? 3) eqn:Ec; simpl;
    repeat match goal with
           | H : (_ =? _) = true |- _ => apply Z.eqb_eq in H
           | H : (_ =? _) = false |- _ => apply Z.eqb_neq in H
           end; subst;
    repeat match goal with
           | |- context [?x mod ?k =? 0] =>
               let E := fresh "E" in
               destruct (x mod k =? 0) eqn:E;
               [apply Z.eqb_eq in E | apply Z.eqb_neq in E]
           end; simpl; try reflexivity; exfalso;
    Z.div_mod_to_equations; lia.
Qed.
End CalendarFacts.
Section CalendarFacts2.
Import Calendar.

Ltac bool_cases :=
  repeat match goal with
         | H : (_ =? _) = true |- _ => apply Z.eqb_eq in H
         | H : (_ =? _) = false |- _ => apply Z.eqb_neq in H
         | H : (_ <? _) = true |- _ => apply Z.ltb_lt in H
         | H : (_ <? _) = false |- _ => apply Z.ltb_ge in H
         | H : (_ <=? _) = true |- _ => apply Z.leb_le in H
         | H : (_ <=? _) = false |- _ => apply Z.leb_gt in H
         | H : (_ || _) = true |- _ => apply orb_true_iff in H
         | H : (_ || _) = false |- _ => apply orb_false_iff in H as [? ?]
         | H : (_ && _) = true |- _ => apply andb_true_iff in H as [? ?]
         | H : (_ && _) = false |- _ => apply andb_false_iff in H
         end.

Lemma month_day_sound (leap : bool) (n : Z) :
  0 <= n < 365 ->
  let '(m, d) := month_day leap n in
  1 <= m <= 12 /\ 1 <= d
  /\ d <= days_in_month_table m + (if (m =? 2) && leap then 1 else 0)
  /\ days_before_month_table m + (if (2 <? m) && leap then 1 else 0) + d = n + 1.
Proof.
  intros Hn.
  pose proof (all_in_range_spec _ _ _ (month_day_checked leap) n ltac:(lia)) as H.
  unfold month_day_check in H. destruct (month_day leap n) as [m d].
  repeat (apply andb_true_iff in H as [H ?]). bool_cases. lia.
Qed.

Lemma days_before_year_decomp a c f h :
  0 <= c <= 3 -> 0 <= f <= 24 -> 0 <= h <= 3 ->
  days_before_year (a * 400 + 1 + c * 100 + f * 4 + h)
  = a * 146097 + c * 36524 + f * 1461 + h * 365.
Proof.
  intros Hc Hf Hh. unfold days_before_year. cbv zeta.
  replace (a * 400 + 1 + c * 100 + f * 4 + h - 1)
    with (a * 400 + c * 100 + f * 4 + h) by ring.
  Z.div_mod_to_equations. lia.
Qed.

Lemma ord2ymd_sound (n : Z) :
  let '(y, m, d) := ord2ymd n in
  ymd2ord y m d = n /\ 1 <= m <= 12 /\ 1 <= d <= days_in_month y m.
Proof.
  unfold ord2ymd, DI400Y, DI100Y, DI4Y. cbv zeta.
  pose proof (Z.div_mod (n - 1) 146097 ltac:(lia)) as E1.
  pose proof (Z.mod_pos_bound (n - 1) 146097 ltac:(lia)) as B1.
  set (a := (n - 1) / 146097) in *. set (b := (n - 1) mod 146097) in *.
  pose proof (Z.div_mod b 36524 ltac:(lia)) as E2.
  pose proof (Z.mod_pos_bound b 36524 ltac:(lia)) as B2.
  set (c := b / 36524) in *. set (e := b mod 36524) in *.
  pose proof (Z.div_mod e 1461 ltac:(lia)) as E3.
  pose proof (Z.mod_pos_bound e 1461 ltac:(lia)) as B3.
  set (f := e / 1461) in *. set (g := e mod 1461) in *.
  pose proof (Z.div_mod g 365 ltac:(lia)) as E4.
  pose proof (Z.mod_pos_bound g 365 ltac:(lia)) as B4.
  set (h := g / 365) in *. set (r := g mod 365) in *.
  clearbody a b c e f g h r.
  assert (Hc : 0 <= c <= 4) by lia.
  assert (Hf : 0 <= f <= 24) by lia.
  assert (Hh : 0 <= h <= 4) by lia.
  destruct ((h =? 4) || (c =? 4)) eqn:Esp.
  - (* the last day of a leap year *)
    bool_cases.
    assert (Hy : exists c' f',
               a * 400 + 1 + c * 100 + f * 4 + h - 1
               = a * 400 + 1 + c' * 100 + f' * 4 + 3
               /\ 0 <= c' <= 3 /\ 0 <= f' <= 24 /\ (f' = 24 -> c' = 3)
               /\ a * 146097 + c' * 36524 + f' * 1461 + 3 * 365 + 366 = n).
    { destruct Esp as [Esp | Esp]; bool_cases.
      - exists c, f. lia.
      - exists 3, 24. lia. }
    destruct Hy as (c' & f' & -> & Hc' & Hf' & Hcf & Hn).
    unfold ymd2ord, days_in_month, days_before_month.
    rewrite days_before_year_decomp by lia.
    rewrite is_leap_decomp by lia.
    replace (negb (f' =? 24) || (c' =? 3)) with true.
    + simpl. lia.
    + destruct (f' =? 24) eqn:Ef; [| reflexivity].
      bool_cases. rewrite (Hcf Ef). reflexivity.
  - bool_cases.
    pose proof (month_day_sound ((h =? 3) && (negb (f =? 24) || (c =? 3))) r B4) as Hmd.
    destruct (month_day _ r) as [m d].
    destruct Hmd as (Hm & Hd1 & Hd2 & Hsum).
    rewrite <- (is_leap_decomp a c f h) in Hd2, Hsum by lia.
    unfold ymd2ord, days_in_month, days_before_month.
    rewrite days_before_year_decomp by lia.
    set (y := a * 400 + 1 + c * 100 + f * 4 + h) in *.
    split; [lia |]. split; [lia |]. split; [lia |].
    destruct ((m =? 2) && is_leap y) eqn:E2m.
    + bool_cases. subst m. simpl in Hd2. lia.
    + destruct (m =? 2) eqn:Em2; simpl in *; lia.
Qed.
End CalendarFacts2.
Section CalendarFacts3.
Import Calendar.

Lemma days_before_year_succ (y : Z) :
  days_before_year (y + 1)
  = days_before_year y + 365 + (if is_leap y then 1 else 0).
Proof.
  unfold days_before_year, is_leap. cbv zeta.
  replace (y + 1 - 1) with y by ring.
  destruct (y mod 4 =? 0) eqn:E4, (y mod 100 =? 0) eqn:E100,
           (y mod 400 =? 0) eqn:E400; simpl;
    apply Z.eqb_eq in E4 || apply Z.eqb_neq in E4;
    apply Z.eqb_eq in E100 || apply Z.eqb_neq in E100;
    apply Z.eqb_eq in E400 || apply Z.eqb_neq in E400;
    Z.div_mod_to_equations; lia.
Qed.

Lemma days_before_year_mono (y1 y2 : Z) :
  y1 <= y2 -> days_before_year y1 <= days_before_year y2.
Proof.
  intros H. unfold days_before_year. cbv zeta.
  Z.div_mod_to_equations. lia.
Qed.

Lemma month_cases (m : Z) :
  1 <= m <= 12 ->
  m = 1 \/ m = 2 \/ m = 3 \/ m = 4 \/ m = 5 \/ m = 6 \/ m = 7 \/ m = 8
  \/ m = 9 \/ m = 10 \/ m = 11 \/ m = 12.
Proof. lia. Qed.

Lemma ymd2ord_bounds (y m d : Z) :
  1 <= m <= 12 -> 1 <= d <= days_in_month y m ->
  days_before_year y < ymd2ord y m d <= days_before_year (y + 1).
Proof.
  intros Hm Hd. rewrite days_before_year_succ.
  unfold ymd2ord, days_before_month. unfold days_in_month in Hd.
  destruct (is_leap y);
    destruct (month_cases m Hm) as
      [-> | [-> | [-> | [-> | [-> | [-> | [-> | [-> | [-> | [-> | [-> | ->]]]]]]]]]]];
    simpl in *; lia.
Qed.

Lemma ymd2ord_inj (y m d y' m' d' : Z) :
  1 <= m <= 12 -> 1 <= d <= days_in_month y m ->
  1 <= m' <= 12 -> 1 <= d' <= days_in_month y' m' ->
  ymd2ord y m d = ymd2ord y' m' d' ->
  y = y' /\ m = m' /\ d = d'.
Proof.
  intros Hm Hd Hm' Hd' E.
  pose proof (ymd2ord_bounds y m d Hm Hd) as B.
  pose proof (ymd2ord_bounds y' m' d' Hm' Hd') as B'.
  assert (y = y') as <-.
  { destruct (Z.lt_trichotomy y y') as [L | [-> | L]]; [| reflexivity |].
    - pose proof (days_before_year_mono (y + 1) y' ltac:(lia)). lia.
    - pose proof (days_before_year_mono (y' + 1) y ltac:(lia)). lia. }
  split; [reflexivity |].
  unfold ymd2ord, days_before_month in E. unfold days_in_month in Hd, Hd'.
  destruct (is_leap y);
    destruct (month_cases m Hm) as
      [-> | [-> | [-> | [-> | [-> | [-> | [-> | [-> | [-> | [-> | [-> | ->]]]]]]]]]]];
    destruct (month_cases m' Hm') as
      [-> | [-> | [-> | [-> | [-> | [-> | [-> | [-> | [-> | [-> | [-> | ->]]]]]]]]]]];
    simpl in *; lia.
Qed.

Lemma valid_ymd_spec (y m d : Z) :
  valid_ymd y m d = true <->
  1 <= y /\ 1 <= m <= 12 /\ 1 <= d <= days_in_month y m.
Proof.
  unfold valid_ymd. rewrite !andb_true_iff, !Z.leb_le. tauto.
Qed.

(** The date computed from the ordinal of a date is that date. *)
Lemma ord2ymd_ymd2ord (y m d : Z) :
  1 <= m <= 12 -> 1 <= d <= days_in_month y m ->
  ord2ymd (ymd2ord y m d) = (y, m, d).
Proof.
  intros Hm Hd.
  pose proof (ord2ymd_sound (ymd2ord y m d)) as H.
  destruct (ord2ymd (ymd2ord y m d)) as [[y' m'] d'].
  destruct H as (E & Hm' & Hd').
  destruct (ymd2ord_inj y' m' d' y m d Hm' Hd' Hm Hd E) as (-> & -> & ->).
  reflexivity.
Qed.

Lemma month_of_range (d : date) : 1 <= month_of d <= 12.
Proof.
  unfold month_of. pose proof (ord2ymd_sound d) as H.
  destruct (ord2ymd d) as [[y m] dd]. simpl. tauto.
Qed.
End CalendarFacts3.

(** ** Sorting, grouping and aggregates *)

Section SortFacts.
Import SQL.
Context {A : Type} (leb : A -> A -> bool).

Let le (a b : A) : Prop := leb a b = true.

Lemma insert_perm (x : A) (l : list A) : Permutation (x :: l) (insert leb x l).
Proof.
  induction l as [| y t IH]; simpl; [reflexivity |].
  destruct (leb x y); [reflexivity |].
  rewrite perm_swap. now apply perm_skip.
Qed.

Lemma sort_perm (l : list A) : Permutation l (sort leb l).
Proof.
  induction l as [| x t IH]; simpl; [reflexivity |].
  rewrite <- insert_perm. now apply perm_skip.
Qed.

Lemma in_sort (x : A) (l : list A) : In x (sort leb l) <-> In x l.
Proof.
  split; apply Permutation_in; [symmetry |]; apply sort_perm.
Qed.

Lemma length_sort (l : list A) : List.length (sort leb l) = List.length l.
Proof. symmetry. apply Permutation_length, sort_perm. Qed.

Lemma sort_sorted_id (l : list A) : StronglySorted le l -> sort leb l = l.
Proof.
  induction 1 as [| x t Hs IH Hx]; simpl; [reflexivity |].
  rewrite IH. destruct t as [| y t']; simpl; [reflexivity |].
  inversion Hx as [| ? ? Hxy _]; subst. unfold le in Hxy. now rewrite Hxy.
Qed.

Hypothesis leb_total : forall a b, leb a b = false -> leb b a = true.
Hypothesis leb_trans :
  forall a b c, leb a b = true -> leb b c = true -> leb a c = true.

Lemma insert_sorted (x : A) (l : list A) :
  StronglySorted le l -> StronglySorted le (insert leb x l).
Proof.
  induction 1 as [| y t Hs IH Hy]; simpl.
  - repeat constructor.
  - destruct (leb x y) eqn:E.
    + constructor; [now constructor |].
      constructor; [exact E |].
      eapply Forall_impl; [| exact Hy]. intros z Hz. now apply leb_trans with y.
    + constructor; [exact IH |].
      rewrite Forall_forall. intros z Hz.
      apply (Permutation_in _ (Permutation_sym (insert_perm x t))) in Hz.
      destruct Hz as [<- | Hz]; [now apply leb_total |].
      rewrite Forall_forall in Hy. now apply Hy.
Qed.

Lemma sort_sorted (l : list A) : StronglySorted le (sort leb l).
Proof.
  induction l as [| x t IH]; simpl; [constructor | now apply insert_sorted].
Qed.
End SortFacts.

Section ListFacts.
Context {A : Type}.

Lemma StronglySorted_firstn (R : A -> A -> Prop) (n : nat) (l : list A) :
  StronglySorted R l -> StronglySorted R (firstn n l).
Proof.
  intros H. revert n. induction H as [| x t Hs IH Hx]; intros [| n]; simpl;
    try constructor; [apply IH |].
  rewrite Forall_forall in *. intros y Hy. apply Hx.
  rewrite <- (firstn_skipn n t). apply in_or_app. now left.
Qed.

Lemma in_firstn (n : nat) (l : list A) (x : A) : In x (firstn n l) -> In x l.
Proof.
  intros H. rewrite <- (firstn_skipn n l). apply in_or_app. now left.
Qed.

Lemma StronglySorted_refine (R R' : A -> A -> Prop) (P : A -> Prop) (l : list A) :
  (forall a b, P a -> P b -> R a b -> R' a b) ->
  Forall P l -> StronglySorted R l -> StronglySorted R' l.
Proof.
  intros HR HP Hs. induction Hs as [| x t Hs IH Hx]; [constructor |].
  inversion HP as [| ? ? Px Pt]; subst.
  constructor; [now apply IH |].
  rewrite Forall_forall in *. intros y Hy. apply HR; auto.
Qed.
End ListFacts.

Section OrderFacts.
Import SQL.

Lemma Qle_bool_total (a b : Q) : Qle_bool a b = false -> Qle_bool b a = true.
Proof.
  intros H. apply Qle_bool_iff. destruct (Qlt_le_dec b a) as [L | L].
  - now apply Qlt_le_weak.
  - apply Qle_bool_iff in L. congruence.
Qed.

Lemma Qle_bool_trans (a b c : Q) :
  Qle_bool a b = true -> Qle_bool b c = true -> Qle_bool a c = true.
Proof. rewrite !Qle_bool_iff. apply Qle_trans. Qed.

Context {A : Type} (leb : A -> A -> bool).
Hypothesis leb_total : forall a b, leb a b = false -> leb b a = true.
Hypothesis leb_trans :
  forall a b c, leb a b = true -> leb b c = true -> leb a c = true.

Lemma asc_leb_total (a b : option A) :
  asc_leb leb a b = false -> asc_leb leb b a = true.
Proof. destruct a, b; simpl; auto. Qed.

Lemma asc_leb_trans (a b c : option A) :
  asc_leb leb a b = true -> asc_leb leb b c = true -> asc_leb leb a c = true.
Proof. destruct a, b, c; simpl; eauto; discriminate. Qed.

Lemma desc_leb_total (a b : option A) :
  desc_leb leb a b = false -> desc_leb leb b a = true.
Proof. destruct a, b; simpl; auto. Qed.

Lemma desc_leb_trans (a b c : option A) :
  desc_leb leb a b = true -> desc_leb leb b c = true -> desc_leb leb a c = true.
Proof. destruct a, b, c; simpl; eauto; discriminate. Qed.
End OrderFacts.

(** ** Snapshot: the ranked days *)

Section RankedDays.
Import Calendar SQL Frame Snapshot Spec.

(** A ranked list built from the rows whose measurement is present holds no
    null value. *)
Lemma ranked_no_null (leb : day_value -> day_value -> bool)
    (col : Row -> option Q) (weather : list Row) :
  no_null_value
    (LIMIT 10
       (sort leb
          (map (fun r => {| dv_Date := Date r; dv_value := col r |})
             (filter (fun r => is_not_null (col r)) weather)))).
Proof.
  unfold no_null_value, LIMIT. rewrite Forall_forall. intros x Hx.
  apply in_firstn, in_sort, in_map_iff in Hx.
  destruct Hx as (r & <- & Hr). apply filter_In in Hr as [_ Hr].
  simpl. destruct (col r); [discriminate | discriminate Hr].
Qed.

Lemma ranked_descending (l : list day_value) :
  no_null_value l ->
  StronglySorted
    (fun a b => desc_leb Qle_bool (dv_value a) (dv_value b) = true) l ->
  descending l.
Proof.
  intros Hn Hs. unfold descending.
  eapply StronglySorted_refine with (P := fun r => dv_value r <> None);
    [| exact Hn | exact Hs].
  simpl. intros a b Ha Hb Hab.
  destruct (dv_value a) as [x |]; [| contradiction].
  destruct (dv_value b) as [y |]; [| contradiction].
  exists x, y. repeat split. now apply Qle_bool_iff.
Qed.

Lemma ranked_ascending (l : list day_value) :
  no_null_value l ->
  StronglySorted
    (fun a b => asc_leb Qle_bool (dv_value a) (dv_value b) = true) l ->
  ascending l.
Proof.
  intros Hn Hs. unfold ascending.
  eapply StronglySorted_refine with (P := fun r => dv_value r <> None);
    [| exact Hn | exact Hs].
  simpl. intros a b Ha Hb Hab.
  destruct (dv_value a) as [x |]; [| contradiction].
  destruct (dv_value b) as [y |]; [| contradiction].
  exists x, y. repeat split. now apply Qle_bool_iff.
Qed.

Lemma sort_desc_sorted (l : list day_value) :
  StronglySorted
    (fun a b => desc_leb Qle_bool (dv_value a) (dv_value b) = true)
    (sort (fun a b => desc_leb Qle_bool (dv_value a) (dv_value b)) l).
Proof.
  apply (sort_sorted (fun a b => desc_leb Qle_bool (dv_value a) (dv_value b))).
  - intros a b. apply desc_leb_total, Qle_bool_total.
  - intros a b c. apply desc_leb_trans, Qle_bool_trans.
Qed.

Lemma sort_asc_sorted (l : list day_value) :
  StronglySorted
    (fun a b => asc_leb Qle_bool (dv_value a) (dv_value b) = true)
    (sort (fun a b => asc_leb Qle_bool (dv_value a) (dv_value b)) l).
Proof.
  apply (sort_sorted (fun a b => asc_leb Qle_bool (dv_value a) (dv_value b))).
  - intros a b. apply asc_leb_total, Qle_bool_total.
  - intros a b c. apply asc_leb_trans, Qle_bool_trans.
Qed.

(** C7. Each of the three top-ten queries (warmest days by maximum
    temperature, descending; coldest days by minimum temperature,
    ascending; wettest days by precipitation, descending) returns at most
    ten rows, sorted by its measurement in its direction, none of them with
    a null measurement. *)
Theorem top_extreme_days_ranked (weather : list Row) :
  ((List.length (warmest_days weather) <= 10)%nat
   /\ descending (warmest_days weather)
   /\ no_null_value (warmest_days weather))
  /\ ((List.length (coldest_days weather) <= 10)%nat
      /\ ascending (coldest_days weather)
      /\ no_null_value (coldest_days weather))
  /\ ((List.length (wettest_days weather) <= 10)%nat
      /\ descending (wettest_days weather)
      /\ no_null_value (wettest_days weather)).
Proof.
  repeat split.
  - apply firstn_le_length.
  - apply ranked_descending; [apply ranked_no_null |].
    apply StronglySorted_firstn, sort_desc_sorted.
  - apply ranked_no_null.
  - apply firstn_le_length.
  - apply ranked_ascending; [apply ranked_no_null |].
    apply StronglySorted_firstn, sort_asc_sorted.
  - apply ranked_no_null.
  - apply firstn_le_length.
  - apply ranked_descending; [apply ranked_no_null |].
    apply StronglySorted_firstn, sort_desc_sorted.
  - apply ranked_no_null.
Qed.
End RankedDays.

Section GroupFacts.
Import SQL.
Context {A K : Type} (eqb : K -> K -> bool).
Hypothesis eqb_spec : forall a b, eqb a b = true <-> a = b.

Lemma in_distinct (k : K) (l : list K) : In k (distinct eqb l) <-> In k l.
Proof.
  induction l as [| x t IH]; simpl; [tauto |].
  rewrite filter_In, IH. split.
  - intros [H | [H _]]; auto.
  - intros [H | H]; auto.
    destruct (eqb x k) eqn:E.
    + left. now apply eqb_spec.
    + right. now split.
Qed.

Lemma NoDup_distinct (l : list K) : NoDup (distinct eqb l).
Proof.
  induction l as [| x t IH]; simpl; constructor.
  - rewrite filter_In. intros [_ H].
    assert (E : eqb x x = true) by now apply eqb_spec.
    rewrite E in H. discriminate.
  - now apply NoDup_filter.
Qed.

Lemma in_group_by (key : A -> K) (l : list A) (g : K * list A) :
  In g (group_by eqb key l) <->
  In (fst g) (map key l) /\ snd g = filter (fun r => eqb (key r) (fst g)) l.
Proof.
  unfold group_by. rewrite in_map_iff. split.
  - intros (k & <- & Hk). rewrite in_distinct in Hk. simpl. now split.
  - intros [Hk Hg]. exists (fst g). rewrite in_distinct. split; [| exact Hk].
    destruct g as [k rows]. simpl in *. now subst.
Qed.

(** A group holds a row, and all its rows carry the group's key. *)
Lemma group_rows (key : A -> K) (l : list A) (g : K * list A) :
  In g (group_by eqb key l) ->
  snd g <> [] /\ Forall (fun r => In r l /\ key r = fst g) (snd g).
Proof.
  intros H. apply in_group_by in H as [Hk Hg]. rewrite Hg. split.
  - apply in_map_iff in Hk as (r & Hr & Hin). intros E.
    assert (Hf : In r (filter (fun r => eqb (key r) (fst g)) l)).
    { apply filter_In. split; [exact Hin |]. now apply eqb_spec. }
    rewrite E in Hf. exact Hf.
  - rewrite Forall_forall. intros r Hr. apply filter_In in Hr as [Hin Hr].
    split; [exact Hin |]. now apply eqb_spec.
Qed.
End GroupFacts.

Lemma opt_Z_eqb_spec (a b : option Z) : SQL.opt_eqb Z.eqb a b = true <-> a = b.
Proof.
  destruct a as [x |], b as [y |]; simpl; split; intros H;
    try discriminate; try reflexivity.
  - apply Z.eqb_eq in H. now subst.
  - injection H as ->. apply Z.eqb_refl.
Qed.

(** ** Snapshot: the annual summary *)

Section AnnualSummary.
Import Calendar SQL Frame Snapshot.

(** A group of the rows passing [WHERE Year < 2025] has its year below
    2025. *)
Lemma annual_group_year (weather : list Row) (g : option Z * list Row) :
  In g (group_by (opt_eqb Z.eqb) Year (filter year_lt_2025 weather)) ->
  exists y, fst g = Some y /\ y < 2025.
Proof.
  intros H. apply in_group_by in H as [Hk _]; [| exact opt_Z_eqb_spec].
  apply in_map_iff in Hk as (r & Hr & Hin).
  apply filter_In in Hin as [_ Hlt]. unfold year_lt_2025 in Hlt.
  rewrite Hr in Hlt. destruct (fst g) as [y |]; [| discriminate].
  exists y. split; [reflexivity |]. now apply Z.ltb_lt.
Qed.

Lemma annual_avg_before_2025 (weather : list Row) :
  Forall (fun r => exists y, aa_Year r = Some y /\ y < 2025)
         (annual_avg_sql weather).
Proof.
  rewrite Forall_forall. intros r Hr. unfold annual_avg_sql in Hr.
  apply in_sort, in_map_iff in Hr. destruct Hr as (g & <- & Hg).
  simpl. eapply annual_group_year, Hg.
Qed.

Lemma annual_total_before_2025 (weather : list Row) :
  Forall (fun r => exists y, at_Year r = Some y /\ y < 2025)
         (annual_total_prcp weather).
Proof.
  rewrite Forall_forall. intros r Hr. unfold annual_total_prcp in Hr.
  apply in_sort, in_map_iff in Hr. destruct Hr as (g & <- & Hg).
  simpl. eapply annual_group_year, Hg.
Qed.

(** C5, as the code has it.  Every year in the per-year average-temperature
    result and in the per-year total-precipitation result is strictly below
    2025, the constant both queries compare with; it is therefore below the
    current year whenever the query runs in 2025 or later. *)
Theorem annual_summary_before_2025 (weather : list Row) :
  Forall (fun r => exists y, aa_Year r = Some y /\ y < 2025)
         (annual_avg_sql weather)
  /\ Forall (fun r => exists y, at_Year r = Some y /\ y < 2025)
            (annual_total_prcp weather)
  /\ forall current_year, 2025 <= current_year ->
       Spec.excludes_year current_year weather.
Proof.
  split; [apply annual_avg_before_2025 |].
  split; [apply annual_total_before_2025 |].
  intros current_year Hc. split.
  - eapply Forall_impl; [| apply annual_avg_before_2025].
    intros r (y & E & Hy). exists y. split; [exact E | lia].
  - eapply Forall_impl; [| apply annual_total_before_2025].
    intros r (y & E & Hy). exists y. split; [exact E | lia].
Qed.

Lemma annual_summary_before_2025_witness :
  2025 <= 2026
  /\ Spec.excludes_year 2026
       [mkRow (Some (ymd2ord 2024 6 15)) None None (Some 65%Q) (Some 0.1%Q);
        mkRow (Some (ymd2ord 2025 6 15)) None None (Some 66%Q) None].
Proof.
  split; [lia |].
  apply (proj2 (proj2 (annual_summary_before_2025 _)) 2026). lia.
Defined.

(** C5, as stated, fails: run in 2024 on a table holding a day of 2024, both
    queries return the year 2024, which is not below the current year. *)
Lemma annual_summary_includes_current_year :
  ~ Spec.excludes_year 2024
      [mkRow (Some (ymd2ord 2024 6 15)) None None (Some 65%Q) (Some 0.1%Q)].
Proof.
  intros [H _]. vm_compute in H. inversion H as [| ? ? (y & E & Hy) _]; subst.
  injection E as <-. discriminate Hy.
Qed.
End AnnualSummary.

(** ** The dataset loaders *)

Section Loaders.
Import Calendar SQL Frame Spec.
Local Open Scope string_scope.

Lemma append_empty_r (s : string) : s ++ "" = s.
Proof. induction s as [| c s IH]; simpl; [reflexivity | now rewrite IH]. Qed.

Lemma append_assoc (a b c : string) : (a ++ b) ++ c = a ++ (b ++ c).
Proof. induction a as [| x a IH]; simpl; [reflexivity | now rewrite IH]. Qed.

Lemma append_last_inv (t u : string) (c d : ascii) :
  t ++ String c "" = u ++ String d "" -> t = u /\ c = d.
Proof.
  revert u. induction t as [| x t IH]; intros [| y u] H; simpl in H.
  - injection H as ->. now split.
  - injection H as -> H. destruct u; discriminate H.
  - injection H as -> H. destruct t; discriminate H.
  - injection H as -> H. destruct (IH _ H) as [-> ->]. now split.
Qed.

Lemma lstrip_split (s : string) :
  exists pre, s = pre ++ lstrip s /\ all_space pre = true.
Proof.
  induction s as [| c s (pre & E & Hp)]; simpl.
  - now exists "".
  - destruct (is_space c) eqn:Ec.
    + exists (String c pre). simpl. rewrite Ec, Hp, <- E. now split.
    + now exists "".
Qed.

Lemma lstrip_head (s : string) (c : ascii) (t : string) :
  lstrip s = String c t -> is_space c = false.
Proof.
  induction s as [| x s IH]; simpl; [discriminate |].
  destruct (is_space x) eqn:Ex; [exact IH |].
  intros H. injection H as <- _. exact Ex.
Qed.

Lemma rstrip_split (s : string) :
  exists suf, s = rstrip s ++ suf /\ all_space suf = true.
Proof.
  induction s as [| c s (suf & E & Hs)]; simpl.
  - now exists "".
  - destruct (rstrip s) as [| y t] eqn:Er.
    + simpl in E. subst suf. destruct (is_space c) eqn:Ec.
      * exists (String c s). simpl. rewrite Ec, Hs. now split.
      * exists s. now split.
    + exists suf. simpl. split; [| exact Hs]. f_equal. exact E.
Qed.

Lemma rstrip_last (s t : string) (c : ascii) :
  rstrip s = t ++ String c "" -> is_space c = false.
Proof.
  revert t. induction s as [| x s IH]; intros t; simpl.
  - destruct t; discriminate.
  - destruct (rstrip s) as [| y u] eqn:Er.
    + destruct (is_space x) eqn:Ex.
      * destruct t; discriminate.
      * intros H. destruct t as [| z t]; simpl in H.
        -- injection H as <-. exact Ex.
        -- injection H as _ H. destruct t; discriminate H.
    + intros H. destruct t as [| z t]; simpl in H.
      * discriminate H.
      * injection H as _ H. exact (IH _ H).
Qed.

Lemma rstrip_head (c : ascii) (s : string) :
  is_space c = false -> exists u, rstrip (String c s) = String c u.
Proof.
  intros Hc. simpl. destruct (rstrip s).
  - rewrite Hc. now exists "".
  - eexists. reflexivity.
Qed.

(** [strip] trims: it removes a prefix and a suffix of whitespace and
    leaves no whitespace at either end. *)
Lemma strip_trimmed (s : string) : trimmed s (strip s).
Proof.
  unfold trimmed, strip. split.
  - destruct (lstrip_split s) as (pre & E1 & Hp).
    destruct (rstrip_split (lstrip s)) as (suf & E2 & Hs).
    exists pre, suf. split; [| now split].
    rewrite <- E2. exact E1.
  - split.
    + intros c t' H. destruct (lstrip s) as [| x u] eqn:El.
      * discriminate H.
      * pose proof (lstrip_head _ _ _ El) as Hx.
        destruct (rstrip_head x u Hx) as (v & Ev).
        rewrite Ev in H. injection H as <- _. exact Hx.
    + intros c t' H. eapply rstrip_last, H.
Qed.

Lemma date_ge_spec (d : option date) (bound : date) :
  date_ge d bound = true <-> exists x, d = Some x /\ bound <= x.
Proof.
  destruct d as [x |]; simpl.
  - rewrite Z.leb_le. split.
    + intros H. now exists x.
    + intros (y & E & H). now injection E as ->.
  - split; [discriminate | intros (y & E & _); discriminate E].
Qed.

(** Filtering on the date restricts: the rows on or after the bound, in
    order, unchanged. *)
Lemma filter_restricted (bound : date) (l : list Row) :
  restricted bound l (filter (fun r => date_ge (Date r) bound) l).
Proof.
  induction l as [| r l IH]; simpl; [constructor |].
  destruct (date_ge (Date r) bound) eqn:E.
  - apply restricted_keep; [now apply date_ge_spec | exact IH].
  - apply restricted_drop; [| exact IH].
    rewrite <- date_ge_spec, E. discriminate.
Qed.

(** The restriction of a table is unique. *)
Lemma restricted_unique (bound : date) (l k1 k2 : list Row) :
  restricted bound l k1 -> restricted bound l k2 -> k1 = k2.
Proof.
  intros H1. revert k2.
  induction H1 as [| r l k Hr _ IH | r l k Hr _ IH]; intros k2 H2;
    inversion H2; subst; try contradiction; try reflexivity.
  - f_equal. now apply IH.
  - now apply IH.
Qed.

Lemma load_data_normalized (csv : DataFrame) :
  normalized csv (Snapshot.load_data csv).
Proof.
  unfold normalized, Snapshot.load_data. simpl. split.
  - induction (columns csv) as [| c cs IH]; simpl; constructor;
      [apply strip_trimmed | exact IH].
  - apply filter_restricted.
Qed.

Lemma weather_df_dates (csv : DataFrame) :
  map Date (HolidayOutlook.weather_df csv)
  = map Date (rows (HolidayOutlook.load_data csv)).
Proof.
  unfold HolidayOutlook.weather_df. cbv zeta. rewrite !map_map. reflexivity.
Qed.

(** C9. The three pages' loaders are extensionally equal: on the same raw
    table each returns the same normalized dataset (labels trimmed of
    surrounding whitespace, rows restricted to dates on or after
    1949-01-01 and otherwise untouched), so every page works on the same
    sequence of daily records; the holiday page's later fill leaves that
    sequence of dates as it is. *)
Theorem loaders_agree (csv : DataFrame) :
  Snapshot.load_data csv = HolidayOutlook.load_data csv
  /\ HolidayOutlook.load_data csv = ClimateHistoryByDay.load_data csv
  /\ normalized csv (Snapshot.load_data csv)
  /\ (forall df, normalized csv df -> rows df = rows (Snapshot.load_data csv))
  /\ map Date (HolidayOutlook.weather_df csv) = map Date (Snapshot.weather csv).
Proof.
  split; [reflexivity |]. split; [reflexivity |].
  split; [apply load_data_normalized |]. split.
  - intros df [_ H]. eapply restricted_unique; [exact H |].
    apply load_data_normalized.
  - apply weather_df_dates.
Qed.
End Loaders.

(** ** Counting with rationals *)

Section CountFacts.
Import SQL.
Local Open Scope Q_scope.

Lemma Qcount_cons {A : Type} (x : A) (l : list A) :
  Qcount (x :: l) == 1 + Qcount l.
Proof.
  unfold Qcount. simpl List.length. rewrite Nat2Z.inj_succ, <- Z.add_1_l.
  rewrite inject_Z_plus. reflexivity.
Qed.

Lemma Qcount_nonneg {A : Type} (l : list A) : 0 <= Qcount l.
Proof.
  unfold Qcount. change 0 with (inject_Z 0). rewrite <- Zle_Qle. lia.
Qed.

Lemma Qcount_pos {A : Type} (l : list A) : l <> [] -> 0 < Qcount l.
Proof.
  intros H. unfold Qcount. change 0 with (inject_Z 0). rewrite <- Zlt_Qlt.
  destruct l; [contradiction | simpl; lia].
Qed.

Lemma non_null_map_Some {A B : Type} (f : A -> B) (l : list A) :
  non_null (map (fun x => Some (f x)) l) = map f l.
Proof. induction l as [| x t IH]; simpl; [reflexivity | now rewrite IH]. Qed.

(** Summing a 0/1 flag counts the rows that raise it. *)
Lemma Qsum_flags {A : Type} (p : A -> bool) (l : list A) :
  Qsum (map (fun x => if p x then 1 else 0) l) == Qcount (filter p l).
Proof.
  induction l as [| x t IH]; simpl; [reflexivity |].
  destruct (p x); rewrite IH.
  - now rewrite Qcount_cons.
  - apply Qplus_0_l.
Qed.

Lemma ROUND1_comp (x y : Q) : x == y -> ROUND1 x = ROUND1 y.
Proof.
  intros E. unfold ROUND1. rewrite (Qleb_comp 0 0 (Qeq_refl 0) x y E).
  destruct (Qle_bool 0 y).
  - rewrite (Qfloor_comp (x * 10 + 0.5) (y * 10 + 0.5)); [reflexivity |].
    now rewrite E.
  - rewrite (Qfloor_comp (- x * 10 + 0.5) (- y * 10 + 0.5)); [reflexivity |].
    now rewrite E.
Qed.
End CountFacts.

(** ** Climate history: chance of rain on a calendar day *)

Section ChanceOfRain.
Import Calendar SQL Frame ClimateHistoryByDay Spec.
Local Open Scope Q_scope.

Lemma summary_chance (matching : list Row) :
  Chance_of_Rain (summary matching)
  = match matching with
    | [] => None
    | _ => Some (ROUND1 (chance_over_all matching))
    end.
Proof.
  unfold summary, Chance_of_Rain, SUM. rewrite non_null_map_Some.
  destruct matching as [| r t] eqn:E; [reflexivity |].
  rewrite <- E. assert (Hne : matching <> []) by (rewrite E; discriminate).
  clear E. destruct (map rained matching) eqn:Em.
  - destruct matching; [contradiction | discriminate Em].
  - rewrite <- Em. simpl. f_equal. apply ROUND1_comp.
    unfold chance_over_all, count_rows, rained, COUNT.
    rewrite (Qsum_flags (fun r => gt (PRCP r) 0.01)).
    rewrite filter_true. unfold Qcount.
    assert (Hpos : ~ inject_Z (Z.of_nat (List.length matching)) == 0).
    { intros H. apply (Qlt_not_eq _ _ (Qcount_pos matching Hne)).
      symmetry. exact H. }
    field. exact Hpos.
Qed.

(** C4, as the code has it.  The chance-of-rain percentage of the
    per-calendar-day summary is 100 * (matching days with precipitation
    above 0.01) / (all the matching rows, a null precipitation included),
    rounded to one decimal; with no matching row it is null. *)
Theorem chance_of_rain_over_all_rows (month_num selected_day : Z)
    (weather : list Row) :
  Chance_of_Rain (summary (filtered_data month_num selected_day weather))
  = match filtered_data month_num selected_day weather with
    | [] => None
    | _ :: _ =>
        Some (ROUND1 (chance_over_all
                        (filtered_data month_num selected_day weather)))
    end.
Proof.
  rewrite summary_chance.
  destruct (filtered_data month_num selected_day weather); reflexivity.
Qed.

(** C4, as stated, fails: of two July 15ths, one with half an inch and one
    with no precipitation reading, the code reports 50 percent, where
    counting only the non-null readings gives 100. *)
Lemma chance_of_rain_counts_null_rows :
  let weather :=
    [mkRow (Some (ymd2ord 2000 7 15)) None None None (Some 0.5);
     mkRow (Some (ymd2ord 2001 7 15)) None None None None] in
  let matching := filtered_data 7 15 weather in
  chance_over_non_null matching == 100
  /\ (exists q, Chance_of_Rain (summary matching) = Some q /\ q == 50)
  /\ ~ (exists q, Chance_of_Rain (summary matching) = Some q
                  /\ q == chance_over_non_null matching).
Proof.
  cbv zeta. split; [reflexivity |]. split.
  - eexists. split; [vm_compute; reflexivity | reflexivity].
  - intros (q & E & H). vm_compute in E. injection E as <-.
    vm_compute in H. discriminate H.
Qed.
End ChanceOfRain.

(** ** Holiday outlook: the fill and the chance of rain *)

Section Forall2Facts.
Import SQL.
Context {A B : Type} (R : A -> B -> Prop).

Lemma Forall2_filter (p : A -> bool) (q : B -> bool) (l : list A) (l' : list B) :
  (forall a b, R a b -> p a = q b) ->
  Forall2 R l l' -> Forall2 R (filter p l) (filter q l').
Proof.
  intros Hpq H. induction H as [| a b l l' Hab _ IH]; simpl; [constructor |].
  rewrite (Hpq a b Hab). destruct (q b); [constructor |]; assumption.
Qed.

Lemma Forall2_insert (leb : A -> A -> bool) (leb' : B -> B -> bool)
    (a : A) (b : B) (l : list A) (l' : list B) :
  (forall x y x' y', R x x' -> R y y' -> leb x y = leb' x' y') ->
  R a b -> Forall2 R l l' -> Forall2 R (insert leb a l) (insert leb' b l').
Proof.
  intros Hleb Hab H. induction H as [| x y l l' Hxy H IH]; simpl.
  - repeat constructor. exact Hab.
  - rewrite (Hleb a x b y Hab Hxy). destruct (leb' b y).
    + repeat constructor; assumption.
    + constructor; assumption.
Qed.

Lemma Forall2_sort (leb : A -> A -> bool) (leb' : B -> B -> bool)
    (l : list A) (l' : list B) :
  (forall x y x' y', R x x' -> R y y' -> leb x y = leb' x' y') ->
  Forall2 R l l' -> Forall2 R (sort leb l) (sort leb' l').
Proof.
  intros Hleb H. induction H as [| a b l l' Hab _ IH]; simpl; [constructor |].
  now apply Forall2_insert.
Qed.

Lemma Forall2_map_eq {C : Type} (f : A -> C) (g : B -> C)
    (l : list A) (l' : list B) :
  (forall a b, R a b -> f a = g b) -> Forall2 R l l' -> map f l = map g l'.
Proof.
  intros Hfg H. induction H as [| a b l l' Hab _ IH]; simpl; [reflexivity |].
  now rewrite (Hfg a b Hab), IH.
Qed.
End Forall2Facts.

Lemma Forall2_map_both {A B C D : Type} (R : A -> B -> Prop) (S : C -> D -> Prop)
    (f : A -> C) (g : B -> D) (l : list A) (l' : list B) :
  (forall a b, R a b -> S (f a) (g b)) ->
  Forall2 R l l' -> Forall2 S (map f l) (map g l').
Proof.
  intros Hfg H. induction H as [| a b l l' Hab _ IH]; simpl; constructor; auto.
Qed.

Section HolidayChance.
Import Calendar SQL Frame HolidayOutlook Spec.
Local Open Scope Q_scope.

Lemma weather_df_filled (csv : DataFrame) :
  Forall2 filled (rows (load_data csv)) (weather_df csv).
Proof.
  unfold weather_df. cbv zeta. rewrite map_map.
  induction (rows (load_data csv)) as [| r l IH]; simpl; constructor;
    [| exact IH].
  unfold filled, fillna. simpl. repeat split.
Qed.

Lemma select_filled (name : string) (p q : Row -> bool) (l l' : list Row) :
  (forall r r', filled r r' -> p r = q r') ->
  Forall2 filled l l' ->
  Forall2 filled_holiday (map (select_row name) (filter p l))
                         (map (select_row name) (filter q l')).
Proof.
  intros Hpq H.
  apply Forall2_map_both with (R := filled); [| now apply Forall2_filter].
  intros r r' (Hd & Hmin & Havg & Hmax & Hp).
  unfold filled_holiday, select_row. simpl. repeat split; assumption.
Qed.

Lemma all_holidays_filled (variable_holidays : list (string * list string))
    (l l' : list Row) :
  Forall2 filled l l' ->
  Forall2 filled_holiday (all_holidays_df variable_holidays l)
                         (all_holidays_df variable_holidays l').
Proof.
  intros H. unfold all_holidays_df. apply Forall2_app.
  - unfold fixed_holiday_rows.
    induction holiday_names as [| [name [month day]] t IH]; simpl;
      [constructor |].
    apply Forall2_app; [| exact IH]. apply select_filled; [| exact H].
    intros r r' (Hd & _). unfold on_month_day. now rewrite Hd.
  - unfold variable_holiday_rows.
    induction variable_holidays as [| [name dates] t IH]; simpl;
      [constructor |].
    apply Forall2_app; [| exact IH]. apply select_filled; [| exact H].
    intros r r' (Hd & _). unfold date_in. now rewrite Hd.
Qed.

Lemma holiday_df_filled (a b : list holiday_row) (holiday : string) :
  Forall2 filled_holiday a b ->
  Forall2 filled_holiday (holiday_df a holiday) (holiday_df b holiday).
Proof.
  intros H. unfold holiday_df. apply Forall2_sort.
  - intros x y x' y' (Hx & _) (Hy & _). unfold h_Year. now rewrite Hx, Hy.
  - apply Forall2_filter; [| exact H].
    intros r r' (_ & Hn & _). now rewrite Hn.
Qed.

(** A filled precipitation is above 0 exactly when the loaded one is
    present and above 0. *)
Lemma filled_wet (r r' : holiday_row) :
  filled_holiday r r' -> gt (h_PRCP r) 0 = gt (h_PRCP r') 0.
Proof.
  intros (_ & _ & _ & _ & _ & Hp). rewrite Hp.
  destruct (h_PRCP r); reflexivity.
Qed.

Lemma filter_id_map {A : Type} (p : A -> bool) (l : list A) :
  List.length (filter (fun b => b) (map p l)) = List.length (filter p l).
Proof.
  induction l as [| x t IH]; simpl; [reflexivity |].
  destruct (p x); simpl; now rewrite IH.
Qed.

Lemma precip_chance_value (days : list holiday_row) :
  match days with
  | [] => precip_chance days = None
  | _ :: _ => exists q, precip_chance days = Some q /\ q == holiday_chance days
  end.
Proof.
  destruct days as [| r t] eqn:E; [reflexivity |]. rewrite <- E.
  assert (Hne : days <> []) by (rewrite E; discriminate). clear E.
  unfold precip_chance, mean_bool.
  destruct (map (fun r => gt (h_PRCP r) 0) days) eqn:Em.
  - destruct days; [contradiction | discriminate Em].
  - rewrite <- Em. simpl. eexists. split; [reflexivity |].
    unfold holiday_chance, Qcount. rewrite filter_id_map, length_map.
    assert (Hpos : ~ inject_Z (Z.of_nat (List.length days)) == 0).
    { intros H. apply (Qlt_not_eq _ _ (Qcount_pos days Hne)).
      symmetry. exact H. }
    field. exact Hpos.
Qed.

Lemma precip_chance_filled (matching days : list holiday_row) :
  Forall2 filled_holiday matching days ->
  precip_chance days = precip_chance matching.
Proof.
  intros H. unfold precip_chance. do 2 f_equal. symmetry.
  apply Forall2_map_eq with (R := filled_holiday); [| exact H].
  apply filled_wet.
Qed.

(** C10. On the holiday page every null maximum temperature is replaced by
    the row's average temperature and every null precipitation by 0 before
    any query runs; so the chance of rain of a holiday is
    100 * (matching days with precipitation above 0) / (all the matching
    days), a day whose precipitation was null being one of the dry days of
    the denominator. *)
Theorem holiday_fill_then_chance_of_rain (csv : DataFrame)
    (variable_holidays : list (string * list string)) (holiday : string) :
  let loaded := rows (load_data csv) in
  let matching := holiday_df (all_holidays_df variable_holidays loaded) holiday in
  let days :=
    holiday_df (all_holidays_df variable_holidays (weather_df csv)) holiday in
  Forall2 filled loaded (weather_df csv)
  /\ Forall2 filled_holiday matching days
  /\ match matching with
     | [] => precip_chance days = None
     | _ :: _ =>
         exists q, precip_chance days = Some q /\ q == holiday_chance matching
     end.
Proof.
  intros loaded matching days.
  assert (Hf : Forall2 filled_holiday matching days).
  { apply holiday_df_filled, all_holidays_filled, weather_df_filled. }
  split; [apply weather_df_filled |]. split; [exact Hf |].
  rewrite (precip_chance_filled matching days Hf).
  apply precip_chance_value.
Qed.
End HolidayChance.

(** ** Snapshot: the monthly climatology *)

Section AggregateFacts.
Import SQL.
Local Open Scope Q_scope.

Lemma Qmin2_le_l (a b : Q) : Qmin2 a b <= a.
Proof.
  unfold Qmin2. destruct (Qle_bool a b) eqn:E; [apply Qle_refl |].
  apply Qle_bool_iff, Qle_bool_total, E.
Qed.

Lemma Qmin2_le_r (a b : Q) : Qmin2 a b <= b.
Proof.
  unfold Qmin2. destruct (Qle_bool a b) eqn:E; [| apply Qle_refl].
  now apply Qle_bool_iff.
Qed.

Lemma Qmax2_ge_l (a b : Q) : a <= Qmax2 a b.
Proof.
  unfold Qmax2. destruct (Qle_bool a b) eqn:E; [| apply Qle_refl].
  now apply Qle_bool_iff.
Qed.

Lemma Qmax2_ge_r (a b : Q) : b <= Qmax2 a b.
Proof.
  unfold Qmax2. destruct (Qle_bool a b) eqn:E; [apply Qle_refl |].
  apply Qle_bool_iff, Qle_bool_total, E.
Qed.

Lemma fold_min_lower (vs : list Q) (v : Q) :
  forall x, In x (v :: vs) -> fold_left Qmin2 vs v <= x.
Proof.
  revert v. induction vs as [| y t IH]; intros v x Hx; simpl.
  - destruct Hx as [<- | []]. apply Qle_refl.
  - destruct Hx as [<- | [<- | Hx]].
    + eapply Qle_trans; [apply IH; now left | apply Qmin2_le_l].
    + eapply Qle_trans; [apply IH; now left | apply Qmin2_le_r].
    + apply IH. now right.
Qed.

Lemma fold_max_upper (vs : list Q) (v : Q) :
  forall x, In x (v :: vs) -> x <= fold_left Qmax2 vs v.
Proof.
  revert v. induction vs as [| y t IH]; intros v x Hx; simpl.
  - destruct Hx as [<- | []]. apply Qle_refl.
  - destruct Hx as [<- | [<- | Hx]].
    + eapply Qle_trans; [apply Qmax2_ge_l | apply IH; now left].
    + eapply Qle_trans; [apply Qmax2_ge_r | apply IH; now left].
    + apply IH. now right.
Qed.

Lemma in_non_null {A : Type} (x : A) (l : list (option A)) :
  In x (non_null l) <-> In (Some x) l.
Proof.
  unfold non_null. rewrite in_flat_map. split.
  - intros ([v |] & Hin & Hx); [| destruct Hx].
    destruct Hx as [<- | []]. exact Hin.
  - intros H. exists (Some x). split; [exact H | now left].
Qed.

Lemma fold_Qmax_in (vs : list Q) (v : Q) : In (fold_left Qmax2 vs v) (v :: vs).
Proof.
  revert v. induction vs as [| y t IH]; intros v; simpl; [now left |].
  destruct (IH (Qmax2 v y)) as [E | Hin]; [| now right; right].
  rewrite <- E. unfold Qmax2. destruct (Qle_bool v y); auto.
Qed.

Lemma fold_Qmin_in (vs : list Q) (v : Q) : In (fold_left Qmin2 vs v) (v :: vs).
Proof.
  revert v. induction vs as [| y t IH]; intros v; simpl; [now left |].
  destruct (IH (Qmin2 v y)) as [E | Hin]; [| now right; right].
  rewrite <- E. unfold Qmin2. destruct (Qle_bool v y); auto.
Qed.

(** The greatest value of a column is one of its values and bounds them
    all; it is null exactly when the column has no value. *)
Lemma MAX_attained (l : list (option Q)) :
  match MAX l with
  | Some m => In (Some m) l /\ forall v, In (Some v) l -> v <= m
  | None => forall v, ~ In (Some v) l
  end.
Proof.
  unfold MAX. destruct (non_null l) as [| v0 vs] eqn:E.
  - intros v Hv. apply in_non_null in Hv. rewrite E in Hv. exact Hv.
  - split.
    + apply in_non_null. rewrite E. apply fold_Qmax_in.
    + intros v Hv. apply fold_max_upper. rewrite <- E. now apply in_non_null.
Qed.

Lemma MIN_attained (l : list (option Q)) :
  match MIN l with
  | Some m => In (Some m) l /\ forall v, In (Some v) l -> m <= v
  | None => forall v, ~ In (Some v) l
  end.
Proof.
  unfold MIN. destruct (non_null l) as [| v0 vs] eqn:E.
  - intros v Hv. apply in_non_null in Hv. rewrite E in Hv. exact Hv.
  - split.
    + apply in_non_null. rewrite E. apply fold_Qmin_in.
    + intros v Hv. apply fold_min_lower. rewrite <- E. now apply in_non_null.
Qed.
End AggregateFacts.

Section KeyOrder.
Import SQL.
Context {A : Type}.

Lemma sort_map {B : Type} (f : A -> B) (leb : B -> B -> bool) (l : list A) :
  map f (sort (fun a b => leb (f a) (f b)) l) = sort leb (map f l).
Proof.
  induction l as [| x t IH]; simpl; [reflexivity |].
  rewrite <- IH. generalize (sort (fun a b => leb (f a) (f b)) t).
  intros s. induction s as [| y s IHs]; simpl; [reflexivity |].
  destruct (leb (f x) (f y)); simpl; [reflexivity | now rewrite IHs].
Qed.

(** Two lists sorted along a strict order with the same elements are the
    same list. *)
Lemma strict_sorted_ext (R : A -> A -> Prop) (l1 l2 : list A) :
  (forall a b, R a b -> R b a -> False) ->
  StronglySorted R l1 -> StronglySorted R l2 ->
  (forall x, In x l1 <-> In x l2) -> l1 = l2.
Proof.
  intros Hasym H1. revert l2.
  induction H1 as [| x t Hs IH Hx]; intros l2 H2 Hin.
  - destruct l2 as [| y u]; [reflexivity |].
    destruct (proj2 (Hin y) (or_introl eq_refl)).
  - destruct H2 as [| y u Hu Hy].
    + destruct (proj1 (Hin x) (or_introl eq_refl)).
    + rewrite Forall_forall in Hx, Hy.
      assert (E : x = y).
      { destruct (proj1 (Hin x) (or_introl eq_refl)) as [E | Hxu]; [now symmetry |].
        destruct (proj2 (Hin y) (or_introl eq_refl)) as [E | Hyt]; [exact E |].
        destruct (Hasym x y (Hx y Hyt) (Hy x Hxu)). }
      subst y. f_equal. apply IH; [exact Hu |].
      intros z. split; intros Hz.
      * destruct (proj1 (Hin z) (or_intror Hz)) as [E | Hzu]; [| exact Hzu].
        subst z. destruct (Hasym x x (Hx x Hz) (Hx x Hz)).
      * destruct (proj2 (Hin z) (or_intror Hz)) as [E | Hzt]; [| exact Hzt].
        subst z. destruct (Hasym x x (Hy x Hz) (Hy x Hz)).
Qed.

Lemma sorted_NoDup_strict (R : A -> A -> Prop) (l : list A) :
  StronglySorted R l -> NoDup l ->
  StronglySorted (fun a b => R a b /\ a <> b) l.
Proof.
  induction 1 as [| x t Hs IH Hx]; intros Hn; [constructor |].
  inversion Hn as [| ? ? Hnx Hnt]; subst. constructor; [now apply IH |].
  rewrite Forall_forall in *. intros y Hy. split; [now apply Hx |].
  intros ->. contradiction.
Qed.
End KeyOrder.

Section MonthlyClimatology.
Import Calendar SQL Frame Snapshot Spec.
Local Open Scope Q_scope.

Lemma filter_filter {A : Type} (p q : A -> bool) (l : list A) :
  filter p (filter q l) = filter (fun x => p x && q x) l.
Proof.
  induction l as [| x t IH]; simpl; [reflexivity |].
  destruct (q x); simpl; [destruct (p x); simpl; now rewrite IH |].
  rewrite andb_false_r. exact IH.
Qed.

Lemma map_fst_group_by {A K : Type} (eqb : K -> K -> bool) (key : A -> K)
    (l : list A) :
  map fst (group_by eqb key l) = distinct eqb (map key l).
Proof. unfold group_by. rewrite map_map. simpl. apply map_id. Qed.

Lemma non_null_present (f : Row -> option Q) (rows : list Row) :
  rows <> [] -> (forall r, In r rows -> is_not_null (f r) = true) ->
  non_null (map f rows) <> [].
Proof.
  destruct rows as [| r t]; [contradiction |]. intros _ H. simpl.
  specialize (H r (or_introl eq_refl)).
  destruct (f r); [discriminate | discriminate H].
Qed.

(** Month by month the lows sum to no more than the highs when every row
    has its low at or below its high. *)
Lemma lows_highs_sums (rows : list Row) :
  (forall r, In r rows ->
             exists lo hi, TMIN r = Some lo /\ TMAX r = Some hi /\ lo <= hi) ->
  exists lows highs,
    non_null (map TMIN rows) = lows /\ non_null (map TMAX rows) = highs
    /\ List.length lows = List.length rows
    /\ List.length highs = List.length rows
    /\ Qsum lows <= Qsum highs.
Proof.
  induction rows as [| r t IH]; intros H.
  - exists [], []. simpl. repeat split. apply Qle_refl.
  - destruct (H r (or_introl eq_refl)) as (lo & hi & Elo & Ehi & Hle).
    destruct IH as (lows & highs & El & Eh & Ll & Lh & Hs).
    { intros x Hx. apply H. now right. }
    exists (lo :: lows), (hi :: highs). simpl. rewrite Elo, Ehi. simpl.
    rewrite El, Eh, Ll, Lh. repeat split. now apply Qplus_le_compat.
Qed.

Lemma AVG_low_le_high (rows : list Row) :
  rows <> [] ->
  (forall r, In r rows ->
             exists lo hi, TMIN r = Some lo /\ TMAX r = Some hi /\ lo <= hi) ->
  exists b c, AVG (map TMIN rows) = Some b /\ AVG (map TMAX rows) = Some c
              /\ b <= c.
Proof.
  intros Hne H.
  destruct (lows_highs_sums rows H) as (lows & highs & El & Eh & Ll & Lh & Hs).
  unfold AVG. rewrite El, Eh.
  destruct lows as [| lo lows'] eqn:Elows.
  { destruct rows; [contradiction | discriminate Ll]. }
  destruct highs as [| hi highs'] eqn:Ehighs.
  { destruct rows; [contradiction | discriminate Lh]. }
  do 2 eexists. split; [reflexivity |]. split; [reflexivity |].
  unfold Qcount. rewrite Ll, Lh. unfold Qdiv.
  apply Qmult_le_compat_r; [exact Hs |].
  apply Qinv_le_0_compat. change 0 with (inject_Z 0). rewrite <- Zle_Qle. lia.
Qed.

Lemma month_key_order_asym (a b : option Z) :
  (asc_leb Z.leb a b = true /\ a <> b) ->
  (asc_leb Z.leb b a = true /\ b <> a) -> False.
Proof.
  intros [H1 N1] [H2 _]. apply N1.
  destruct a as [x |], b as [y |]; simpl in *; try discriminate; [| reflexivity].
  apply Z.leb_le in H1, H2. f_equal. lia.
Qed.

Lemma calendar_months_sorted :
  StronglySorted (fun a b => asc_leb Z.leb a b = true /\ a <> b) calendar_months.
Proof.
  unfold calendar_months. simpl.
  repeat (apply SSorted_cons || apply SSorted_nil || apply Forall_cons
          || apply Forall_nil || (split; [reflexivity | discriminate])).
Qed.

Lemma in_calendar_months (k : option Z) :
  In k calendar_months <-> exists m, k = Some m /\ (1 <= m <= 12)%Z.
Proof.
  unfold calendar_months. split.
  - intros H. apply in_map_iff in H as (m & <- & Hm). exists m.
    split; [reflexivity |]. simpl in Hm. lia.
  - intros (m & -> & Hm). apply in_map. simpl. lia.
Qed.

(** The rows the monthly query aggregates. *)
Lemma selected_row (csv : DataFrame) (r : Row) :
  In r (filter (fun r => is_not_null (TMIN r) && is_not_null (TMAX r))
          (weather csv)) ->
  (exists d, Date r = Some d) /\ is_not_null (TMIN r) = true
  /\ is_not_null (TMAX r) = true.
Proof.
  intros H. apply filter_In in H as [Hin Hnn].
  apply andb_true_iff in Hnn as [Hlo Hhi].
  unfold weather, load_data in Hin. simpl in Hin.
  apply filter_In in Hin as [_ Hd]. apply date_ge_spec in Hd as (d & Ed & _).
  split; [now exists d | now split].
Qed.

Lemma monthly_months (csv : DataFrame) :
  covers_all_months (weather csv) = true ->
  map mt_Month (monthly_temp_combined (weather csv)) = calendar_months.
Proof.
  intros Hcov. unfold monthly_temp_combined. cbv zeta.
  rewrite (sort_map mt_Month (asc_leb Z.leb)), map_map. simpl.
  change (map (fun x => fst x)) with (@map (option Z * list Row) _ fst).
  rewrite map_fst_group_by.
  set (selected := filter (fun r => is_not_null (TMIN r) && is_not_null (TMAX r))
                     (weather csv)).
  set (keys := distinct (opt_eqb Z.eqb)
                 (map (fun r => EXTRACT month_of (Date r)) selected)).
  apply strict_sorted_ext
    with (R := fun a b => asc_leb Z.leb a b = true /\ a <> b).
  - exact month_key_order_asym.
  - apply sorted_NoDup_strict.
    + apply (sort_sorted (asc_leb Z.leb)).
      * apply asc_leb_total. intros a b H. apply Z.leb_le.
        apply Z.leb_gt in H. lia.
      * apply asc_leb_trans. intros a b c H1 H2.
        apply Z.leb_le in H1, H2. apply Z.leb_le. lia.
    + eapply Permutation_NoDup; [apply sort_perm |].
      apply NoDup_distinct, opt_Z_eqb_spec.
  - exact calendar_months_sorted.
  - intros k. rewrite in_sort. unfold keys.
    rewrite (in_distinct _ opt_Z_eqb_spec), in_calendar_months, in_map_iff.
    split.
    + intros (r & <- & Hr). apply selected_row in Hr as ((d & Ed) & _).
      rewrite Ed. exists (month_of d). split; [reflexivity |].
      apply month_of_range.
    + intros (m & -> & Hm). unfold covers_all_months in Hcov.
      rewrite forallb_forall in Hcov.
      assert (Hin : In m [1; 2; 3; 4; 5; 6; 7; 8; 9; 10; 11; 12]%Z)
        by (simpl; lia).
      specialize (Hcov m Hin). apply existsb_exists in Hcov as (r & Hr & Hp).
      apply andb_true_iff in Hp as [Hp Hhi].
      apply andb_true_iff in Hp as [Hmo Hlo].
      apply opt_Z_eqb_spec in Hmo. exists r. split; [exact Hmo |].
      unfold selected. apply filter_In. split; [exact Hr |].
      now rewrite Hlo, Hhi.
Qed.

(** Every row of the monthly result comes from a group that holds a row,
    all of its rows with both temperatures present. *)
Lemma monthly_row_group (csv : DataFrame) (row : monthly_temp_row) :
  In row (monthly_temp_combined (weather csv)) ->
  exists rows,
    rows <> []
    /\ (forall r, In r rows ->
                  In r (weather csv) /\ is_not_null (TMIN r) = true
                  /\ is_not_null (TMAX r) = true)
    /\ AvgLow row = AVG (map TMIN rows) /\ AvgHigh row = AVG (map TMAX rows)
    /\ MinLow row = MIN (map TMIN rows) /\ MaxHigh row = MAX (map TMAX rows).
Proof.
  intros H. unfold monthly_temp_combined in H. cbv zeta in H.
  apply in_sort, in_map_iff in H. destruct H as (g & <- & Hg).
  apply (group_rows _ opt_Z_eqb_spec) in Hg as [Hne Hall].
  exists (snd g). split; [exact Hne |]. simpl. split; [| repeat split].
  intros r Hr. rewrite Forall_forall in Hall. destruct (Hall r Hr) as [Hin _].
  apply filter_In in Hin as [Hin Hnn].
  apply andb_true_iff in Hnn as [Hlo Hhi]. now repeat split.
Qed.

(** The rows a monthly row aggregates: the rows of its month with both
    temperatures present, of which there is one at least. *)
Lemma monthly_row_month (csv : DataFrame) (row : monthly_temp_row) :
  In row (monthly_temp_combined (weather csv)) ->
  exists rows,
    rows = filter (fun r => opt_eqb Z.eqb (Month r) (mt_Month row)
                            && (is_not_null (TMIN r) && is_not_null (TMAX r)))
             (weather csv)
    /\ rows <> []
    /\ MinLow row = MIN (map TMIN rows) /\ MaxHigh row = MAX (map TMAX rows).
Proof.
  intros H. unfold monthly_temp_combined in H. cbv zeta in H.
  apply in_sort, in_map_iff in H. destruct H as (g & <- & Hg).
  pose proof (group_rows _ opt_Z_eqb_spec _ _ _ Hg) as [Hne _].
  apply (in_group_by _ opt_Z_eqb_spec) in Hg as [_ Hrows].
  exists (snd g). simpl. split; [| now repeat split].
  rewrite Hrows. apply filter_filter.
Qed.

Lemma monthly_extremes (csv : DataFrame) (row : monthly_temp_row) :
  In row (monthly_temp_combined (weather csv)) ->
  extremes_of_month (weather csv) row.
Proof.
  intros Hrow.
  destruct (monthly_row_month csv row Hrow) as (rows & Erows & Hne & Eml & Emh).
  assert (Hin : forall x, In x rows <->
                  In x (weather csv) /\ Month x = mt_Month row
                  /\ TMIN x <> None /\ TMAX x <> None).
  { intros x. rewrite Erows, filter_In, !andb_true_iff, opt_Z_eqb_spec.
    unfold is_not_null, is_null.
    destruct (TMIN x), (TMAX x); simpl; intuition congruence. }
  pose proof (MIN_attained (map TMIN rows)) as Hmin.
  pose proof (MAX_attained (map TMAX rows)) as Hmax.
  unfold extremes_of_month. rewrite Eml, Emh.
  destruct rows as [| r0 rest] eqn:Er; [contradiction |]. rewrite <- Er in *.
  assert (Hr0 : In r0 rows) by (rewrite Er; now left).
  pose proof (proj1 (Hin r0) Hr0) as (_ & _ & Hlo0 & Hhi0).
  destruct (MIN (map TMIN rows)) as [a |];
    [| exfalso; destruct (TMIN r0) as [v |] eqn:E; [| contradiction];
       apply (Hmin v); rewrite <- E; now apply in_map].
  destruct (MAX (map TMAX rows)) as [d |];
    [| exfalso; destruct (TMAX r0) as [v |] eqn:E; [| contradiction];
       apply (Hmax v); rewrite <- E; now apply in_map].
  destruct Hmin as [Hamin Hlb]. destruct Hmax as [Hdmax Hub].
  exists a, d. split; [reflexivity |]. split; [reflexivity |].
  split; [| split].
  - apply in_map_iff in Hamin as (x & Ex & Hx). exists x.
    apply Hin in Hx as (Hw & Hm & _ & Hhi). now repeat split.
  - apply in_map_iff in Hdmax as (x & Ex & Hx). exists x.
    apply Hin in Hx as (Hw & Hm & Hlo & _). now repeat split.
  - intros x lo hi Hw Hm Elo Ehi.
    assert (Hx : In x rows).
    { apply Hin. rewrite Elo, Ehi. repeat split; auto; discriminate. }
    split.
    + apply Hlb. rewrite <- Elo. now apply in_map.
    + apply Hub. rewrite <- Ehi. now apply in_map.
Qed.

(** C6, as the code has it.  When every calendar month has a row with both
    temperatures present, the monthly climatology has exactly one row per
    month, in the order 1 to 12; in each row MinLow is the least low and
    MaxHigh the greatest high of the month's rows; and when every such row
    of the table has its low at or below its high, AvgLow <= AvgHigh and
    MinLow <= MaxHigh in every row.  The averages are not ordered against
    the extremes: the engine's mean of doubles can leave the range of its
    readings by a rounding error. *)
Theorem monthly_climatology_rows (csv : DataFrame) :
  covers_all_months (weather csv) = true ->
  map mt_Month (monthly_temp_combined (weather csv)) = calendar_months
  /\ Forall (extremes_of_month (weather csv))
            (monthly_temp_combined (weather csv))
  /\ (lows_below_highs (weather csv) = true ->
      Forall (fun row => avgs_ordered row /\ low_high_ordered row)
             (monthly_temp_combined (weather csv))).
Proof.
  intros Hcov. split; [now apply monthly_months |].
  assert (Hext : Forall (extremes_of_month (weather csv))
                   (monthly_temp_combined (weather csv))).
  { rewrite Forall_forall. intros row Hrow. now apply monthly_extremes. }
  split; [exact Hext |].
  intros Hlh. rewrite Forall_forall in *. intros row Hrow.
  unfold lows_below_highs in Hlh. rewrite forallb_forall in Hlh.
  split.
  - destruct (monthly_row_group csv row Hrow)
      as (rows & Hne & Hall & Eal & Eah & _).
    unfold avgs_ordered. rewrite Eal, Eah. apply AVG_low_le_high; [exact Hne |].
    intros r Hr. destruct (Hall r Hr) as (Hin & Hlo' & Hhi').
    specialize (Hlh r Hin).
    destruct (TMIN r) as [lo |]; [| discriminate Hlo'].
    destruct (TMAX r) as [hi |]; [| discriminate Hhi'].
    exists lo, hi. repeat split. now apply Qle_bool_iff.
  - destruct (Hext row Hrow)
      as (a & d & Ea & Ed & (x & Hx & Hm & Elo & Hhi) & _ & Hb).
    exists a, d. split; [exact Ea |]. split; [exact Ed |].
    destruct (TMAX x) as [hi |] eqn:Ehi; [| contradiction].
    specialize (Hlh x Hx). rewrite Elo, Ehi in Hlh.
    apply Qle_bool_iff in Hlh.
    destruct (Hb x a hi Hx Hm Elo Ehi) as [_ Hd].
    now apply Qle_trans with hi.
Qed.
End MonthlyClimatology.

(** ** Holiday outlook: the floating holidays *)

Section FloatingHolidays.
Import Calendar SQL Frame HolidayOutlook Spec.

Lemma ymd2ord_day (y m d : Z) : ymd2ord y m d = ymd2ord y m 1 + (d - 1).
Proof. unfold ymd2ord. lia. Qed.

(** The days of a month are the ordinals from its first day to its last. *)
Lemma in_month_range (y m : Z) (d : date) :
  1 <= m <= 12 ->
  in_month y m d <-> ymd2ord y m 1 <= d <= ymd2ord y m (days_in_month y m).
Proof.
  intros Hm. unfold in_month, year_of, month_of. split.
  - intros [Hy Hmo]. pose proof (ord2ymd_sound d) as H.
    destruct (ord2ymd d) as [[y' m'] dd]. simpl in Hy, Hmo. subst y' m'.
    destruct H as (E & _ & Hd). rewrite <- E.
    rewrite (ymd2ord_day y m dd), (ymd2ord_day y m (days_in_month y m)). lia.
  - intros Hd.
    replace d with (ymd2ord y m (d - ymd2ord y m 1 + 1))
      by (rewrite ymd2ord_day; lia).
    rewrite ord2ymd_ymd2ord; [now split | exact Hm |].
    rewrite (ymd2ord_day y m (days_in_month y m)) in Hd. lia.
Qed.

Lemma in_date_range (a b d : date) : In d (date_range a b) <-> a <= d <= b.
Proof.
  unfold date_range. rewrite in_map_iff. split.
  - intros (i & <- & Hi). apply in_seq in Hi. lia.
  - intros H. exists (Z.to_nat (d - a)). split; [lia |]. apply in_seq. lia.
Qed.

(** Any seven consecutive days hold each day of the week. *)
Lemma weekday_in_week (a w : Z) :
  0 <= w < 7 ->
  let d := a + (w - dayofweek a) mod 7 in
  a <= d <= a + 6 /\ dayofweek d = w.
Proof.
  intros Hw d. unfold d, dayofweek. Z.div_mod_to_equations. lia.
Qed.

Lemma fold_max_spec (l : list Z) (d : Z) :
  In (fold_left Z.max l d) (d :: l)
  /\ forall x, In x (d :: l) -> x <= fold_left Z.max l d.
Proof.
  revert d. induction l as [| y t IH]; intros d; simpl.
  - split; [now left |]. intros x [<- | []]. lia.
  - destruct (IH (Z.max d y)) as [Hin Hub]. split.
    + destruct Hin as [E | Hin]; [| now right; right].
      rewrite <- E. destruct (Z.max_spec d y) as [[_ ->] | [_ ->]]; auto.
    + intros x [<- | [<- | Hx]].
      * specialize (Hub (Z.max d y) (or_introl eq_refl)). lia.
      * specialize (Hub (Z.max d y) (or_introl eq_refl)). lia.
      * apply Hub. now right.
Qed.

Lemma fold_min_spec (l : list Z) (d : Z) :
  In (fold_left Z.min l d) (d :: l)
  /\ forall x, In x (d :: l) -> fold_left Z.min l d <= x.
Proof.
  revert d. induction l as [| y t IH]; intros d; simpl.
  - split; [now left |]. intros x [<- | []]. lia.
  - destruct (IH (Z.min d y)) as [Hin Hlb]. split.
    + destruct Hin as [E | Hin]; [| now right; right].
      rewrite <- E. destruct (Z.min_spec d y) as [[_ ->] | [_ ->]]; auto.
    + intros x [<- | [<- | Hx]].
      * specialize (Hlb (Z.min d y) (or_introl eq_refl)). lia.
      * specialize (Hlb (Z.min d y) (or_introl eq_refl)). lia.
      * apply Hlb. now right.
Qed.

Lemma max_date_spec (l : list date) (x : date) :
  In x l ->
  exists m, max_date l = Some m /\ In m l /\ forall d, In d l -> d <= m.
Proof.
  destruct l as [| d t]; [intros [] |]. intros _. simpl.
  eexists. split; [reflexivity |]. apply fold_max_spec.
Qed.

Lemma min_date_spec (l : list date) (x : date) :
  In x l ->
  exists m, min_date l = Some m /\ In m l /\ forall d, In d l -> m <= d.
Proof.
  destruct l as [| d t]; [intros [] |]. intros _. simpl.
  eexists. split; [reflexivity |]. apply fold_min_spec.
Qed.

Lemma in_weekdays (w a b d : Z) :
  In d (filter (fun x => dayofweek x =? w) (date_range a b))
  <-> a <= d <= b /\ dayofweek d = w.
Proof. rewrite filter_In, in_date_range, Z.eqb_eq. tauto. Qed.

(** The latest Monday between May 1 and May 31 is the last Monday of May. *)
Lemma memorial_found (year : Z) :
  exists d,
    max_date (filter (fun x => dayofweek x =? 0)
                (date_range (ymd2ord year 5 1) (ymd2ord year 5 31)))
    = Some d /\ memorial_day year d.
Proof.
  set (a := ymd2ord year 5 1).
  assert (Eb : ymd2ord year 5 31 = a + 30) by (unfold a, ymd2ord; lia).
  assert (Hmonth : forall d, in_month year 5 d <-> a <= d <= a + 30).
  { intros d. rewrite in_month_range by lia. fold a.
    change (days_in_month year 5) with 31. rewrite Eb. tauto. }
  destruct (weekday_in_week a 0 ltac:(lia)) as [Hr Hw].
  destruct (max_date_spec
              (filter (fun x => dayofweek x =? 0) (date_range a (ymd2ord year 5 31)))
              (a + (0 - dayofweek a) mod 7)) as (m & Em & Hin & Hmax).
  { apply in_weekdays. rewrite Eb. split; [lia | exact Hw]. }
  exists m. split; [exact Em |].
  apply in_weekdays in Hin as [Hm Hdow]. rewrite Eb in Hm.
  split; [now apply Hmonth |]. split; [exact Hdow |].
  intros d' Hd' Hdow'. apply Hmax, in_weekdays. rewrite Eb.
  split; [now apply Hmonth | exact Hdow'].
Qed.

(** The earliest Monday between September 1 and September 7 is the first
    Monday of September. *)
Lemma labor_found (year : Z) :
  exists d,
    min_date (filter (fun x => dayofweek x =? 0)
                (date_range (ymd2ord year 9 1) (ymd2ord year 9 7)))
    = Some d /\ labor_day year d.
Proof.
  set (a := ymd2ord year 9 1).
  assert (Eb : ymd2ord year 9 7 = a + 6) by (unfold a, ymd2ord; lia).
  assert (Hmonth : forall d, in_month year 9 d <-> a <= d <= a + 29).
  { intros d. rewrite in_month_range by lia. fold a.
    change (days_in_month year 9) with 30.
    replace (ymd2ord year 9 30) with (a + 29) by (unfold a, ymd2ord; lia).
    tauto. }
  destruct (weekday_in_week a 0 ltac:(lia)) as [Hr Hw].
  destruct (min_date_spec
              (filter (fun x => dayofweek x =? 0) (date_range a (ymd2ord year 9 7)))
              (a + (0 - dayofweek a) mod 7)) as (m & Em & Hin & Hmin).
  { apply in_weekdays. rewrite Eb. split; [lia | exact Hw]. }
  exists m. split; [exact Em |].
  apply in_weekdays in Hin as [Hm Hdow]. rewrite Eb in Hm.
  split; [apply Hmonth; lia |]. split; [exact Hdow |].
  intros d' Hd' Hdow'. apply Hmonth in Hd'.
  destruct (Z_le_gt_dec d' (a + 6)) as [L | G]; [| lia].
  apply Hmin, in_weekdays. rewrite Eb. split; [lia | exact Hdow'].
Qed.

Lemma filter_map_comm {A B : Type} (f : B -> bool) (g : A -> B) (l : list A) :
  filter f (map g l) = map g (filter (fun x => f (g x)) l).
Proof.
  induction l as [| x t IH]; simpl; [reflexivity |].
  destruct (f (g x)); simpl; now rewrite IH.
Qed.

(** The fourth Thursday found by position in a thirty-day month. *)
Lemma fourth_in_thirty (a : Z) :
  nth_error (filter (fun x => dayofweek x =? 3) (date_range a (a + 29))) 3
  = Some (a + (3 - dayofweek a) mod 7 + 21).
Proof.
  unfold date_range. replace (a + 29 - a + 1) with 30 by lia.
  rewrite filter_map_comm.
  assert (Hc : 0 <= dayofweek a < 7) by (unfold dayofweek; apply Z.mod_pos_bound; lia).
  assert (Hshift : forall i, dayofweek (a + Z.of_nat i)
                             = (dayofweek a + Z.of_nat i) mod 7).
  { intros i. unfold dayofweek. Z.div_mod_to_equations. lia. }
  rewrite (filter_ext _ (fun i => (dayofweek a + Z.of_nat i) mod 7 =? 3))
    by (intros i; now rewrite Hshift).
  assert (Hcases : dayofweek a = 0 \/ dayofweek a = 1 \/ dayofweek a = 2
                   \/ dayofweek a = 3 \/ dayofweek a = 4 \/ dayofweek a = 5
                   \/ dayofweek a = 6) by lia.
  destruct Hcases as [E | [E | [E | [E | [E | [E | E]]]]]]; rewrite E;
    simpl; f_equal; Z.div_mod_to_equations; lia.
Qed.

Lemma thanksgiving_found (year : Z) :
  exists d,
    nth_error (filter (fun x => dayofweek x =? 3)
                 (date_range (ymd2ord year 11 1) (ymd2ord year 11 30))) 3
    = Some d /\ thanksgiving_day year d.
Proof.
  set (a := ymd2ord year 11 1).
  replace (ymd2ord year 11 30) with (a + 29) by (unfold a, ymd2ord; lia).
  assert (Hmonth : forall d, in_month year 11 d <-> a <= d <= a + 29).
  { intros d. rewrite in_month_range by lia. fold a.
    change (days_in_month year 11) with 30.
    replace (ymd2ord year 11 30) with (a + 29) by (unfold a, ymd2ord; lia).
    tauto. }
  rewrite fourth_in_thirty.
  destruct (weekday_in_week a 3 ltac:(lia)) as [Hr Hw].
  set (t := a + (3 - dayofweek a) mod 7) in *.
  exists (t + 21). split; [reflexivity |].
  assert (Hdow : forall x, dayofweek x = 3 <-> (x - t) mod 7 = 0).
  { intros x. unfold dayofweek in *. Z.div_mod_to_equations. lia. }
  split; [apply Hmonth; lia |].
  split; [apply Hdow; Z.div_mod_to_equations; lia |].
  exists [t; t + 7; t + 14]. split; [reflexivity |]. split.
  - repeat constructor; simpl; lia.
  - intros d'. rewrite Hmonth, Hdow. simpl. split.
    + intros [<- | [<- | [<- | []]]];
        (split; [lia |]); (split; [| lia]); Z.div_mod_to_equations; lia.
    + intros (Hr' & Hmod & Hlt). Z.div_mod_to_equations. lia.
Qed.

Lemma variable_holidays_of_year_spec (year : Z) :
  exists dm dl dt,
    variable_holidays_of_year year = Some (dm, dl, dt)
    /\ memorial_day year dm /\ labor_day year dl /\ thanksgiving_day year dt.
Proof.
  destruct (memorial_found year) as (dm & Em & Hm).
  destruct (labor_found year) as (dl & El & Hl).
  destruct (thanksgiving_found year) as (dt & Et & Ht).
  exists dm, dl, dt. unfold variable_holidays_of_year.
  rewrite Em, El, Et. split; [reflexivity |]. split; [exact Hm |]. now split.
Qed.

(** The loop never raises, and appends one entry per year to each list. *)
Lemma for_years_spec (years : list Z) (ms0 ls0 ts0 : list string) :
  exists ms ls ts,
    for_years years (ms0, ls0, ts0) = Some (ms0 ++ ms, ls0 ++ ls, ts0 ++ ts)
    /\ Forall2 (fun y s => exists d, s = strftime_ymd d /\ memorial_day y d)
               years ms
    /\ Forall2 (fun y s => exists d, s = strftime_ymd d /\ labor_day y d)
               years ls
    /\ Forall2 (fun y s => exists d, s = strftime_ymd d /\ thanksgiving_day y d)
               years ts.
Proof.
  revert ms0 ls0 ts0. induction years as [| year rest IH]; intros ms0 ls0 ts0.
  - exists [], [], []. simpl. rewrite !app_nil_r. repeat split; constructor.
  - destruct (variable_holidays_of_year_spec year)
      as (dm & dl & dt & E & Hm & Hl & Ht).
    destruct (IH (ms0 ++ [strftime_ymd dm]) (ls0 ++ [strftime_ymd dl])
                (ts0 ++ [strftime_ymd dt]))
      as (ms & ls & ts & Ef & Fm & Fl & Ft).
    exists (strftime_ymd dm :: ms), (strftime_ymd dl :: ls),
      (strftime_ymd dt :: ts).
    simpl. rewrite E, Ef, <- !app_assoc. simpl.
    split; [reflexivity |].
    split; [| split]; constructor; eauto.
Qed.

Lemma Forall2_nth_error {A B : Type} (R : A -> B -> Prop) (l : list A)
    (l' : list B) (i : nat) (x : A) :
  Forall2 R l l' -> nth_error l i = Some x ->
  exists y, nth_error l' i = Some y /\ R x y.
Proof.
  intros H. revert i. induction H as [| a b l l' Hab _ IH]; intros [| i] E;
    simpl in *; try discriminate.
  - injection E as <-. now exists b.
  - now apply IH.
Qed.

Lemma nth_error_range (a b y : Z) :
  a <= y < b -> nth_error (range a b) (Z.to_nat (y - a)) = Some y.
Proof.
  intros H. unfold range.
  rewrite nth_error_map, nth_error_seq.
  destruct (Nat.ltb_spec (Z.to_nat (y - a)) (Z.to_nat (b - a))) as [L | G];
    [| lia].
  simpl. f_equal. lia.
Qed.

(** C8. For every year from 1949 through the current year the resolver
    returns, at that year's position in its three lists, the last Monday of
    May as Memorial Day, the first Monday of September as Labor Day and the
    fourth Thursday of November as Thanksgiving. *)
Theorem floating_holidays_resolved (now_year : Z) :
  exists memorial labor thanksgiving,
    get_variable_holiday_dates now_year
    = Some [("Memorial Day"%string, memorial); ("Labor Day"%string, labor);
            ("Thanksgiving"%string, thanksgiving)]
    /\ forall year, 1949 <= year <= now_year ->
         exists dm dl dt,
           nth_error memorial (Z.to_nat (year - 1949)) = Some (strftime_ymd dm)
           /\ memorial_day year dm
           /\ nth_error labor (Z.to_nat (year - 1949)) = Some (strftime_ymd dl)
           /\ labor_day year dl
           /\ nth_error thanksgiving (Z.to_nat (year - 1949))
              = Some (strftime_ymd dt)
           /\ thanksgiving_day year dt.
Proof.
  destruct (for_years_spec (range 1949 (now_year + 1)) [] [] [])
    as (ms & ls & ts & Ef & Fm & Fl & Ft).
  exists ms, ls, ts. unfold get_variable_holiday_dates. cbv zeta.
  rewrite Ef. simpl. split; [reflexivity |].
  intros year Hy.
  pose proof (nth_error_range 1949 (now_year + 1) year ltac:(lia)) as Hn.
  destruct (Forall2_nth_error _ _ _ _ _ Fm Hn) as (sm & Em & dm & -> & Hm).
  destruct (Forall2_nth_error _ _ _ _ _ Fl Hn) as (sl & El & dl & -> & Hl).
  destruct (Forall2_nth_error _ _ _ _ _ Ft Hn) as (st & Et & dt & -> & Ht).
  exists dm, dl, dt. tauto.
Qed.

Lemma floating_holidays_resolved_witness :
  1949 <= 2024 <= 2024
  /\ exists memorial labor thanksgiving,
       get_variable_holiday_dates 2024
       = Some [("Memorial Day"%string, memorial); ("Labor Day"%string, labor);
               ("Thanksgiving"%string, thanksgiving)]
       /\ exists dm dl dt,
            nth_error memorial (Z.to_nat (2024 - 1949)) = Some (strftime_ymd dm)
            /\ memorial_day 2024 dm
            /\ nth_error labor (Z.to_nat (2024 - 1949)) = Some (strftime_ymd dl)
            /\ labor_day 2024 dl
            /\ nth_error thanksgiving (Z.to_nat (2024 - 1949))
               = Some (strftime_ymd dt)
            /\ thanksgiving_day 2024 dt.
Proof.
  split; [lia |].
  destruct (floating_holidays_resolved 2024) as (ms & ls & ts & E & H).
  exists ms, ls, ts. split; [exact E |]. apply H. lia.
Defined.

(** The dates the resolver gives for 2024: May 27, September 2 and
    November 28. *)
Example floating_holidays_2024 :
  option_map (fun '(dm, dl, dt) =>
                (strftime_ymd dm, strftime_ymd dl, strftime_ymd dt))
             (variable_holidays_of_year 2024)
  = Some ("2024-05-27", "2024-09-02", "2024-11-28")%string.
Proof. vm_compute. reflexivity. Qed.
End FloatingHolidays.

(** ** Climate history: the dry-streak query *)

Section RunningSum.
Import Calendar SQL Frame ClimateHistoryByDay Spec.

Lemma wet_flag_range (r : weather_clean_row) : 0 <= wet_flag r <= 1.
Proof. unfold wet_flag. destruct (is_dry r =? 0); lia. Qed.

Lemma wet_flag_dry (r : weather_clean_row) : is_dry r = 1 -> wet_flag r = 0.
Proof. unfold wet_flag. intros ->. reflexivity. Qed.

Lemma wet_flag_wet (r : weather_clean_row) : is_dry r = 0 -> wet_flag r = 1.
Proof. unfold wet_flag. intros ->. reflexivity. Qed.

Lemma group_of_app (a b : list weather_clean_row) :
  group_of (a ++ b) = group_of a + group_of b.
Proof.
  unfold group_of. induction a as [| r t IH]; simpl; [reflexivity |].
  rewrite IH. lia.
Qed.

Lemma group_of_nonneg (l : list weather_clean_row) : 0 <= group_of l.
Proof.
  unfold group_of. induction l as [| r t IH]; simpl; [lia |].
  pose proof (wet_flag_range r). lia.
Qed.

Lemma running_sum_app (acc : Z) (a b : list weather_clean_row) :
  running_sum acc (a ++ b)
  = running_sum acc a ++ running_sum (acc + group_of a) b.
Proof.
  revert acc. induction a as [| r t IH]; intros acc; simpl.
  - f_equal. unfold group_of. simpl. lia.
  - rewrite IH. do 3 f_equal. unfold group_of. simpl. lia.
Qed.

Lemma running_sum_base (acc : Z) (l : list weather_clean_row) :
  map base (running_sum acc l) = l.
Proof.
  revert acc. induction l as [| r t IH]; intros acc; simpl;
    [reflexivity | now rewrite IH].
Qed.

(** Over dry days the running sum stands still. *)
Lemma running_sum_dry (acc : Z) (run : list weather_clean_row) :
  forallb (fun r => is_dry r =? 1) run = true ->
  running_sum acc run = map (fun r => {| base := r; wet_group := acc |}) run.
Proof.
  revert acc. induction run as [| r t IH]; intros acc H; simpl in *;
    [reflexivity |].
  apply andb_true_iff in H as [Hr Ht]. apply Z.eqb_eq in Hr.
  rewrite (wet_flag_dry r Hr), Z.add_0_r, (IH acc Ht). reflexivity.
Qed.

Lemma running_sum_bounds (acc : Z) (l : list weather_clean_row) (x : runs_row) :
  In x (running_sum acc l) -> acc <= wet_group x <= acc + group_of l.
Proof.
  revert acc. induction l as [| r t IH]; intros acc Hx; simpl in Hx;
    [contradiction |].
  pose proof (wet_flag_range r). pose proof (group_of_nonneg t).
  change (group_of (r :: t)) with (wet_flag r + group_of t).
  destruct Hx as [<- | Hx]; simpl; [lia |].
  specialize (IH _ Hx). lia.
Qed.

(** Before a run that follows a wet day, every dry day belongs to an
    earlier group. *)
Lemma running_sum_before (acc : Z) (pre : list weather_clean_row) (x : runs_row) :
  ends_wet pre = true -> In x (running_sum acc pre) ->
  is_dry (base x) = 1 -> wet_group x < acc + group_of pre.
Proof.
  unfold ends_wet. intros Hw Hx Hd.
  destruct (rev pre) as [| w rest] eqn:E.
  - apply (f_equal (@rev _)) in E. rewrite rev_involutive in E. subst pre.
    contradiction.
  - apply (f_equal (@rev _)) in E. rewrite rev_involutive in E. simpl in E.
    subst pre. apply Z.eqb_eq in Hw.
    rewrite running_sum_app in Hx. rewrite group_of_app.
    change (group_of [w]) with (wet_flag w + 0). rewrite (wet_flag_wet w Hw).
    apply in_app_or in Hx as [Hx | Hx].
    + apply running_sum_bounds in Hx. lia.
    + simpl in Hx. destruct Hx as [<- | []]. simpl in Hd. congruence.
Qed.

(** After a run that a wet day ends, every day belongs to a later group. *)
Lemma running_sum_after (acc : Z) (post : list weather_clean_row) (x : runs_row) :
  starts_wet post = true -> In x (running_sum acc post) -> acc < wet_group x.
Proof.
  unfold starts_wet. intros Hw Hx. destruct post as [| w rest];
    [contradiction |].
  apply Z.eqb_eq in Hw. simpl in Hx. rewrite (wet_flag_wet w Hw) in Hx.
  destruct Hx as [<- | Hx]; simpl; [lia |].
  apply running_sum_bounds in Hx. lia.
Qed.

Lemma filter_none {A : Type} (f : A -> bool) (l : list A) :
  (forall x, In x l -> f x = false) -> filter f l = [].
Proof.
  induction l as [| x t IH]; intros H; simpl; [reflexivity |].
  rewrite (H x (or_introl eq_refl)). apply IH. intros y Hy. apply H. now right.
Qed.

Lemma filter_all {A : Type} (f : A -> bool) (l : list A) :
  (forall x, In x l -> f x = true) -> filter f l = l.
Proof.
  induction l as [| x t IH]; intros H; simpl; [reflexivity |].
  rewrite (H x (or_introl eq_refl)). f_equal. apply IH.
  intros y Hy. apply H. now right.
Qed.

(** The dry rows of a maximal run's group are the rows of the run. *)
Lemma group_of_run (pre run post : list weather_clean_row) :
  forallb (fun r => is_dry r =? 1) run = true ->
  ends_wet pre = true -> starts_wet post = true ->
  filter (fun r => wet_group r =? group_of pre)
    (filter (fun r => is_dry (base r) =? 1)
       (running_sum 0 (pre ++ run ++ post)))
  = map (fun r => {| base := r; wet_group := group_of pre |}) run.
Proof.
  intros Hrun Hpre Hpost.
  rewrite !running_sum_app, !filter_app, Z.add_0_l.
  rewrite (running_sum_dry _ run Hrun).
  assert (E1 : filter (fun r => wet_group r =? group_of pre)
                 (filter (fun r => is_dry (base r) =? 1) (running_sum 0 pre))
               = []).
  { apply filter_none. intros x Hx. apply filter_In in Hx as [Hx Hd].
    apply Z.eqb_eq in Hd.
    pose proof (running_sum_before 0 pre x Hpre Hx Hd). apply Z.eqb_neq. lia. }
  assert (E3 : filter (fun r => wet_group r =? group_of pre)
                 (filter (fun r => is_dry (base r) =? 1)
                    (running_sum (group_of pre + group_of run) post))
               = []).
  { apply filter_none. intros x Hx. apply filter_In in Hx as [Hx _].
    pose proof (running_sum_after _ post x Hpost Hx).
    pose proof (group_of_nonneg run). apply Z.eqb_neq. lia. }
  rewrite E1, E3, app_nil_r. simpl.
  rewrite (filter_all (fun r => is_dry (base r) =? 1)).
  - apply filter_all. intros x Hx. apply in_map_iff in Hx as (r & <- & _).
    simpl. apply Z.eqb_refl.
  - intros x Hx. apply in_map_iff in Hx as (r & <- & Hr). simpl.
    rewrite forallb_forall in Hrun. now apply Hrun.
Qed.
End RunningSum.

Section DryStreaks.
Import Calendar SQL Frame ClimateHistoryByDay Spec.

Let date_le (a b : weather_clean_row) : Prop := (wc_Date a <=? wc_Date b) = true.

Lemma StronglySorted_app {A : Type} (R : A -> A -> Prop) (a b : list A) :
  StronglySorted R (a ++ b) <->
  StronglySorted R a /\ StronglySorted R b
  /\ (forall x y, In x a -> In y b -> R x y).
Proof.
  induction a as [| h t IH]; simpl.
  - split; [intros H | intros (_ & H & _); exact H].
    split; [constructor |]. split; [exact H | intros x y []].
  - split.
    + intros H. apply StronglySorted_inv in H as [Hs Hh].
      apply IH in Hs as (Ht & Hb & Hc). rewrite Forall_forall in Hh.
      split; [| split; [exact Hb |]].
      * constructor; [exact Ht |]. rewrite Forall_forall. intros x Hx.
        apply Hh, in_or_app. now left.
      * intros x y [<- | Hx] Hy; [| now apply Hc].
        apply Hh, in_or_app. now right.
    + intros (Ha & Hb & Hc). apply StronglySorted_inv in Ha as [Ht Hh].
      constructor.
      * apply IH. split; [exact Ht |]. split; [exact Hb |].
        intros x y Hx Hy. apply Hc; [now right | exact Hy].
      * rewrite Forall_forall in *. intros x Hx.
        apply in_app_or in Hx as [Hx | Hx]; [now apply Hh |].
        apply Hc; [now left | exact Hx].
Qed.

Lemma weather_clean_sorted (weather : list Row) :
  StronglySorted date_le (weather_clean weather).
Proof.
  unfold weather_clean.
  apply (sort_sorted (fun a b => wc_Date a <=? wc_Date b)).
  - intros a b H. apply Z.leb_le. apply Z.leb_gt in H. lia.
  - intros a b c H1 H2. apply Z.leb_le in H1, H2. apply Z.leb_le. lia.
Qed.

(** The window runs over the series as [weather_clean] ordered it. *)
Lemma runs_series (weather : list Row) :
  runs weather = running_sum 0 (weather_clean weather).
Proof.
  unfold runs. f_equal. apply sort_sorted_id, weather_clean_sorted.
Qed.

Lemma first_day_cons (run : list weather_clean_row) (start : date) :
  first_day run = Some start ->
  exists r rest, run = r :: rest /\ wc_Date r = start.
Proof.
  destruct run as [| r rest]; [discriminate |]. simpl. intros H.
  injection H as <-. now exists r, rest.
Qed.

Lemma last_day_snoc (run : list weather_clean_row) (stop : date) :
  last_day run = Some stop ->
  exists front r, run = front ++ [r] /\ wc_Date r = stop.
Proof.
  unfold last_day. destruct (rev run) as [| r rest] eqn:E; [discriminate |].
  simpl. intros H. injection H as <-.
  apply (f_equal (@rev _)) in E. rewrite rev_involutive in E. simpl in E.
  now exists (rev rest), r.
Qed.

(** The aggregates of a sorted run: it starts on its first day, ends on its
    last and counts its days. *)
Lemma streak_of_sorted_run (g : Z) (run : list weather_clean_row)
    (start stop : date) :
  StronglySorted date_le run ->
  first_day run = Some start -> last_day run = Some stop ->
  streak_of (g, map (fun r => {| base := r; wet_group := g |}) run)
  = [{| s_wet_group := g; s_StartDate := start; s_EndDate := stop;
        StreakDays := COUNT run |}].
Proof.
  intros Hs Hfirst Hlast.
  destruct (first_day_cons run start Hfirst) as (r0 & rest & E & E0).
  destruct (last_day_snoc run stop Hlast) as (front & rl & El & Estop).
  unfold streak_of. simpl. rewrite map_map. simpl.
  unfold COUNT. rewrite length_map.
  assert (Hlb : forall x, In x run -> wc_Date r0 <= wc_Date x).
  { intros x Hx. rewrite E in Hs, Hx. apply StronglySorted_inv in Hs as [_ Hh].
    destruct Hx as [<- | Hx]; [lia |]. rewrite Forall_forall in Hh.
    apply Z.leb_le, Hh, Hx. }
  assert (Hub : forall x, In x run -> wc_Date x <= wc_Date rl).
  { intros x Hx. rewrite El in Hs, Hx. apply StronglySorted_app in Hs as (_ & _ & Hc).
    apply in_app_or in Hx as [Hx | [<- | []]]; [| lia].
    apply Z.leb_le, Hc; [exact Hx | now left]. }
  assert (Hdates : forall d, In d (map wc_Date run) ->
                             wc_Date r0 <= d <= wc_Date rl).
  { intros d Hd. apply in_map_iff in Hd as (x & <- & Hx).
    split; [now apply Hlb | now apply Hub]. }
  assert (Hrl : In (wc_Date rl) (map wc_Date run)).
  { apply in_map. rewrite El. apply in_or_app. right. now left. }
  rewrite E. simpl. rewrite E in Hdates, Hrl. simpl in Hdates, Hrl.
  destruct (fold_min_spec (map wc_Date rest) (wc_Date r0)) as [Hmin_in Hmin].
  destruct (fold_max_spec (map wc_Date rest) (wc_Date r0)) as [Hmax_in Hmax].
  pose proof (Hdates _ Hmin_in). pose proof (Hmin _ (or_introl eq_refl)).
  pose proof (Hdates _ Hmax_in). pose proof (Hmax _ Hrl).
  change (fun x : weather_clean_row => wc_Date x) with wc_Date.
  do 2 f_equal; lia.
Qed.

Lemma in_streak_of (g : Z * list runs_row) (st : streaks_row) :
  In st (streak_of g) -> s_wet_group st = fst g.
Proof.
  unfold streak_of. destruct (map _ (snd g)); [intros [] |].
  intros [<- | []]. reflexivity.
Qed.

(** The streak of a maximal dry run: its group is reported by [streaks]
    exactly when the run has 150 days or more, with the run's first day,
    last day and length. *)
Lemma streak_of_maximal_run (weather : list Row)
    (pre run post : list weather_clean_row) (start stop : date)
    (st : streaks_row) :
  maximal_dry_run (weather_clean weather) pre run post ->
  first_day run = Some start -> last_day run = Some stop ->
  (In st (streaks weather) /\ s_wet_group st = group_of pre) <->
  (st = {| s_wet_group := group_of pre; s_StartDate := start;
           s_EndDate := stop; StreakDays := COUNT run |}
   /\ 150 <= COUNT run).
Proof.
  intros (Eseries & Hne & Hrun & Hpre & Hpost) Hfirst Hlast.
  assert (Hsorted : StronglySorted date_le run).
  { pose proof (weather_clean_sorted weather) as Hs. rewrite Eseries in Hs.
    apply StronglySorted_app in Hs as (_ & Hs & _).
    now apply StronglySorted_app in Hs as (Hs & _ & _). }
  pose proof (group_of_run pre run post Hrun Hpre Hpost) as Hgroup.
  rewrite <- Eseries, <- runs_series in Hgroup.
  pose proof (streak_of_sorted_run (group_of pre) run start stop
                Hsorted Hfirst Hlast) as Hstreak.
  unfold streaks. rewrite filter_In, in_flat_map. split.
  - intros [[(g & Hg & Hst) Hlen] Hkey].
    apply (in_group_by Z.eqb Z.eqb_eq) in Hg as [_ Hrows].
    pose proof (in_streak_of g st Hst) as Hfst. rewrite Hkey in Hfst.
    destruct g as [k rows]. simpl in Hfst, Hrows. subst k.
    rewrite Hgroup in Hrows. subst rows. rewrite Hstreak in Hst.
    destruct Hst as [<- | []]. split; [reflexivity |].
    simpl in Hlen. now apply Z.leb_le.
  - intros [-> Hlen]. split; [| reflexivity]. split; [| now apply Z.leb_le].
    exists (group_of pre,
            map (fun r => {| base := r; wet_group := group_of pre |}) run).
    split; [| rewrite Hstreak; now left].
    apply (in_group_by Z.eqb Z.eqb_eq). simpl. split; [| now symmetry].
    destruct run as [| r0 rest]; [contradiction |].
    assert (Hin : In {| base := r0; wet_group := group_of pre |}
                    (filter (fun r => wet_group r =? group_of pre)
                       (filter (fun r => is_dry (base r) =? 1) (runs weather)))).
    { rewrite Hgroup. now left. }
    apply filter_In in Hin as [Hin _].
    apply in_map_iff. eexists. split; [| exact Hin]. reflexivity.
Qed.

Lemma in_rain_on_next_day (weather : list Row) (j : rain_on_next_day_row) :
  In j (rain_on_next_day weather) <->
  In (s j) (streaks weather)
  /\ RainDate j = next_day (s_EndDate (s j))
  /\ exists w, In w weather /\ Date w = Some (RainDate j)
               /\ gt (PRCP w) 0.01 = true /\ r_Rain j = PRCP w.
Proof.
  unfold rain_on_next_day. rewrite in_flat_map. split.
  - intros (st & Hst & Hj). apply in_flat_map in Hj as (w & Hw & Hj).
    destruct (Date w) as [d |] eqn:Ed; [| destruct Hj].
    destruct (d =? next_day (s_EndDate st)) eqn:Edate; [| destruct Hj].
    destruct (gt (PRCP w) 0.01) eqn:Egt; [| destruct Hj].
    destruct Hj as [<- | []]. simpl. apply Z.eqb_eq in Edate.
    split; [exact Hst |]. split; [exact Edate |].
    exists w. now repeat split.
  - intros (Hst & Hdate & w & Hw & Ed & Egt & Er).
    exists (s j). split; [exact Hst |]. apply in_flat_map.
    exists w. split; [exact Hw |]. rewrite Ed, Hdate, Z.eqb_refl, Egt. simpl.
    left. destruct j as [st d rain]. simpl in *. now subst.
Qed.

Lemma in_dry_streaks (weather : list Row) (out : dry_streaks_row) :
  In out (dry_streaks weather) <->
  exists j, In j (rain_on_next_day weather)
            /\ out = {| EndDate := RainDate j; StartDate := s_StartDate (s j);
                        streak_length := StreakDays (s j); Rain := r_Rain j |}.
Proof.
  unfold dry_streaks. rewrite in_map_iff. split.
  - intros (j & <- & Hj). now exists j.
  - intros (j & Hj & ->). now exists j.
Qed.

Lemma reported_streaks_long (weather : list Row) :
  Forall (fun out => 150 <= streak_length out) (dry_streaks weather).
Proof.
  rewrite Forall_forall. intros out Hout.
  apply in_dry_streaks in Hout as (j & Hj & ->). simpl.
  apply in_rain_on_next_day in Hj as (Hst & _).
  unfold streaks in Hst. apply filter_In in Hst as [_ H]. now apply Z.leb_le.
Qed.

Lemma run_has_days (run : list weather_clean_row) :
  run <> [] -> exists start stop, first_day run = Some start
                                  /\ last_day run = Some stop.
Proof.
  intros Hne. destruct run as [| r rest]; [contradiction |].
  exists (wc_Date r). unfold last_day.
  destruct (rev (r :: rest)) as [| e t] eqn:E.
  - apply (f_equal (@List.length _)) in E. rewrite length_rev in E.
    discriminate E.
  - exists (wc_Date e). now split.
Qed.

(** C2. A maximal run of dry days of 150 days or more is in the detector's
    output exactly when the table holds a record dated the day after the
    run's last day with precipitation above 0.01 inch; with no such record
    the run is left out altogether. *)
Theorem dry_streak_reported_iff_next_day_rain (weather : list Row)
    (pre run post : list weather_clean_row) (start stop : date) :
  maximal_dry_run (weather_clean weather) pre run post ->
  150 <= COUNT run ->
  first_day run = Some start -> last_day run = Some stop ->
  let next_day_rain :=
    exists w, In w weather /\ Date w = Some (next_day stop)
              /\ gt (PRCP w) 0.01 = true in
  ((exists out, In out (dry_streaks weather)
                /\ StartDate out = start /\ streak_length out = COUNT run
                /\ EndDate out = next_day stop)
   <-> next_day_rain)
  /\ ((exists j, In j (rain_on_next_day weather)
                 /\ s_wet_group (s j) = group_of pre)
      <-> next_day_rain)
  /\ (forall j, In j (rain_on_next_day weather) ->
                s_wet_group (s j) = group_of pre ->
                s_StartDate (s j) = start /\ s_EndDate (s j) = stop
                /\ StreakDays (s j) = COUNT run /\ RainDate j = next_day stop).
Proof.
  intros Hmax Hlen Hfirst Hlast next_day_rain.
  pose proof (fun st => streak_of_maximal_run weather pre run post start stop st
                          Hmax Hfirst Hlast) as Hst.
  assert (Hrow : forall j, In j (rain_on_next_day weather) ->
                   s_wet_group (s j) = group_of pre ->
                   s_StartDate (s j) = start /\ s_EndDate (s j) = stop
                   /\ StreakDays (s j) = COUNT run /\ RainDate j = next_day stop).
  { intros j Hj Hg. apply in_rain_on_next_day in Hj as (Hin & Hd & _).
    destruct (proj1 (Hst (s j)) (conj Hin Hg)) as [E _].
    rewrite Hd, E. simpl. now repeat split. }
  assert (Hfound : next_day_rain ->
            exists j, In j (rain_on_next_day weather)
                      /\ s_wet_group (s j) = group_of pre).
  { intros (w & Hw & Ed & Egt).
    destruct (proj2 (Hst _) (conj eq_refl Hlen)) as [Hin _].
    exists {| s := {| s_wet_group := group_of pre; s_StartDate := start;
                      s_EndDate := stop; StreakDays := COUNT run |};
              RainDate := next_day stop; r_Rain := PRCP w |}.
    split; [| reflexivity]. apply in_rain_on_next_day. simpl.
    split; [exact Hin |]. split; [reflexivity |]. now exists w. }
  split; [| split; [| exact Hrow]].
  - split.
    + intros (out & Hout & _ & _ & Hend).
      apply in_dry_streaks in Hout as (j & Hj & ->). simpl in Hend.
      apply in_rain_on_next_day in Hj as (_ & _ & w & Hw & Ed & Egt & _).
      exists w. rewrite <- Hend. now repeat split.
    + intros Hrain. destruct (Hfound Hrain) as (j & Hj & Hg).
      destruct (Hrow j Hj Hg) as (E1 & E2 & E3 & E4).
      eexists. split; [apply in_dry_streaks; exists j; split; [exact Hj |];
                       reflexivity |].
      simpl. now repeat split.
  - split; [| exact Hfound].
    intros (j & Hj & Hg). destruct (Hrow j Hj Hg) as (_ & _ & _ & E4).
    apply in_rain_on_next_day in Hj as (_ & _ & w & Hw & Ed & Egt & _).
    exists w. rewrite <- E4. now repeat split.
Qed.

(** C3. A maximal run of dry days shorter than 150 days (149 included) is
    never reported: its group is in neither the streaks nor the output, and
    every reported streak has 150 days or more. *)
Theorem short_dry_run_not_reported (weather : list Row)
    (pre run post : list weather_clean_row) :
  maximal_dry_run (weather_clean weather) pre run post ->
  COUNT run < 150 ->
  (forall st, In st (streaks weather) -> s_wet_group st <> group_of pre)
  /\ (forall j, In j (rain_on_next_day weather) ->
                s_wet_group (s j) <> group_of pre)
  /\ Forall (fun out => 150 <= streak_length out
                        /\ streak_length out <> COUNT run)
            (dry_streaks weather).
Proof.
  intros Hmax Hlen.
  assert (Hst : forall st, In st (streaks weather) ->
                           s_wet_group st <> group_of pre).
  { intros st Hin Hg.
    destruct (run_has_days run) as (start & stop & Hfirst & Hlast);
      [apply Hmax |].
    destruct (proj1 (streak_of_maximal_run weather pre run post start stop st
                       Hmax Hfirst Hlast) (conj Hin Hg)) as [_ H].
    lia. }
  split; [exact Hst |]. split.
  - intros j Hj. apply in_rain_on_next_day in Hj as (Hin & _).
    now apply Hst.
  - eapply Forall_impl; [| apply reported_streaks_long].
    simpl. intros out H. split; [exact H | lia].
Qed.
End DryStreaks.

(** ** Climate history: the synthetic series *)

Section CleanRows.
Import Calendar SQL Frame ClimateHistoryByDay Spec.
Local Open Scope Q_scope.

Lemma wet_not_dry (d : date) (r : Row) :
  gt (PRCP r) 0 = true -> is_dry (clean d r) = 0%Z.
Proof.
  unfold clean, gt, Qltb. simpl. destruct (PRCP r) as [p |]; [| discriminate].
  intros H. simpl. destruct (Qeq_bool p 0) eqn:E; [| reflexivity].
  apply Qeq_bool_iff in E. apply negb_true_iff in H.
  assert (Hle : Qle_bool p 0 = true) by (apply Qle_bool_iff; rewrite E; apply Qle_refl).
  congruence.
Qed.

Lemma zero_is_dry (d : date) (r : Row) :
  eq_const (PRCP r) 0 = true -> is_dry (clean d r) = 1%Z.
Proof.
  unfold clean, eq_const. simpl. destruct (PRCP r) as [p |]; [| discriminate].
  intros H. simpl. now rewrite H.
Qed.

Lemma half_inch_not_dry (d : date) (r : Row) :
  eq_const (PRCP r) 0.5 = true ->
  is_dry (clean d r) = 0%Z /\ gt (PRCP r) 0.01 = true
  /\ exists p, PRCP r = Some p /\ p == 0.5.
Proof.
  unfold clean, eq_const, gt, Qltb. simpl.
  destruct (PRCP r) as [p |]; [| discriminate].
  intros H. apply Qeq_bool_iff in H. simpl. split; [| split].
  - destruct (Qeq_bool p 0) eqn:E; [| reflexivity].
    apply Qeq_bool_iff in E. rewrite E in H. unfold Qeq in H. simpl in H. lia.
  - apply negb_true_iff. destruct (Qle_bool p 0.01) eqn:E; [| reflexivity].
    apply Qle_bool_iff in E. rewrite H in E. unfold Qle in E. simpl in E. lia.
  - now exists p.
Qed.

(** Cleaning a table whose dates are all present keeps the rows in place. *)
Lemma clean_rows (l : list Row) (ds : list date) :
  map Date l = map Some ds ->
  exists cl,
    flat_map (fun r => match Date r with
                       | Some d => [clean d r]
                       | None => []
                       end) l = cl
    /\ map wc_Date cl = ds
    /\ Forall2 (fun r c => exists d, c = clean d r) l cl.
Proof.
  revert ds. induction l as [| r t IH]; intros [| d ds] H; try discriminate.
  - exists []. simpl. repeat split. constructor.
  - simpl in H. injection H as Hd Ht. destruct (IH ds Ht) as (cl & E & Hm & Hf).
    exists (clean d r :: cl). simpl. rewrite Hd. simpl. rewrite E, Hm.
    repeat split. constructor; [now exists d | exact Hf].
Qed.

Lemma cleaned_flags (p : Row -> bool) (flag : Z) (l : list Row)
    (cl : list weather_clean_row) :
  (forall d r, p r = true -> is_dry (clean d r) = flag) ->
  forallb p l = true ->
  Forall2 (fun r c => exists d, c = clean d r) l cl ->
  forall c, In c cl -> is_dry c = flag.
Proof.
  intros Hp Hall Hf. induction Hf as [| r c l cl (d & ->) _ IH];
    intros x Hx; [destruct Hx |].
  simpl in Hall. apply andb_true_iff in Hall as [Hr Hl].
  destruct Hx as [<- | Hx]; [now apply Hp | now apply IH].
Qed.

Lemma all_wet_group (l : list weather_clean_row) :
  (forall c, In c l -> is_dry c = 0%Z) -> group_of l = Z.of_nat (List.length l).
Proof.
  induction l as [| c t IH]; intros H; [reflexivity |].
  change (group_of (c :: t)) with (wet_flag c + group_of t)%Z.
  rewrite IH by (intros x Hx; apply H; now right).
  rewrite (wet_flag_wet c) by (apply H; now left).
  simpl List.length. lia.
Qed.

Lemma all_wet_no_dry_runs (acc : Z) (l : list weather_clean_row) :
  (forall c, In c l -> is_dry c = 0%Z) ->
  filter (fun r => (is_dry (base r) =? 1)%Z) (running_sum acc l) = [].
Proof.
  intros H. apply filter_none. intros x Hx.
  assert (Hb : In (base x) l).
  { rewrite <- (running_sum_base acc l). now apply in_map. }
  rewrite (H _ Hb). reflexivity.
Qed.

Lemma all_wet_ends_wet (l : list weather_clean_row) :
  (forall c, In c l -> is_dry c = 0%Z) -> ends_wet l = true.
Proof.
  intros H. unfold ends_wet. destruct (rev l) as [| c t] eqn:E; [reflexivity |].
  apply Z.eqb_eq, H, in_rev. rewrite E. now left.
Qed.

Lemma group_by_single {A : Type} (key : A -> Z) (k : Z) (l : list A) :
  l <> [] -> (forall x, In x l -> key x = k) ->
  group_by Z.eqb key l = [(k, l)].
Proof.
  intros Hne Hk. unfold group_by.
  assert (Hd : distinct Z.eqb (map key l) = [k]).
  { destruct l as [| x t]; [contradiction |]. simpl.
    rewrite (Hk x (or_introl eq_refl)). f_equal.
    apply filter_none. intros y Hy.
    rewrite (in_distinct Z.eqb Z.eqb_eq) in Hy.
    apply in_map_iff in Hy as (z & <- & Hz).
    rewrite (Hk z (or_intror Hz)), Z.eqb_refl. reflexivity. }
  rewrite Hd. simpl. do 2 f_equal. apply filter_all.
  intros x Hx. rewrite (Hk x Hx). apply Z.eqb_refl.
Qed.

Lemma in_day_numbers (d x : Z) (n : nat) :
  In x (map (fun k => d + Z.of_nat k)%Z (seq 0 n)) ->
  (d <= x < d + Z.of_nat n)%Z.
Proof.
  intros H. apply in_map_iff in H as (k & <- & Hk). apply in_seq in Hk. lia.
Qed.

Lemma day_numbers_sorted (d : Z) (a n : nat) :
  StronglySorted Z.le (map (fun k => d + Z.of_nat k)%Z (seq a n)).
Proof.
  revert a. induction n as [| n IH]; intros a; simpl; constructor;
    [apply IH |].
  rewrite Forall_forall. intros x Hx.
  apply in_map_iff in Hx as (k & <- & Hk). apply in_seq in Hk. lia.
Qed.

Lemma sorted_by_date (l : list weather_clean_row) :
  StronglySorted Z.le (map wc_Date l) ->
  StronglySorted (fun a b => (wc_Date a <=? wc_Date b)%Z = true) l.
Proof.
  induction l as [| c t IH]; intros H; [constructor |].
  simpl in H. apply StronglySorted_inv in H as [Ht Hc].
  constructor; [now apply IH |].
  rewrite Forall_forall in *. intros x Hx. apply Z.leb_le, Hc.
  now apply in_map.
Qed.

Lemma days_from_numbers (d : date) (n : nat) :
  days_from d n = map Some (map (fun k => d + Z.of_nat k)%Z (seq 0 n)).
Proof. unfold days_from. now rewrite map_map. Qed.

Lemma flat_map_none {A B : Type} (f : A -> list B) (l : list A) :
  (forall x, In x l -> f x = []) -> flat_map f l = [].
Proof.
  induction l as [| x t IH]; intros H; simpl; [reflexivity |].
  rewrite (H x (or_introl eq_refl)). apply IH. intros y Hy. apply H. now right.
Qed.
End CleanRows.

Section SyntheticSeries.
Import Calendar SQL Frame ClimateHistoryByDay Spec.

Variables (day0 : date) (pre dry : list Row) (rain : Row) (post : list Row).

Hypothesis pre_dates : map Date pre = days_from day0 100.
Hypothesis dry_dates : map Date dry = days_from (day0 + 100) 161.
Hypothesis rain_date : Date rain = Some (day0 + 261)%Z.
Hypothesis post_dates : map Date post = days_from (day0 + 262) 138.
Hypothesis pre_wet : forallb (fun r => gt (PRCP r) 0%Q) pre = true.
Hypothesis dry_zero : forallb (fun r => eq_const (PRCP r) 0%Q) dry = true.
Hypothesis rain_half : eq_const (PRCP rain) 0.5%Q = true.
Hypothesis post_wet : forallb (fun r => gt (PRCP r) 0%Q) post = true.

Lemma first_day_dates (l : list weather_clean_row) :
  first_day l = hd_error (map wc_Date l).
Proof. destruct l; reflexivity. Qed.

Lemma last_day_dates (l : list weather_clean_row) :
  last_day l = hd_error (rev (map wc_Date l)).
Proof.
  unfold last_day. rewrite <- map_rev. destruct (rev l); reflexivity.
Qed.

(** C1. On a series of 400 consecutive days where days 100 to 260 have no
    precipitation, day 261 has half an inch and every other day has some,
    the detector reports exactly one streak: it starts on day 100, its last
    dry day is day 260, it is 161 days long, and the rain that broke it is
    the half inch of day 261. *)
Theorem synthetic_series_one_streak :
  streaks (pre ++ dry ++ rain :: post)
  = [{| s_wet_group := 100; s_StartDate := (day0 + 100)%Z;
        s_EndDate := (day0 + 260)%Z; StreakDays := 161 |}]
  /\ exists p,
       PRCP rain = Some p /\ (p == 0.5)%Q
       /\ dry_streaks (pre ++ dry ++ rain :: post)
          = [{| EndDate := (day0 + 261)%Z; StartDate := (day0 + 100)%Z;
                streak_length := 161; Rain := Some p |}].
Proof.
  set (weather := pre ++ dry ++ rain :: post).
  pose proof pre_dates as Hp. pose proof dry_dates as Hd.
  pose proof post_dates as Hq.
  rewrite days_from_numbers in Hp, Hd, Hq.
  destruct (clean_rows pre _ Hp) as (cpre & Epre & Dpre & Fpre).
  destruct (clean_rows dry _ Hd) as (cdry & Edry & Ddry & Fdry).
  destruct (clean_rows post _ Hq) as (cpost & Epost & Dpost & Fpost).
  set (crain := clean (day0 + 261) rain).
  destruct (half_inch_not_dry (day0 + 261) rain rain_half)
    as (Wrain & Grain & p & Ep & Hp05).
  fold crain in Wrain.
  pose proof (cleaned_flags _ 0%Z pre cpre wet_not_dry pre_wet Fpre) as Wpre.
  pose proof (cleaned_flags _ 1%Z dry cdry zero_is_dry dry_zero Fdry) as Wdry.
  pose proof (cleaned_flags _ 0%Z post cpost wet_not_dry post_wet Fpost) as Wpost.
  assert (Wtail : forall c, In c (crain :: cpost) -> is_dry c = 0%Z).
  { intros c [<- | Hc]; [exact Wrain | now apply Wpost]. }
  assert (Lpre : List.length cpre = 100%nat).
  { apply (f_equal (@List.length _)) in Dpre.
    now rewrite !length_map, length_seq in Dpre. }
  assert (Ldry : List.length cdry = 161%nat).
  { apply (f_equal (@List.length _)) in Ddry.
    now rewrite !length_map, length_seq in Ddry. }
  assert (Eflat : flat_map (fun r => match Date r with
                                     | Some d => [clean d r]
                                     | None => []
                                     end) weather
                  = cpre ++ cdry ++ crain :: cpost).
  { unfold weather. rewrite !flat_map_app. simpl.
    rewrite rain_date, Epre, Edry, Epost. reflexivity. }
  assert (Hsorted : StronglySorted
                      (fun a b => (wc_Date a <=? wc_Date b)%Z = true)
                      (cpre ++ cdry ++ crain :: cpost)).
  { apply sorted_by_date. rewrite !map_app. simpl. rewrite Dpre, Ddry, Dpost.
    apply StronglySorted_app. split; [apply day_numbers_sorted |]. split.
    - apply StronglySorted_app. split; [apply day_numbers_sorted |]. split.
      + constructor; [apply day_numbers_sorted |].
        rewrite Forall_forall. intros y Hy. apply in_day_numbers in Hy. lia.
      + intros x y Hx [<- | Hy]; apply in_day_numbers in Hx;
          [| apply in_day_numbers in Hy]; lia.
    - intros x y Hx Hy. apply in_day_numbers in Hx.
      apply in_app_or in Hy as [Hy | [<- | Hy]];
        try apply in_day_numbers in Hy; lia. }
  assert (Eseries : weather_clean weather = cpre ++ cdry ++ crain :: cpost).
  { unfold weather_clean. rewrite Eflat. now apply sort_sorted_id. }
  assert (Egroup : group_of cpre = 100%Z).
  { rewrite (all_wet_group cpre Wpre), Lpre. reflexivity. }
  assert (Edryruns : filter (fun r => (is_dry (base r) =? 1)%Z) (runs weather)
                     = map (fun r => {| base := r; wet_group := 100 |}) cdry).
  { rewrite runs_series, Eseries, !running_sum_app, !filter_app.
    rewrite (all_wet_no_dry_runs _ cpre Wpre).
    rewrite (all_wet_no_dry_runs _ (crain :: cpost) Wtail).
    rewrite app_nil_r, Z.add_0_l, Egroup. simpl.
    rewrite running_sum_dry.
    - apply filter_all. intros x Hx. apply in_map_iff in Hx as (c & <- & Hc).
      simpl. now rewrite (Wdry c Hc).
    - apply forallb_forall. intros c Hc. now rewrite (Wdry c Hc). }
  assert (Sdry : StronglySorted
                   (fun a b => (wc_Date a <=? wc_Date b)%Z = true) cdry).
  { apply StronglySorted_app in Hsorted as (_ & Hs & _).
    now apply StronglySorted_app in Hs as (Hs & _ & _). }
  assert (Hfirst : first_day cdry = Some (day0 + 100)%Z).
  { rewrite first_day_dates, Ddry. simpl. f_equal. lia. }
  assert (Hlast : last_day cdry = Some (day0 + 260)%Z).
  { rewrite last_day_dates, Ddry. simpl. f_equal. lia. }
  assert (Estreaks : streaks weather
                     = [{| s_wet_group := 100; s_StartDate := (day0 + 100)%Z;
                           s_EndDate := (day0 + 260)%Z; StreakDays := 161 |}]).
  { unfold streaks. rewrite Edryruns.
    rewrite (group_by_single wet_group 100%Z).
    - simpl flat_map. rewrite app_nil_r.
      rewrite (streak_of_sorted_run 100 cdry _ _ Sdry Hfirst Hlast).
      unfold COUNT. rewrite Ldry. reflexivity.
    - destruct cdry; [discriminate Ldry | discriminate].
    - intros x Hx. apply in_map_iff in Hx as (c & <- & _). reflexivity. }
  split; [exact Estreaks |].
  exists p. split; [exact Ep |]. split; [exact Hp05 |].
  unfold dry_streaks, rain_on_next_day. rewrite Estreaks. simpl flat_map.
  rewrite app_nil_r. unfold weather. rewrite !flat_map_app. simpl flat_map.
  match goal with |- context [flat_map ?f pre] => set (joined := f) end.
  assert (Hnone : forall (l : list Row) (lo : Z) (n : nat),
             map Date l = days_from lo n ->
             (day0 + 261 < lo \/ lo + Z.of_nat n <= day0 + 261)%Z ->
             flat_map joined l = []).
  { intros l lo n Hdates Hout. apply flat_map_none. intros w Hw.
    assert (Hin : In (Date w) (days_from lo n))
      by (rewrite <- Hdates; now apply in_map).
    unfold days_from in Hin. apply in_map_iff in Hin as (k & Ek & Hk).
    apply in_seq in Hk. unfold joined, next_day. rewrite <- Ek.
    destruct (Z.eqb_spec (lo + Z.of_nat k) (day0 + 260 + 1)) as [E | _];
      [lia | reflexivity]. }
  rewrite (Hnone pre day0 100%nat pre_dates) by lia.
  rewrite (Hnone dry (day0 + 100)%Z 161%nat dry_dates) by lia.
  rewrite (Hnone post (day0 + 262)%Z 138%nat post_dates) by lia.
  rewrite rain_date, Grain. unfold next_day.
  replace (day0 + 260 + 1)%Z with (day0 + 261)%Z by lia.
  rewrite Z.eqb_refl, Ep. reflexivity.
Qed.
End SyntheticSeries.

(** ** Grouped and ordered results *)

Section GroupedResults.
Import Calendar SQL Frame Spec.

Lemma StronglySorted_map {A B : Type} (f : A -> B) (R : B -> B -> Prop)
    (l : list A) :
  StronglySorted R (map f l) <-> StronglySorted (fun a b => R (f a) (f b)) l.
Proof.
  induction l as [| x t IH]; simpl.
  - split; constructor.
  - split; intros H; apply StronglySorted_inv in H as [Ht Hx];
      (constructor; [now apply IH |]); rewrite Forall_forall in *.
    + intros y Hy. apply Hx. now apply in_map.
    + intros y Hy. apply in_map_iff in Hy as (z & <- & Hz). now apply Hx.
Qed.

Lemma key_order_strict (a b : option Z) :
  asc_leb Z.leb a b = true /\ a <> b -> key_lt a b.
Proof.
  destruct a as [x |], b as [y |]; simpl; intros [H N]; try exact I;
    try discriminate; try congruence.
  apply Z.leb_le in H. assert (x <> y) by congruence. lia.
Qed.

(** The keys of a grouped result ordered by its key: strictly ascending,
    and exactly the keys of the grouped rows. *)
Lemma ordered_keys (keys : list (option Z)) :
  StronglySorted key_lt
    (sort (asc_leb Z.leb) (distinct (opt_eqb Z.eqb) keys))
  /\ forall k, In k (sort (asc_leb Z.leb) (distinct (opt_eqb Z.eqb) keys))
               <-> In k keys.
Proof.
  split.
  - eapply StronglySorted_refine with (P := fun _ => True);
      [intros a b _ _; apply key_order_strict | apply Forall_forall; auto |].
    apply sorted_NoDup_strict.
    + apply (sort_sorted (asc_leb Z.leb)).
      * apply asc_leb_total. intros a b H. apply Z.leb_le.
        apply Z.leb_gt in H. lia.
      * apply asc_leb_trans. intros a b c H1 H2.
        apply Z.leb_le in H1, H2. apply Z.leb_le. lia.
    + eapply Permutation_NoDup; [apply sort_perm |].
      apply NoDup_distinct, opt_Z_eqb_spec.
  - intros k. rewrite in_sort. apply in_distinct, opt_Z_eqb_spec.
Qed.

(** A query of the shape [SELECT key, aggregates ... GROUP BY key ORDER BY
    key]: one row per key, in ascending order of the key, each built from
    the rows that carry its key. *)
Lemma grouped_query {A R : Type} (key : A -> option Z) (row_key : R -> option Z)
    (mk : option Z * list A -> R) (l : list A) :
  (forall g, row_key (mk g) = fst g) ->
  let result :=
    sort (fun a b => asc_leb Z.leb (row_key a) (row_key b))
      (map mk (group_by (opt_eqb Z.eqb) key l)) in
  StronglySorted (fun a b => key_lt (row_key a) (row_key b)) result
  /\ (forall k, In k (map row_key result) <-> In k (map key l))
  /\ Forall (fun row =>
               row = mk (row_key row,
                         filter (fun r => opt_eqb Z.eqb (key r) (row_key row)) l)
               /\ In (row_key row) (map key l))
            result.
Proof.
  intros Hkey result.
  assert (Hkeys : map row_key result
                  = sort (asc_leb Z.leb)
                      (distinct (opt_eqb Z.eqb) (map key l))).
  { unfold result. rewrite (sort_map row_key (asc_leb Z.leb)), map_map.
    rewrite <- (map_fst_group_by (opt_eqb Z.eqb) key l).
    f_equal. apply map_ext. intros g. apply Hkey. }
  destruct (ordered_keys (map key l)) as [Hs Hin].
  split; [apply StronglySorted_map; rewrite Hkeys; exact Hs |].
  split; [intros k; rewrite Hkeys; apply Hin |].
  rewrite Forall_forall. intros row Hrow. unfold result in Hrow.
  apply in_sort, in_map_iff in Hrow. destruct Hrow as (g & <- & Hg).
  apply (in_group_by _ opt_Z_eqb_spec) in Hg as [Hk Hrows].
  rewrite Hkey. split; [| exact Hk].
  f_equal. destruct g as [k rows]. simpl in *. now subst.
Qed.
End GroupedResults.

(** ** Snapshot: the annual summary, year by year *)

Section AnnualRows.
Import Calendar SQL Frame Snapshot Spec.

Lemma year_rows_before_2025 (y : Z) (weather : list Row) :
  y < 2025 ->
  filter (fun r => opt_eqb Z.eqb (Year r) (Some y)) (filter year_lt_2025 weather)
  = filter (in_year y) weather.
Proof.
  intros Hy. rewrite filter_filter. apply filter_ext. intros r.
  unfold in_year, year_lt_2025. destruct (Year r) as [x |]; simpl; [| reflexivity].
  destruct (Z.eqb_spec x y) as [-> | _]; simpl; [| reflexivity].
  now apply Z.ltb_lt.
Qed.

Lemma year_key_before_2025 (k : option Z) (weather : list Row) :
  In k (map Year (filter year_lt_2025 weather)) <->
  exists y, k = Some y /\ y < 2025
            /\ exists r, In r weather /\ Year r = Some y.
Proof.
  rewrite in_map_iff. split.
  - intros (r & <- & Hr). apply filter_In in Hr as [Hin Hlt].
    unfold year_lt_2025 in Hlt. destruct (Year r) as [y |] eqn:E;
      [| discriminate].
    exists y. split; [reflexivity |]. split; [now apply Z.ltb_lt |].
    now exists r.
  - intros (y & -> & Hy & r & Hin & E). exists r. split; [exact E |].
    apply filter_In. split; [exact Hin |]. unfold year_lt_2025.
    rewrite E. now apply Z.ltb_lt.
Qed.

(** X1.  The annual results hold one row for each year before 2025 that has a
    row in the table, in ascending order of the year; the row carries the
    average of that year's TAVG readings (the total of its PRCP readings),
    missing readings skipped, and a null aggregate when the year has no
    reading at all. *)
Theorem annual_summary_row_per_year (weather : list Row) :
  (StronglySorted (fun a b => key_lt (aa_Year a) (aa_Year b))
     (annual_avg_sql weather)
   /\ StronglySorted (fun a b => key_lt (at_Year a) (at_Year b))
        (annual_total_prcp weather))
  /\ (forall y,
        (y < 2025 /\ exists r, In r weather /\ Year r = Some y)
        <-> In (Some y) (map aa_Year (annual_avg_sql weather)))
  /\ (forall y,
        (y < 2025 /\ exists r, In r weather /\ Year r = Some y)
        <-> In (Some y) (map at_Year (annual_total_prcp weather)))
  /\ Forall (fun row =>
               exists y, aa_Year row = Some y
                         /\ avg_temp row
                            = AVG (map TAVG (filter (in_year y) weather)))
            (annual_avg_sql weather)
  /\ Forall (fun row =>
               exists y, at_Year row = Some y
                         /\ Total_Precipitation row
                            = SUM (map PRCP (filter (in_year y) weather)))
            (annual_total_prcp weather).
Proof.
  pose proof (grouped_query Year aa_Year
                (fun g => {| aa_Year := fst g;
                             avg_temp := AVG (map TAVG (snd g)) |})
                (filter year_lt_2025 weather) (fun g => eq_refl))
    as (Hs1 & Hk1 & Hr1).
  pose proof (grouped_query Year at_Year
                (fun g => {| at_Year := fst g;
                             Total_Precipitation := SUM (map PRCP (snd g)) |})
                (filter year_lt_2025 weather) (fun g => eq_refl))
    as (Hs2 & Hk2 & Hr2).
  fold (annual_avg_sql weather) in Hs1, Hk1, Hr1.
  fold (annual_total_prcp weather) in Hs2, Hk2, Hr2.
  split; [now split |].
  split.
  { intros y. rewrite Hk1, year_key_before_2025. split.
    - intros [Hy Hr]. now exists y.
    - intros (y' & E & Hy & Hr). injection E as <-. now split. }
  split.
  { intros y. rewrite Hk2, year_key_before_2025. split.
    - intros [Hy Hr]. now exists y.
    - intros (y' & E & Hy & Hr). injection E as <-. now split. }
  split.
  - eapply Forall_impl; [| exact Hr1]. simpl. intros row [Erow Hin].
    apply year_key_before_2025 in Hin as (y & Ey & Hy & _).
    exists y. split; [exact Ey |]. rewrite Erow at 1. simpl.
    rewrite Ey, (year_rows_before_2025 y weather Hy). reflexivity.
  - eapply Forall_impl; [| exact Hr2]. simpl. intros row [Erow Hin].
    apply year_key_before_2025 in Hin as (y & Ey & Hy & _).
    exists y. split; [exact Ey |]. rewrite Erow at 1. simpl.
    rewrite Ey, (year_rows_before_2025 y weather Hy). reflexivity.
Qed.
End AnnualRows.

(** ** Snapshot: the monthly precipitation and temperature averages *)

Section MonthlyAverages.
Import Calendar SQL Frame Snapshot Spec.
Local Open Scope Q_scope.

Lemma Qsum_app (a b : list Q) : Qsum (a ++ b) == Qsum a + Qsum b.
Proof.
  induction a as [| x t IH]; simpl; [now rewrite Qplus_0_l |].
  rewrite IH. ring.
Qed.

Lemma Qsum_map_ext {A : Type} (f g : A -> Q) (l : list A) :
  (forall x, In x l -> f x == g x) -> Qsum (map f l) == Qsum (map g l).
Proof.
  induction l as [| x t IH]; intros H; simpl; [reflexivity |].
  rewrite (H x (or_introl eq_refl)), IH; [reflexivity |].
  intros y Hy. apply H. now right.
Qed.

Lemma Qsum_cons (x : Q) (l : list Q) : Qsum (x :: l) = x + Qsum l.
Proof. reflexivity. Qed.

Lemma non_null_cons {A : Type} (x : option A) (l : list (option A)) :
  non_null (x :: l)
  = match x with Some v => [v] | None => [] end ++ non_null l.
Proof. reflexivity. Qed.

(** A sum over distinct keys, with one key set apart. *)
Lemma Qsum_key_apart (g : Z -> Q) (y0 : Z) (ks : list Z) :
  NoDup ks ->
  Qsum (map g ks)
  == (if existsb (Z.eqb y0) ks then g y0 else 0)
     + Qsum (map g (filter (fun y => negb (y0 =? y)%Z) ks)).
Proof.
  induction 1 as [| k t Hk Hn IH]; simpl; [now rewrite Qplus_0_l |].
  destruct (Z.eqb_spec y0 k) as [<- | Hne]; simpl.
  - rewrite IH.
    assert (E : existsb (Z.eqb y0) t = false).
    { destruct (existsb (Z.eqb y0) t) eqn:E; [| reflexivity].
      apply existsb_exists in E as (z & Hz & Ez). apply Z.eqb_eq in Ez.
      subst z. contradiction. }
    rewrite E. ring.
  - rewrite IH. ring.
Qed.

Lemma no_reading_in_absent_year (y : Z) (rows : list Row) :
  existsb (Z.eqb y) (distinct Z.eqb (non_null (map Year rows))) = false ->
  filter (in_year y) rows = [].
Proof.
  intros H. apply filter_none. intros r Hr. unfold in_year.
  destruct (Year r) as [x |] eqn:E; [| reflexivity]. simpl.
  destruct (Z.eqb_spec x y) as [-> | _]; [| reflexivity].
  assert (Hin : In y (distinct Z.eqb (non_null (map Year rows)))).
  { apply (in_distinct Z.eqb Z.eqb_eq). unfold non_null. apply in_flat_map.
    exists (Some y). split; [rewrite <- E; now apply in_map | now left]. }
  assert (Hex : existsb (Z.eqb y) (distinct Z.eqb (non_null (map Year rows)))
                = true).
  { apply existsb_exists. exists y. split; [exact Hin | apply Z.eqb_refl]. }
  congruence.
Qed.

(** The readings of a table whose rows all have a year add up year by
    year. *)
Lemma readings_by_year (rows : list Row) :
  (forall r, In r rows -> Year r <> None) ->
  Qsum (non_null (map PRCP rows))
  == Qsum (map (fun y => Qsum (non_null (map PRCP (filter (in_year y) rows))))
               (distinct Z.eqb (non_null (map Year rows)))).
Proof.
  induction rows as [| r t IH]; intros Hy; [reflexivity |].
  destruct (Year r) as [y0 |] eqn:Ey;
    [| destruct (Hy r (or_introl eq_refl) Ey)].
  assert (IHt := IH (fun x Hx => Hy x (or_intror Hx))). clear IH.
  set (g := fun y => Qsum (non_null (map PRCP (filter (in_year y) t)))) in *.
  set (kt := distinct Z.eqb (non_null (map Year t))) in *.
  assert (Ekeys : distinct Z.eqb (non_null (map Year (r :: t)))
                  = y0 :: filter (fun y => negb (y0 =? y)%Z) kt).
  { simpl. rewrite Ey. reflexivity. }
  assert (Ehead : filter (in_year y0) (r :: t) = r :: filter (in_year y0) t).
  { simpl. unfold in_year at 1. rewrite Ey. simpl. now rewrite Z.eqb_refl. }
  assert (Erest : Qsum (map (fun y => Qsum (non_null (map PRCP
                                       (filter (in_year y) (r :: t)))))
                            (filter (fun y => negb (y0 =? y)%Z) kt))
                  == Qsum (map g (filter (fun y => negb (y0 =? y)%Z) kt))).
  { apply Qsum_map_ext. intros y Hin. apply filter_In in Hin as [_ Hne].
    simpl. unfold in_year at 1. rewrite Ey. simpl.
    apply negb_true_iff in Hne. rewrite Hne.
    reflexivity. }
  rewrite (Qsum_key_apart g y0 kt) in IHt
    by (apply NoDup_distinct, Z.eqb_eq).
  assert (Eg : (if existsb (Z.eqb y0) kt then g y0 else 0) == g y0).
  { destruct (existsb (Z.eqb y0) kt) eqn:E; [reflexivity |].
    unfold g. rewrite (no_reading_in_absent_year y0 t E). reflexivity. }
  rewrite Eg in IHt.
  rewrite Ekeys, !map_cons, Qsum_cons, Erest. cbv beta. rewrite Ehead.
  rewrite !map_cons, !non_null_cons, !Qsum_app, IHt. unfold g. ring.
Qed.

Lemma loaded_row_dated (csv : DataFrame) (r : Row) :
  In r (weather csv) -> exists d, Date r = Some d.
Proof.
  unfold weather, load_data. simpl. intros H. apply filter_In in H as [_ H].
  apply date_ge_spec in H as (d & E & _). now exists d.
Qed.

Lemma month_group_rows (m : Z) (weather : list Row) :
  filter (fun r => opt_eqb Z.eqb (EXTRACT month_of (Date r)) (Some m))
    (filter (fun r => is_not_null (PRCP r)) weather)
  = month_readings m weather.
Proof. rewrite filter_filter. reflexivity. Qed.

Lemma month_key_present (k : option Z) (csv : DataFrame) :
  In k (map (fun r => EXTRACT month_of (Date r))
          (filter (fun r => is_not_null (PRCP r)) (weather csv))) <->
  exists m, k = Some m /\ (1 <= m <= 12)%Z
            /\ month_readings m (weather csv) <> [].
Proof.
  rewrite in_map_iff. split.
  - intros (r & <- & Hr). pose proof Hr as Hf.
    apply filter_In in Hr as [Hin Hnn].
    destruct (loaded_row_dated csv r Hin) as (d & Ed). rewrite Ed. simpl.
    exists (month_of d). split; [reflexivity |].
    split; [apply month_of_range |].
    intros E.
    assert (Hm : In r (month_readings (month_of d) (weather csv))).
    { apply filter_In. split; [exact Hin |]. unfold Month. rewrite Ed. simpl.
      now rewrite Z.eqb_refl, Hnn. }
    rewrite E in Hm. exact Hm.
  - intros (m & -> & _ & Hne).
    destruct (month_readings m (weather csv)) as [| r t] eqn:E;
      [contradiction |].
    assert (Hr : In r (month_readings m (weather csv))) by (rewrite E; now left).
    apply filter_In in Hr as [Hin Hp]. apply andb_true_iff in Hp as [Hm Hnn].
    exists r. split; [now apply opt_Z_eqb_spec |].
    apply filter_In. now split.
Qed.

(** X2.  On a loaded table the monthly precipitation chart has one row per
    calendar month that has a reading, in ascending order of the month, and
    the row's value is the mean over the years with a reading in that month
    of the year's total for the month: the divisor counts years, not
    days. *)
Theorem monthly_avg_precip_mean_of_yearly_totals (csv : DataFrame) :
  StronglySorted (fun a b => key_lt (mp_Month a) (mp_Month b))
    (monthly_avg_precip (weather csv))
  /\ (forall m,
        In (Some m) (map mp_Month (monthly_avg_precip (weather csv)))
        <-> ((1 <= m <= 12)%Z /\ month_readings m (weather csv) <> []))
  /\ Forall (fun row =>
               exists m v,
                 mp_Month row = Some m /\ (1 <= m <= 12)%Z
                 /\ Average_Precipitation row = Some v
                 /\ years_with_reading m (weather csv) <> []
                 /\ v == mean (map (fun y => year_total m y (weather csv))
                                   (years_with_reading m (weather csv))))
            (monthly_avg_precip (weather csv)).
Proof.
  pose proof (grouped_query (fun r => EXTRACT month_of (Date r)) mp_Month
                (fun g =>
                   {| mp_Month := fst g;
                      Average_Precipitation :=
                        match SUM (map PRCP (snd g)) with
                        | Some total =>
                            div_count total
                              (COUNT_DISTINCT
                                 (map (fun r => EXTRACT year_of (Date r)) (snd g)))
                        | None => None
                        end |})
                (filter (fun r => is_not_null (PRCP r)) (weather csv))
                (fun g => eq_refl))
    as (Hs & Hk & Hr).
  fold (monthly_avg_precip (weather csv)) in Hs, Hk, Hr.
  split; [exact Hs |]. split.
  { intros m. rewrite Hk, month_key_present. split.
    - intros (m' & E & Hm & Hne). injection E as <-. now split.
    - intros [Hm Hne]. now exists m. }
  eapply Forall_impl; [| exact Hr]. simpl. intros row [Erow Hin].
  apply month_key_present in Hin as (m & Ek & Hm & Hne).
  exists m. rewrite Erow. simpl. rewrite Ek, month_group_rows.
  set (rows := month_readings m (weather csv)) in *.
  assert (Hrows : forall r, In r rows ->
                    is_not_null (PRCP r) = true /\ Year r <> None).
  { intros r Hr'. apply filter_In in Hr' as [Hin Hp].
    apply andb_true_iff in Hp as [_ Hnn]. split; [exact Hnn |].
    destruct (loaded_row_dated csv r Hin) as (d & Ed).
    unfold Year. rewrite Ed. discriminate. }
  assert (Hyears : years_with_reading m (weather csv) <> []).
  { unfold years_with_reading. fold rows.
    destruct rows as [| r t]; [contradiction |].
    destruct (Hrows r (or_introl eq_refl)) as [_ Hy]. simpl.
    destruct (Year r); [discriminate | contradiction]. }
  assert (Hsum : SUM (map PRCP rows) = Some (Qsum (non_null (map PRCP rows)))).
  { unfold SUM.
    pose proof (non_null_present PRCP rows Hne (fun r Hr' => proj1 (Hrows r Hr')))
      as Hnn.
    destruct (non_null (map PRCP rows)); [contradiction | reflexivity]. }
  rewrite Hsum. unfold div_count, COUNT_DISTINCT.
  change (map (fun r => EXTRACT year_of (Date r)) rows) with (map Year rows).
  change (distinct Z.eqb (non_null (map Year rows)))
    with (years_with_reading m (weather csv)).
  set (ys := years_with_reading m (weather csv)) in *.
  destruct (Z.eqb_spec (Z.of_nat (List.length ys)) 0) as [E0 | Hn0].
  { destruct ys; [contradiction | discriminate E0]. }
  eexists. split; [reflexivity |]. split; [exact Hm |].
  split; [reflexivity |]. split; [exact Hyears |].
  unfold mean, Qcount. rewrite length_map.
  rewrite (readings_by_year rows (fun r Hr' => proj2 (Hrows r Hr'))).
  reflexivity.
Qed.
End MonthlyAverages.

(** ** Snapshot: the ranked months *)

Section RankedMonths.
Import Calendar SQL Frame Snapshot Spec.

Lemma year_month_eqb_spec (a b : option (Z * Z)) :
  year_month_eqb a b = true <-> a = b.
Proof.
  unfold year_month_eqb.
  destruct a as [[y m] |], b as [[y' m'] |]; simpl; split; intros H;
    try discriminate; try reflexivity.
  - apply andb_true_iff in H as [H1 H2]. apply Z.eqb_eq in H1, H2. now subst.
  - injection H as -> ->. now rewrite !Z.eqb_refl.
Qed.

Lemma NoDup_firstn {A : Type} (n : nat) (l : list A) :
  NoDup l -> NoDup (firstn n l).
Proof.
  intros H. revert n. induction H as [| x t Hx Ht IH]; intros [| n]; simpl;
    try constructor; [| apply IH].
  intros Hin. apply Hx. eapply in_firstn, Hin.
Qed.

Lemma non_null_filter_present (col : Row -> option Q) (l : list Row) :
  non_null (map col (filter (fun r => is_not_null (col r)) l))
  = non_null (map col l).
Proof.
  induction l as [| r t IH]; simpl; [reflexivity |].
  destruct (col r) as [v |] eqn:E; simpl; [| exact IH].
  rewrite E. simpl. now rewrite IH.
Qed.

(** The earliest date of a non-empty group of dated rows is the date of one
    of them, at or before every other. *)
Lemma MIN_date_spec (rows : list Row) :
  rows <> [] -> (forall r, In r rows -> Date r <> None) ->
  exists d, MIN_date (map Date rows) = Some d
            /\ (exists r, In r rows /\ Date r = Some d)
            /\ forall r d', In r rows -> Date r = Some d' -> d <= d'.
Proof.
  intros Hne Hd. unfold MIN_date.
  destruct (non_null (map Date rows)) as [| d0 ds] eqn:E.
  - destruct rows as [| r t]; [contradiction |].
    specialize (Hd r (or_introl eq_refl)). simpl in E.
    destruct (Date r); [discriminate E | contradiction].
  - destruct (fold_min_spec ds d0) as [Hin0 Hmin0].
    assert (Hin : In (fold_left Z.min ds d0) (non_null (map Date rows)))
      by (rewrite E; exact Hin0).
    assert (Hmin : forall x, In x (non_null (map Date rows)) ->
                             fold_left Z.min ds d0 <= x)
      by (rewrite E; exact Hmin0).
    eexists. split; [reflexivity |]. split.
    + apply in_non_null, in_map_iff in Hin. destruct Hin as (r & Er & Hr).
      now exists r.
    + intros r d' Hr Ed. apply Hmin, in_non_null. rewrite <- Ed.
      now apply in_map.
Qed.

Variable col : Row -> option Q.
Variable agg : list (option Q) -> option Q.
Variable leb : month_value -> month_value -> bool.

Hypothesis agg_present : forall l, non_null l <> [] -> agg l <> None.
Hypothesis agg_non_null :
  forall l l', non_null l = non_null l' -> agg l = agg l'.

Let mk (g : option (Z * Z) * list Row) : month_value :=
  {| SampleDate := MIN_date (map Date (snd g));
     mv_value := agg (map col (snd g)) |}.

Let groups (weather : list Row) : list (option (Z * Z) * list Row) :=
  group_by year_month_eqb (fun r => year_month (Date r))
    (filter (fun r => is_not_null (col r)) weather).

Lemma month_group (csv : DataFrame) (g : option (Z * Z) * list Row) :
  In g (groups (weather csv)) ->
  exists d,
    SampleDate (mk g) = Some d
    /\ year_month (Some d) = fst g
    /\ earliest_reading col (weather csv) d
    /\ mv_value (mk g) = agg (map col (filter (same_month d) (weather csv)))
    /\ mv_value (mk g) <> None.
Proof.
  intros Hg. unfold groups in Hg.
  pose proof (group_rows _ year_month_eqb_spec _ _ _ Hg) as [Hne Hall].
  apply (in_group_by _ year_month_eqb_spec) in Hg as [_ Hrows].
  rewrite Forall_forall in Hall.
  assert (Hin : forall r, In r (snd g) ->
                  In r (weather csv) /\ is_not_null (col r) = true
                  /\ year_month (Date r) = fst g /\ Date r <> None).
  { intros r Hr. destruct (Hall r Hr) as [Hf Hk].
    apply filter_In in Hf as [Hw Hnn]. repeat split; try assumption.
    destruct (loaded_row_dated csv r Hw) as (d & ->). discriminate. }
  destruct (MIN_date_spec (snd g) Hne (fun r Hr => proj2 (proj2 (proj2 (Hin r Hr)))))
    as (d & Ed & (r0 & Hr0 & Ed0) & Hmin).
  destruct (Hin r0 Hr0) as (Hw0 & Hnn0 & Hk0 & _).
  assert (Ekey : fst g = Some (year_of d, month_of d)).
  { rewrite <- Hk0, Ed0. reflexivity. }
  assert (Erows : snd g
                  = filter (fun r => is_not_null (col r))
                      (filter (same_month d) (weather csv))).
  { rewrite Hrows, Ekey, !filter_filter. apply filter_ext. intros r.
    unfold same_month. apply andb_comm. }
  exists d. simpl. split; [exact Ed |]. split; [now rewrite Ekey |]. split.
  - split; [now exists r0 |].
    intros r Hw Hsame Hnn.
    assert (Hr : In r (snd g)).
    { rewrite Erows. apply filter_In. split; [| exact Hnn].
      apply filter_In. now split. }
    destruct (loaded_row_dated csv r Hw) as (d' & Ed').
    exists d'. split; [exact Ed' |]. now apply (Hmin r d' Hr).
  - split.
    + rewrite Erows. apply agg_non_null, non_null_filter_present.
    + apply agg_present, non_null_present; [exact Hne |].
      intros r Hr. apply (Hin r Hr).
Qed.

Lemma ranked_months (csv : DataFrame) :
  let result := LIMIT 10 (sort leb (map mk (groups (weather csv)))) in
  (List.length result <= 10)%nat
  /\ Forall (fun row => mv_value row <> None) result
  /\ month_rows col agg (weather csv) result.
Proof.
  intros result.
  assert (Hrow : forall row, In row result ->
                   exists g, In g (groups (weather csv)) /\ row = mk g).
  { intros row Hrow. unfold result, LIMIT in Hrow.
    apply in_firstn, in_sort, in_map_iff in Hrow.
    destruct Hrow as (g & <- & Hg). now exists g. }
  split; [apply firstn_le_length |]. split; [| split].
  - rewrite Forall_forall. intros row Hin.
    destruct (Hrow row Hin) as (g & Hg & ->).
    destruct (month_group csv g Hg) as (d & _ & _ & _ & _ & H). exact H.
  - unfold result, LIMIT. rewrite <- firstn_map. apply NoDup_firstn.
    eapply Permutation_NoDup; [apply Permutation_map, sort_perm |].
    rewrite map_map.
    assert (E : map (fun g => year_month (SampleDate (mk g))) (groups (weather csv))
                = map fst (groups (weather csv))).
    { apply map_ext_in. intros g Hg.
      destruct (month_group csv g Hg) as (d & Ed & Ek & _). now rewrite Ed. }
    rewrite E. unfold groups. rewrite map_fst_group_by.
    apply NoDup_distinct, year_month_eqb_spec.
  - rewrite Forall_forall. intros row Hin.
    destruct (Hrow row Hin) as (g & Hg & ->).
    destruct (month_group csv g Hg) as (d & Ed & _ & He & Hv & _).
    now exists d.
Qed.
End RankedMonths.

Section TopMonths.
Import Calendar SQL Frame Snapshot Spec.

Lemma sort_desc_by {A : Type} (value : A -> option Q) (l : list A) :
  StronglySorted (fun a b => desc_leb Qle_bool (value a) (value b) = true)
    (sort (fun a b => desc_leb Qle_bool (value a) (value b)) l).
Proof.
  apply (sort_sorted (fun a b => desc_leb Qle_bool (value a) (value b))).
  - intros a b. apply desc_leb_total, Qle_bool_total.
  - intros a b c. apply desc_leb_trans, Qle_bool_trans.
Qed.

Lemma sort_asc_by {A : Type} (value : A -> option Q) (l : list A) :
  StronglySorted (fun a b => asc_leb Qle_bool (value a) (value b) = true)
    (sort (fun a b => asc_leb Qle_bool (value a) (value b)) l).
Proof.
  apply (sort_sorted (fun a b => asc_leb Qle_bool (value a) (value b))).
  - intros a b. apply asc_leb_total, Qle_bool_total.
  - intros a b c. apply asc_leb_trans, Qle_bool_trans.
Qed.

Lemma present_descending {A : Type} (value : A -> option Q) (l : list A) :
  Forall (fun r => value r <> None) l ->
  StronglySorted (fun a b => desc_leb Qle_bool (value a) (value b) = true) l ->
  descending_by value l.
Proof.
  intros Hn Hs. unfold descending_by.
  eapply StronglySorted_refine with (P := fun r => value r <> None);
    [| exact Hn | exact Hs].
  simpl. intros a b Ha Hb Hab.
  destruct (value a) as [x |]; [| contradiction].
  destruct (value b) as [y |]; [| contradiction].
  exists x, y. repeat split. now apply Qle_bool_iff.
Qed.

Lemma present_ascending {A : Type} (value : A -> option Q) (l : list A) :
  Forall (fun r => value r <> None) l ->
  StronglySorted (fun a b => asc_leb Qle_bool (value a) (value b) = true) l ->
  ascending_by value l.
Proof.
  intros Hn Hs. unfold ascending_by.
  eapply StronglySorted_refine with (P := fun r => value r <> None);
    [| exact Hn | exact Hs].
  simpl. intros a b Ha Hb Hab.
  destruct (value a) as [x |]; [| contradiction].
  destruct (value b) as [y |]; [| contradiction].
  exists x, y. repeat split. now apply Qle_bool_iff.
Qed.

Lemma AGG_present (f : list Q -> Q) (l : list (option Q)) :
  non_null l <> [] -> AGG f l <> None.
Proof.
  unfold AGG. destruct (non_null l); [contradiction | discriminate].
Qed.

Lemma AGG_non_null (f : list Q -> Q) (l l' : list (option Q)) :
  non_null l = non_null l' -> AGG f l = AGG f l'.
Proof. unfold AGG. now intros ->. Qed.

(** In exact arithmetic the aggregate is the rounded mean. *)
Lemma AGG_exact_round_avg (l : list (option Q)) :
  AGG exact_round_avg l = option_map ROUND1 (AVG l).
Proof. unfold AGG, AVG, exact_round_avg. now destruct (non_null l). Qed.

Lemma SUM_present (l : list (option Q)) : non_null l <> [] -> SUM l <> None.
Proof.
  unfold SUM. destruct (non_null l); [contradiction | discriminate].
Qed.

Lemma SUM_non_null (l l' : list (option Q)) :
  non_null l = non_null l' -> SUM l = SUM l'.
Proof. unfold SUM. now intros ->. Qed.

(** X3.  On a loaded table each of the three top-ten month lists (warmest and
    coldest by the month's average temperature rounded to one decimal,
    wettest by the month's total precipitation) has at most ten rows,
    sorted by its value in its direction, none null; every row stands for a
    different calendar month, is dated by the earliest reading of that
    month and carries the value of that month's readings.  The rounded
    average is the engine's: the theorem holds for whatever the engine's
    arithmetic makes of [ROUND(AVG(x), 1)] on the readings. *)
Theorem top_extreme_months_ranked (round_avg : list Q -> Q) (csv : DataFrame) :
  ((List.length (warmest_months round_avg (weather csv)) <= 10)%nat
   /\ descending_by mv_value (warmest_months round_avg (weather csv))
   /\ month_rows TAVG (AGG round_avg) (weather csv)
        (warmest_months round_avg (weather csv)))
  /\ ((List.length (coldest_months round_avg (weather csv)) <= 10)%nat
      /\ ascending_by mv_value (coldest_months round_avg (weather csv))
      /\ month_rows TAVG (AGG round_avg) (weather csv)
           (coldest_months round_avg (weather csv)))
  /\ ((List.length (wettest_months (weather csv)) <= 10)%nat
      /\ descending_by mv_value (wettest_months (weather csv))
      /\ month_rows PRCP SUM (weather csv) (wettest_months (weather csv))).
Proof.
  split; [| split].
  - destruct (ranked_months TAVG (AGG round_avg)
                (fun a b => desc_leb Qle_bool (mv_value a) (mv_value b))
                (AGG_present round_avg) (AGG_non_null round_avg) csv)
      as (Hlen & Hnn & Hrows).
    split; [exact Hlen |]. split; [| exact Hrows].
    apply present_descending; [exact Hnn |].
    apply StronglySorted_firstn, sort_desc_by.
  - destruct (ranked_months TAVG (AGG round_avg)
                (fun a b => asc_leb Qle_bool (mv_value a) (mv_value b))
                (AGG_present round_avg) (AGG_non_null round_avg) csv)
      as (Hlen & Hnn & Hrows).
    split; [exact Hlen |]. split; [| exact Hrows].
    apply present_ascending; [exact Hnn |].
    apply StronglySorted_firstn, sort_asc_by.
  - destruct (ranked_months PRCP SUM
                (fun a b => desc_leb Qle_bool (mv_value a) (mv_value b))
                SUM_present SUM_non_null csv)
      as (Hlen & Hnn & Hrows).
    split; [exact Hlen |]. split; [| exact Hrows].
    apply present_descending; [exact Hnn |].
    apply StronglySorted_firstn, sort_desc_by.
Qed.
End TopMonths.

(** ** The loaders, once more *)

Section LoadTwice.
Import Calendar SQL Frame Spec.
Local Open Scope string_scope.

Lemma lstrip_fixed (t : string) :
  (forall c t', t = String c t' -> is_space c = false) -> lstrip t = t.
Proof.
  destruct t as [| c t']; [reflexivity |]. intros H. simpl.
  now rewrite (H c t' eq_refl).
Qed.

Lemma rstrip_rstrip (s : string) : rstrip (rstrip s) = rstrip s.
Proof.
  induction s as [| c s IH]; [reflexivity |]. simpl.
  destruct (rstrip s) as [| b u] eqn:E.
  - destruct (is_space c) eqn:Ec; [reflexivity |]. simpl. now rewrite Ec.
  - change (rstrip (String c (String b u)))
      with (match rstrip (String b u) with
            | "" => if is_space c then "" else String c ""
            | t => String c t
            end).
    rewrite IH. reflexivity.
Qed.

(** Stripping a stripped label changes nothing. *)
Lemma strip_strip (s : string) : strip (strip s) = strip s.
Proof.
  destruct (strip_trimmed s) as [_ [Hhead _]].
  unfold strip at 1. rewrite (lstrip_fixed (strip s) Hhead).
  unfold strip. apply rstrip_rstrip.
Qed.

Lemma filter_twice {A : Type} (p : A -> bool) (l : list A) :
  filter p (filter p l) = filter p l.
Proof.
  rewrite filter_filter. apply filter_ext. intros x. apply andb_diag.
Qed.

(** X4.  Loading is idempotent: a frame that was loaded comes out of any of the
    three loaders as it went in. *)
Theorem load_data_idempotent (csv : DataFrame) :
  Snapshot.load_data (Snapshot.load_data csv) = Snapshot.load_data csv
  /\ HolidayOutlook.load_data (Snapshot.load_data csv) = Snapshot.load_data csv
  /\ ClimateHistoryByDay.load_data (Snapshot.load_data csv)
     = Snapshot.load_data csv.
Proof.
  assert (E : Snapshot.load_data (Snapshot.load_data csv)
              = Snapshot.load_data csv).
  { unfold Snapshot.load_data. simpl. f_equal.
    - rewrite map_map. apply map_ext. intros s. apply strip_strip.
    - apply filter_twice. }
  split; [exact E |]. split; exact E.
Qed.

(** X5.  The decade of a row is the multiple of ten at or below its year, less
    than ten years away. *)
Theorem decade_of_year (r : Row) :
  match Decade r with
  | Some dec =>
      exists y, Year r = Some y /\ (dec <= y < dec + 10)%Z /\ (dec mod 10 = 0)%Z
  | None => Date r = None
  end.
Proof.
  unfold Decade, Year. destruct (Date r) as [d |]; simpl; [| reflexivity].
  exists (year_of d). split; [reflexivity |].
  Z.div_mod_to_equations. lia.
Qed.
End LoadTwice.

(** ** Snapshot: the ranked days are the extreme ones *)

Section ExtremeDays.
Import Calendar SQL Frame Snapshot Spec.

(** The first rows of a sorted list come before all the others. *)
Lemma firstn_before_rest {A : Type} (R : A -> A -> Prop) (n : nat) (l : list A) :
  StronglySorted R l ->
  forall x y, In x (firstn n l) -> In y (skipn n l) -> R x y.
Proof.
  intros Hs x y Hx Hy. rewrite <- (firstn_skipn n l) in Hs.
  apply StronglySorted_app in Hs as (_ & _ & H). now apply H.
Qed.

(** Of a ranked list, every candidate is in the list or ranks no better
    than each row of the list. *)
Lemma ranked_extreme {A : Type} (leb : A -> A -> bool) (n : nat)
    (candidates : list A) (c : A) :
  (forall a b, leb a b = false -> leb b a = true) ->
  (forall a b c, leb a b = true -> leb b c = true -> leb a c = true) ->
  In c candidates ->
  In c (firstn n (sort leb candidates))
  \/ forall x, In x (firstn n (sort leb candidates)) -> leb x c = true.
Proof.
  intros Htot Htrans Hc.
  apply (in_sort leb) in Hc. rewrite <- (firstn_skipn n (sort leb candidates)) in Hc.
  apply in_app_or in Hc as [Hc | Hc]; [now left | right].
  intros x Hx.
  apply (firstn_before_rest (fun a b => leb a b = true) n (sort leb candidates));
    [| exact Hx | exact Hc].
  now apply sort_sorted.
Qed.

(** X6.  The top-ten lists hold the extreme days: a day of the table with a
    reading is in the list or is no warmer (no colder, no wetter) than every
    day listed. *)
Theorem top_extreme_days_are_extreme (weather : list Row) (r : Row) (v : Q) :
  In r weather ->
  (TMAX r = Some v ->
   In {| dv_Date := Date r; dv_value := TMAX r |} (warmest_days weather)
   \/ Forall (fun x => exists a, dv_value x = Some a /\ (v <= a)%Q)
             (warmest_days weather))
  /\ (TMIN r = Some v ->
      In {| dv_Date := Date r; dv_value := TMIN r |} (coldest_days weather)
      \/ Forall (fun x => exists a, dv_value x = Some a /\ (a <= v)%Q)
                (coldest_days weather))
  /\ (PRCP r = Some v ->
      In {| dv_Date := Date r; dv_value := PRCP r |} (wettest_days weather)
      \/ Forall (fun x => exists a, dv_value x = Some a /\ (v <= a)%Q)
                (wettest_days weather)).
Proof.
  intros Hr.
  assert (Hcand : forall col, col r = Some v ->
            In {| dv_Date := Date r; dv_value := col r |}
               (map (fun r => {| dv_Date := Date r; dv_value := col r |})
                  (filter (fun r => is_not_null (col r)) weather))).
  { intros col E. apply in_map_iff. exists r. split; [reflexivity |].
    apply filter_In. split; [exact Hr |]. now rewrite E. }
  assert (Hdesc : forall col, col r = Some v ->
            let result :=
              LIMIT 10
                (sort (fun a b => desc_leb Qle_bool (dv_value a) (dv_value b))
                   (map (fun r => {| dv_Date := Date r; dv_value := col r |})
                      (filter (fun r => is_not_null (col r)) weather))) in
            In {| dv_Date := Date r; dv_value := col r |} result
            \/ Forall (fun x => exists a, dv_value x = Some a /\ (v <= a)%Q)
                      result).
  { intros col E result.
    destruct (ranked_extreme
                (fun a b => desc_leb Qle_bool (dv_value a) (dv_value b)) 10 _ _
                (fun a b => desc_leb_total Qle_bool Qle_bool_total _ _)
                (fun a b c => desc_leb_trans Qle_bool Qle_bool_trans _ _ _)
                (Hcand col E)) as [Hin | Hle]; [now left | right].
    rewrite Forall_forall. intros x Hx. specialize (Hle x Hx).
    simpl in Hle. rewrite E in Hle.
    destruct (dv_value x) as [a |]; [| discriminate Hle].
    exists a. split; [reflexivity |]. now apply Qle_bool_iff. }
  split; [exact (Hdesc TMAX) |]. split; [| exact (Hdesc PRCP)].
  intros E.
  destruct (ranked_extreme
              (fun a b => asc_leb Qle_bool (dv_value a) (dv_value b)) 10 _ _
              (fun a b => asc_leb_total Qle_bool Qle_bool_total _ _)
              (fun a b c => asc_leb_trans Qle_bool Qle_bool_trans _ _ _)
              (Hcand TMIN E)) as [Hin | Hle]; [now left | right].
  rewrite Forall_forall. intros x Hx.
  pose proof (ranked_no_null (fun a b => asc_leb Qle_bool (dv_value a) (dv_value b))
                TMIN weather) as Hnn.
  unfold no_null_value in Hnn. rewrite Forall_forall in Hnn.
  specialize (Hnn x Hx). specialize (Hle x Hx).
  simpl in Hle. rewrite E in Hle.
  destruct (dv_value x) as [a |]; [| contradiction].
  exists a. split; [reflexivity |]. now apply Qle_bool_iff.
Qed.
End ExtremeDays.

(** ** Climate history: the per-calendar-day summary *)

Section DaySummary.
Import Calendar SQL Frame ClimateHistoryByDay Spec.

Lemma firstn_1_cases {A : Type} (l : list A) :
  (l = [] /\ firstn 1 l = []) \/ (exists x t, l = x :: t /\ firstn 1 l = [x]).
Proof. destruct l as [| x t]; [now left | right; now exists x, t]. Qed.

(** The row that dates a record: the first matching row whose reading
    equals the record; there is one exactly when the column has a
    reading. *)
Lemma record_date (col : Row -> option Q) (extreme : option Q)
    (filtered : list Row) :
  (match extreme with
   | Some m => In (Some m) (map col filtered)
   | None => forall v, ~ In (Some v) (map col filtered)
   end) ->
  match LIMIT 1 (map Date (filter (fun r => eq_opt (col r) extreme) filtered)) with
  | [] => forall r, In r filtered -> col r = None
  | [h] => exists r, In r filtered /\ Date r = h
                     /\ eq_opt (col r) extreme = true
  | _ => False
  end.
Proof.
  intros Hext. unfold LIMIT.
  destruct (firstn_1_cases
              (map Date (filter (fun r => eq_opt (col r) extreme) filtered)))
    as [[E ->] | (h & t & E & ->)].
  - intros r Hr. destruct (col r) as [v |] eqn:Ev; [exfalso | reflexivity].
    destruct extreme as [m |].
    + apply in_map_iff in Hext as (r0 & E0 & Hr0).
      assert (Hin : In r0 (filter (fun r => eq_opt (col r) (Some m)) filtered)).
      { apply filter_In. split; [exact Hr0 |]. rewrite E0. simpl.
        apply Qeq_bool_refl. }
      apply (in_map Date) in Hin. rewrite E in Hin. exact Hin.
    + apply (Hext v). rewrite <- Ev. now apply in_map.
  - assert (Hin : In h (map Date (filter (fun r => eq_opt (col r) extreme)
                                    filtered)))
      by (rewrite E; now left).
    apply in_map_iff in Hin as (r & Ed & Hr). apply filter_In in Hr as [Hr He].
    now exists r.
Qed.

Lemma desc_leb_refl (a : option Q) : desc_leb Qle_bool a a = true.
Proof.
  destruct a as [x |]; simpl; [| reflexivity].
  apply Qle_bool_iff, Qle_refl.
Qed.

(** The row of the biggest swing: first in descending order of the swing,
    a row without one ranking last. *)
Lemma biggest_swing_first (filtered : list Row) :
  match biggest_swing filtered with
  | [] => filtered = []
  | [b] => In b filtered
           /\ forall r, In r filtered ->
                        desc_leb Qle_bool (swing b) (swing r) = true
  | _ => False
  end.
Proof.
  unfold biggest_swing, LIMIT.
  set (leb := fun a b => desc_leb Qle_bool (swing a) (swing b)).
  pose proof (sort_sorted leb
                (fun a b => desc_leb_total Qle_bool Qle_bool_total _ _)
                (fun a b c => desc_leb_trans Qle_bool Qle_bool_trans _ _ _)
                filtered) as Hs.
  destruct (firstn_1_cases (sort leb filtered)) as [[E ->] | (b & t & E & ->)].
  - apply (f_equal (@List.length _)) in E. rewrite length_sort in E.
    destruct filtered; [reflexivity | discriminate E].
  - rewrite E in Hs. apply StronglySorted_inv in Hs as [_ Hb].
    rewrite Forall_forall in Hb. split.
    + apply (in_sort leb). rewrite E. now left.
    + intros r Hr. apply (in_sort leb) in Hr. rewrite E in Hr.
      destruct Hr as [<- | Hr]; [apply desc_leb_refl | now apply Hb].
Qed.

(** X7.  The per-calendar-day result has at most one row.  It has one exactly
    when some matching day has a maximum and some matching day has a
    minimum temperature; the row then carries the record high and the
    record low of the matching days, the dates of a matching day at the
    record high and of one at the record low, and a matching day whose
    swing no other exceeds. *)
Theorem day_summary_one_row_or_none (month_num selected_day : Z)
    (weather : list Row) :
  let matching := filtered_data month_num selected_day weather in
  match day_summary month_num selected_day weather with
  | [] => (forall r, In r matching -> TMAX r = None)
          \/ (forall r, In r matching -> TMIN r = None)
  | [(s, h, l, b)] =>
      Record_High s = MAX (map TMAX matching)
      /\ Record_Low s = MIN (map TMIN matching)
      /\ (exists r, In r matching /\ Date r = h
                    /\ eq_opt (TMAX r) (Record_High s) = true)
      /\ (exists r, In r matching /\ Date r = l
                    /\ eq_opt (TMIN r) (Record_Low s) = true)
      /\ In b matching
      /\ (forall r, In r matching ->
                    desc_leb Qle_bool (swing b) (swing r) = true)
  | _ => False
  end.
Proof.
  intros matching. unfold day_summary. fold matching.
  pose proof (record_date TMAX (MAX (map TMAX matching)) matching) as Hh.
  pose proof (record_date TMIN (MIN (map TMIN matching)) matching) as Hl.
  pose proof (biggest_swing_first matching) as Hb.
  fold (high_date matching) in Hh. fold (low_date matching) in Hl.
  assert (Hmax := MAX_attained (map TMAX matching)).
  assert (Hmin := MIN_attained (map TMIN matching)).
  assert (Hh' := Hh ltac:(destruct (MAX (map TMAX matching));
                          [apply Hmax | exact Hmax])).
  assert (Hl' := Hl ltac:(destruct (MIN (map TMIN matching));
                          [apply Hmin | exact Hmin])).
  clear Hh Hl.
  destruct (high_date matching) as [| h [| h2 th]]; simpl;
    [now left | | destruct Hh'].
  destruct (low_date matching) as [| l [| l2 tl]]; simpl;
    [now right | | destruct Hl'].
  destruct (biggest_swing matching) as [| b [| b2 tb]]; simpl.
  - left. rewrite Hb. intros r [].
  - destruct Hb as [Hbin Hbmax]. now repeat split.
  - destruct Hb.
Qed.

Lemma day_in_month_bound (d : date) :
  1 <= month_of d <= 12
  /\ 1 <= day_of d
     <= (if month_of d =? 2 then 29 else days_in_month_table (month_of d)).
Proof.
  unfold month_of, day_of. pose proof (ord2ymd_sound d) as H.
  destruct (ord2ymd d) as [[y m] dd]. simpl. destruct H as (_ & Hm & Hd).
  split; [exact Hm |]. unfold days_in_month in Hd.
  destruct (Z.eqb_spec m 2) as [-> | _]; simpl in Hd;
    [destruct (is_leap y); simpl in Hd |]; lia.
Qed.

(** X8.  A day the calendar does not have (February 30, April 31, ...) has no
    row in any table: the page reports that it has no data. *)
Theorem day_summary_impossible_day (month_num selected_day : Z)
    (weather : list Row) :
  ~ (1 <= month_num <= 12
     /\ 1 <= selected_day
        <= (if month_num =? 2 then 29 else days_in_month_table month_num)) ->
  filtered_data month_num selected_day weather = []
  /\ day_summary month_num selected_day weather = [].
Proof.
  intros Himp.
  assert (E : filtered_data month_num selected_day weather = []).
  { apply filter_none. intros r _.
    destruct (Date r) as [d |]; simpl; [| reflexivity].
    destruct (Z.eqb_spec (month_of d) month_num) as [Em | _]; [| reflexivity].
    destruct (Z.eqb_spec (day_of d) selected_day) as [Ed | _]; [| reflexivity].
    exfalso. apply Himp. rewrite <- Em, <- Ed. apply day_in_month_bound. }
  split; [exact E |]. unfold day_summary. rewrite E. reflexivity.
Qed.
End DaySummary.

(** ** Snapshot: the monthly average temperature *)

Section MonthlyTemperature.
Import Calendar SQL Frame Snapshot Spec.
Local Open Scope Q_scope.

Lemma month_with_temperature (k : option Z) (csv : DataFrame) :
  In k (map (fun r => EXTRACT month_of (Date r))
          (filter (fun r => is_not_null (TAVG r)) (weather csv))) <->
  exists m, k = Some m /\ (1 <= m <= 12)%Z
            /\ month_temperatures m (weather csv) <> [].
Proof.
  rewrite in_map_iff. split.
  - intros (r & <- & Hr). apply filter_In in Hr as [Hin Hnn].
    destruct (loaded_row_dated csv r Hin) as (d & Ed). rewrite Ed. simpl.
    exists (month_of d). split; [reflexivity |].
    split; [apply month_of_range |].
    intros E.
    assert (Hm : In r (month_temperatures (month_of d) (weather csv))).
    { apply filter_In. split; [exact Hin |]. unfold Month. rewrite Ed. simpl.
      now rewrite Z.eqb_refl, Hnn. }
    rewrite E in Hm. exact Hm.
  - intros (m & -> & _ & Hne).
    destruct (month_temperatures m (weather csv)) as [| r t] eqn:E;
      [contradiction |].
    assert (Hr : In r (month_temperatures m (weather csv)))
      by (rewrite E; now left).
    apply filter_In in Hr as [Hin Hp]. apply andb_true_iff in Hp as [Hm Hnn].
    exists r. split; [now apply opt_Z_eqb_spec |].
    apply filter_In. now split.
Qed.

(** X9.  On a loaded table the monthly average temperature has one row per
    calendar month that has an average-temperature reading, in ascending
    order of the month; the row's value is the mean of the month's
    readings, all years together. *)
Theorem monthly_avg_temp_rows (csv : DataFrame) :
  StronglySorted (fun a b => key_lt (ma_Month a) (ma_Month b))
    (monthly_avg_temp (weather csv))
  /\ (forall m,
        In (Some m) (map ma_Month (monthly_avg_temp (weather csv)))
        <-> ((1 <= m <= 12)%Z /\ month_temperatures m (weather csv) <> []))
  /\ Forall (fun row =>
               exists m v,
                 let readings :=
                   map TAVG (month_temperatures m (weather csv)) in
                 ma_Month row = Some m /\ (1 <= m <= 12)%Z
                 /\ non_null readings <> []
                 /\ List.length (non_null readings)
                    = List.length (month_temperatures m (weather csv))
                 /\ Average_Temperature row = Some v
                 /\ v == mean (non_null readings))
            (monthly_avg_temp (weather csv)).
Proof.
  pose proof (grouped_query (fun r => EXTRACT month_of (Date r)) ma_Month
                (fun g =>
                   {| ma_Month := fst g;
                      Average_Temperature := AVG (map TAVG (snd g)) |})
                (filter (fun r => is_not_null (TAVG r)) (weather csv))
                (fun g => eq_refl))
    as (Hs & Hk & Hr).
  fold (monthly_avg_temp (weather csv)) in Hs, Hk, Hr.
  split; [exact Hs |]. split.
  { intros m. rewrite Hk, month_with_temperature. split.
    - intros (m' & E & Hm & Hne). injection E as <-. now split.
    - intros [Hm Hne]. now exists m. }
  eapply Forall_impl; [| exact Hr]. simpl. intros row [Erow Hin].
  apply month_with_temperature in Hin as (m & Ek & Hm & Hne).
  rewrite Erow. simpl. rewrite Ek, filter_filter.
  change (filter _ (weather csv)) with (month_temperatures m (weather csv)).
  assert (Hall : forall r, In r (month_temperatures m (weather csv)) ->
                           is_not_null (TAVG r) = true).
  { intros r Hr'. apply filter_In in Hr' as [_ Hp].
    now apply andb_true_iff in Hp as [_ Hp]. }
  assert (Hnn : non_null (map TAVG (month_temperatures m (weather csv))) <> [])
    by (apply non_null_present; assumption).
  assert (Hlen : List.length (non_null (map TAVG
                                          (month_temperatures m (weather csv))))
                 = List.length (month_temperatures m (weather csv))).
  { clear Hnn Hne. induction (month_temperatures m (weather csv)) as [| r t IH];
      [reflexivity |].
    simpl. pose proof (Hall r (or_introl eq_refl)) as Hr'.
    destruct (TAVG r); [| discriminate Hr']. simpl. f_equal. apply IH.
    intros x Hx. apply Hall. now right. }
  unfold AVG.
  destruct (non_null (map TAVG (month_temperatures m (weather csv))))
    as [| v0 vs] eqn:E; [contradiction |].
  exists m. eexists. cbv zeta. rewrite E.
  split; [reflexivity |]. split; [exact Hm |]. split; [discriminate |].
  split; [exact Hlen |]. split; [reflexivity |]. reflexivity.
Qed.
End MonthlyTemperature.

(** ** Holiday outlook: the records and the ranked days of a holiday *)

Section HolidayRecords.
Import Calendar SQL Frame HolidayOutlook Spec.

Lemma find_first {A : Type} (p : A -> bool) (l : list A) (x : A) :
  find p l = Some x ->
  exists l1 l2, l = l1 ++ x :: l2 /\ p x = true
                /\ forall y, In y l1 -> p y = false.
Proof.
  induction l as [| a t IH]; simpl; [discriminate |].
  destruct (p a) eqn:E.
  - intros H. injection H as <-. exists [], t. repeat split; auto.
    intros y [].
  - intros H. destruct (IH H) as (l1 & l2 & -> & Hx & Hl1).
    exists (a :: l1), l2. repeat split; auto.
    intros y [<- | Hy]; auto.
Qed.

(** Every row of the holiday table is dated: it was selected by its
    date. *)
Lemma holiday_row_dated (variable_holidays : list (string * list string))
    (weather : list Row) (h : holiday_row) :
  In h (all_holidays_df variable_holidays weather) ->
  exists d, h_Date h = Some d.
Proof.
  unfold all_holidays_df, fixed_holiday_rows, variable_holiday_rows.
  intros H. apply in_app_or in H as [H | H];
    apply in_flat_map in H as (entry & _ & H).
  - destruct entry as [name [month day]].
    apply in_map_iff in H as (r & <- & Hr). apply filter_In in Hr as [_ Hr].
    unfold on_month_day in Hr. simpl.
    destruct (Date r) as [d |]; [now exists d | discriminate Hr].
  - destruct entry as [name dates].
    apply in_map_iff in H as (r & <- & Hr). apply filter_In in Hr as [_ Hr].
    unfold date_in in Hr. simpl.
    destruct (Date r) as [d |]; [now exists d | discriminate Hr].
Qed.

Lemma in_holiday_df (all : list holiday_row) (holiday : string)
    (h : holiday_row) :
  In h (holiday_df all holiday) <-> In h all /\ Holiday h = holiday.
Proof.
  unfold holiday_df. rewrite in_sort, filter_In, String.eqb_eq. reflexivity.
Qed.

Lemma holiday_df_by_year (all : list holiday_row) (holiday : string) :
  StronglySorted (fun a b => asc_leb Z.leb (h_Year a) (h_Year b) = true)
    (holiday_df all holiday).
Proof.
  unfold holiday_df. apply sort_sorted.
  - intros a b. apply asc_leb_total. intros x y H.
    apply Z.leb_le. apply Z.leb_gt in H. lia.
  - intros a b c. apply asc_leb_trans. intros x y z H1 H2.
    apply Z.leb_le in H1, H2. apply Z.leb_le. lia.
Qed.

(** The row that [idxmax] or [idxmin] picks in a table ordered by year:
    a row at the extreme value, of the earliest year that reached it. *)
Lemma record_row (col : holiday_row -> option Q) (m : Q)
    (df : list holiday_row) :
  In (Some m) (map col df) ->
  (forall r, In r df -> exists y, h_Year r = Some y) ->
  StronglySorted (fun a b => asc_leb Z.leb (h_Year a) (h_Year b) = true) df ->
  exists r y v,
    row_at col (Some m) df = Some r /\ In r df /\ h_Year r = Some y
    /\ col r = Some v /\ (v == m)%Q
    /\ forall r' v', In r' df -> col r' = Some v' -> (v' == m)%Q ->
                     exists y', h_Year r' = Some y' /\ y <= y'.
Proof.
  intros Hm Hyear Hs. unfold row_at.
  set (p := fun r => match col r with
                     | Some v => Qeq_bool v m
                     | None => false
                     end).
  destruct (find p df) as [r |] eqn:E.
  - destruct (find_first p df r E) as (l1 & l2 & El & Hp & Hl1).
    assert (Hr : In r df) by (rewrite El; apply in_elt).
    destruct (Hyear r Hr) as (y & Ey).
    unfold p in Hp. destruct (col r) as [v |] eqn:Ev; [| discriminate Hp].
    apply Qeq_bool_iff in Hp.
    exists r, y, v. repeat split; auto.
    intros r' v' Hr' Ev' Hv'. destruct (Hyear r' Hr') as (y' & Ey').
    exists y'. split; [exact Ey' |].
    rewrite El in Hs, Hr'.
    apply StronglySorted_app in Hs as (_ & Hs & _).
    apply StronglySorted_inv in Hs as [_ Hs]. rewrite Forall_forall in Hs.
    apply in_app_or in Hr' as [Hr' | [<- | Hr']].
    + specialize (Hl1 r' Hr'). unfold p in Hl1. rewrite Ev' in Hl1.
      apply Qeq_bool_iff in Hv'. congruence.
    + rewrite Ey in Ey'. injection Ey' as <-. lia.
    + specialize (Hs r' Hr'). rewrite Ey, Ey' in Hs. simpl in Hs.
      now apply Z.leb_le.
  - exfalso. apply in_map_iff in Hm as (r & Er & Hr).
    pose proof (find_none p df E r Hr) as Hp. unfold p in Hp.
    rewrite Er in Hp. now rewrite Qeq_bool_refl in Hp.
Qed.

(** X10.  The record high of a holiday bounds every maximum temperature of the
    holiday's days, and the year shown beside it is the earliest year in
    which a day reached it; likewise the record low and its year.  With no
    reading at all there is no record (the page stops with an error). *)
Theorem holiday_record_years (variable_holidays : list (string * list string))
    (weather : list Row) (holiday : string) :
  let df := holiday_df (all_holidays_df variable_holidays weather) holiday in
  match max_temp df with
  | None => (forall r, In r df -> h_TMAX r = None) /\ max_temp_year df = None
  | Some m =>
      (forall r v, In r df -> h_TMAX r = Some v -> (v <= m)%Q)
      /\ exists y,
           max_temp_year df = Some y
           /\ (exists r v, In r df /\ h_Year r = Some y
                           /\ h_TMAX r = Some v /\ (v == m)%Q)
           /\ forall r v, In r df -> h_TMAX r = Some v -> (v == m)%Q ->
                          exists y', h_Year r = Some y' /\ y <= y'
  end
  /\ match min_temp df with
     | None => (forall r, In r df -> h_TMIN r = None) /\ min_temp_year df = None
     | Some m =>
         (forall r v, In r df -> h_TMIN r = Some v -> (m <= v)%Q)
         /\ exists y,
              min_temp_year df = Some y
              /\ (exists r v, In r df /\ h_Year r = Some y
                              /\ h_TMIN r = Some v /\ (v == m)%Q)
              /\ forall r v, In r df -> h_TMIN r = Some v -> (v == m)%Q ->
                             exists y', h_Year r = Some y' /\ y <= y'
     end.
Proof.
  intros df.
  assert (Hyear : forall r, In r df -> exists y, h_Year r = Some y).
  { intros r Hr. apply in_holiday_df in Hr as [Hr _].
    destruct (holiday_row_dated _ _ _ Hr) as (d & Ed).
    unfold h_Year. rewrite Ed. now eexists. }
  pose proof (holiday_df_by_year
                (all_holidays_df variable_holidays weather) holiday) as Hs.
  fold df in Hs.
  split.
  - unfold max_temp_year, max_temp.
    pose proof (MAX_attained (map h_TMAX df)) as Hmax.
    destruct (MAX (map h_TMAX df)) as [m |].
    + destruct Hmax as [Hin Hub]. split.
      * intros r v Hr Ev. apply Hub. rewrite <- Ev. now apply in_map.
      * destruct (record_row h_TMAX m df Hin Hyear Hs)
          as (r & y & v & Ef & Hr & Ey & Ev & Hv & Hfirst).
        exists y. rewrite Ef. split; [exact Ey |]. split; [| exact Hfirst].
        now exists r, v.
    + split; [| reflexivity]. intros r Hr.
      destruct (h_TMAX r) as [v |] eqn:Ev; [| reflexivity].
      exfalso. apply (Hmax v). rewrite <- Ev. now apply in_map.
  - unfold min_temp_year, min_temp.
    pose proof (MIN_attained (map h_TMIN df)) as Hmin.
    destruct (MIN (map h_TMIN df)) as [m |].
    + destruct Hmin as [Hin Hlb]. split.
      * intros r v Hr Ev. apply Hlb. rewrite <- Ev. now apply in_map.
      * destruct (record_row h_TMIN m df Hin Hyear Hs)
          as (r & y & v & Ef & Hr & Ey & Ev & Hv & Hfirst).
        exists y. rewrite Ef. split; [exact Ey |]. split; [| exact Hfirst].
        now exists r, v.
    + split; [| reflexivity]. intros r Hr.
      destruct (h_TMIN r) as [v |] eqn:Ev; [| reflexivity].
      exfalso. apply (Hmin v). rewrite <- Ev. now apply in_map.
Qed.
End HolidayRecords.

Section HolidayRankedDays.
Import Calendar SQL Frame HolidayOutlook Spec.

Lemma sort_head_ranked {A : Type} (leb : A -> A -> bool) (n : nat)
    (l : list A) :
  (forall a b, leb a b = false -> leb b a = true) ->
  (forall a b c, leb a b = true -> leb b c = true -> leb a c = true) ->
  ranked_head leb n l (firstn n (sort leb l)).
Proof.
  intros Htotal Htrans. unfold ranked_head.
  split; [now rewrite length_firstn, length_sort |].
  split; [now apply StronglySorted_firstn, sort_sorted |].
  split; [intros x Hx; apply in_firstn in Hx; now apply in_sort in Hx |].
  intros c Hc. now apply ranked_extreme.
Qed.

(** On the holiday page no precipitation is missing once the table is
    filled. *)
Lemma filled_holiday_precipitation
    (variable_holidays : list (string * list string)) (csv : DataFrame)
    (h : holiday_row) :
  In h (all_holidays_df variable_holidays (weather_df csv)) ->
  exists v, h_PRCP h = Some v.
Proof.
  assert (Hw : forall r, In r (weather_df csv) -> exists v, PRCP r = Some v).
  { unfold weather_df. intros r Hr. apply in_map_iff in Hr as (r0 & <- & _).
    simpl. destruct (PRCP r0) as [v |]; simpl; eauto. }
  unfold all_holidays_df, fixed_holiday_rows, variable_holiday_rows.
  intros H. apply in_app_or in H as [H | H];
    apply in_flat_map in H as (entry & _ & H).
  - destruct entry as [name [month day]].
    apply in_map_iff in H as (r & <- & Hr). apply filter_In in Hr as [Hr _].
    simpl. now apply Hw.
  - destruct entry as [name dates].
    apply in_map_iff in H as (r & <- & Hr). apply filter_In in Hr as [Hr _].
    simpl. now apply Hw.
Qed.

(** X11.  The three ranked lists of a holiday are the five first days of the
    holiday by descending maximum temperature, by ascending minimum
    temperature and by descending precipitation, a day without the reading
    ranking last: all the days when the holiday has fewer than five, in
    order, and no day left out ranks better than a listed one.  A listed
    wettest day always has a precipitation; the temperature lists can end
    with days that have none. *)
Theorem holiday_top_days_ranked (variable_holidays : list (string * list string))
    (csv : DataFrame) (holiday : string) :
  let df :=
    holiday_df (all_holidays_df variable_holidays (weather_df csv)) holiday in
  ranked_head (fun a b => desc_leb Qle_bool (h_TMAX a) (h_TMAX b)) 5 df
    (warmest_days df)
  /\ ranked_head (fun a b => asc_leb Qle_bool (h_TMIN a) (h_TMIN b)) 5 df
       (coldest_days df)
  /\ ranked_head (fun a b => desc_leb Qle_bool (h_PRCP a) (h_PRCP b)) 5 df
       (wettest_days df)
  /\ Forall (fun x => exists v, h_PRCP x = Some v) (wettest_days df).
Proof.
  intros df.
  assert (Hd : forall f : holiday_row -> option Q,
             ranked_head (fun a b => desc_leb Qle_bool (f a) (f b)) 5 df
               (firstn 5 (sort (fun a b => desc_leb Qle_bool (f a) (f b)) df))).
  { intros f. apply sort_head_ranked.
    - intros a b. apply desc_leb_total, Qle_bool_total.
    - intros a b c. apply desc_leb_trans, Qle_bool_trans. }
  split; [apply Hd |]. split; [| split; [apply Hd |]].
  - apply sort_head_ranked.
    + intros a b. apply asc_leb_total, Qle_bool_total.
    + intros a b c. apply asc_leb_trans, Qle_bool_trans.
  - rewrite Forall_forall. intros x Hx. unfold wettest_days in Hx.
    apply in_firstn, in_sort, in_holiday_df in Hx as [Hx _].
    now apply filled_holiday_precipitation in Hx.
Qed.
End HolidayRankedDays.

(** ** Climate history: the wettest day of each month *)

Section WettestDayOfMonth.
Import Calendar SQL Frame ClimateHistoryByDay Spec.

Lemma distinct_on_first {A K : Type} (eqb : K -> K -> bool) (key : A -> K)
    (l : list A) (x : A) :
  In x (distinct_on eqb key l) ->
  exists l1 l2, l = l1 ++ x :: l2
                /\ forall y, In y l1 -> eqb (key y) (key x) = false.
Proof.
  induction l as [| a t IH]; simpl; [intros [] |].
  intros [<- | H].
  - exists [], t. split; [reflexivity | intros y []].
  - apply filter_In in H as [H Hk]. apply negb_true_iff in Hk.
    destruct (IH H) as (l1 & l2 & -> & Hl1).
    exists (a :: l1), l2. split; [reflexivity |].
    intros y [<- | Hy]; auto.
Qed.

Lemma map_distinct_on {A K : Type} (eqb : K -> K -> bool) (key : A -> K)
    (l : list A) :
  map key (distinct_on eqb key l) = distinct eqb (map key l).
Proof.
  induction l as [| a t IH]; simpl; [reflexivity |]. f_equal.
  rewrite <- IH. generalize (distinct_on eqb key t). intros l'.
  induction l' as [| b u IHu]; simpl; [reflexivity |].
  destruct (negb (eqb (key a) (key b))); simpl; now rewrite IHu.
Qed.

Lemma StronglySorted_filter {A : Type} (R : A -> A -> Prop) (p : A -> bool)
    (l : list A) :
  StronglySorted R l -> StronglySorted R (filter p l).
Proof.
  induction 1 as [| x t Hs IH Hx]; simpl; [constructor |].
  destruct (p x); [| exact IH]. constructor; [exact IH |].
  rewrite Forall_forall in *. intros y Hy. apply filter_In in Hy as [Hy _].
  now apply Hx.
Qed.

Lemma in_distinct_on {A K : Type} (eqb : K -> K -> bool) (key : A -> K)
    (l : list A) (x : A) :
  In x (distinct_on eqb key l) -> In x l.
Proof.
  intros H. destruct (distinct_on_first eqb key l x H) as (l1 & l2 & -> & _).
  apply in_elt.
Qed.

Lemma StronglySorted_distinct_on {A K : Type} (R : A -> A -> Prop)
    (eqb : K -> K -> bool) (key : A -> K) (l : list A) :
  StronglySorted R l -> StronglySorted R (distinct_on eqb key l).
Proof.
  induction 1 as [| x t Hs IH Hx]; simpl; [constructor |].
  constructor; [now apply StronglySorted_filter |].
  rewrite Forall_forall in *. intros y Hy. apply filter_In in Hy as [Hy _].
  apply Hx. now apply in_distinct_on in Hy.
Qed.

Lemma sorted_keys_apart {A K : Type} (R : A -> A -> Prop) (key : A -> K)
    (l : list A) :
  StronglySorted R l -> NoDup (map key l) ->
  StronglySorted (fun a b => R a b /\ key a <> key b) l.
Proof.
  induction 1 as [| x t Hs IH Hx]; simpl; intros Hn; [constructor |].
  inversion Hn as [| ? ? Hnx Hnt]; subst. constructor; [now apply IH |].
  rewrite Forall_forall in *. intros y Hy. split; [now apply Hx |].
  intros E. apply Hnx. rewrite E. now apply in_map.
Qed.

Lemma month_then_rain_total (a b : wettest_row) :
  month_then_rain_leb a b = false -> month_then_rain_leb b a = true.
Proof.
  unfold month_then_rain_leb.
  destruct (w_Month a) as [x |], (w_Month b) as [y |]; simpl.
  - rewrite (Z.eqb_sym y x).
    destruct (Z.eqb_spec x y) as [-> | N].
    + apply desc_leb_total, Qle_bool_total.
    + intros H. apply Z.leb_gt in H. apply Z.leb_le. lia.
  - discriminate.
  - reflexivity.
  - apply desc_leb_total, Qle_bool_total.
Qed.

Lemma month_then_rain_refl (a : wettest_row) : month_then_rain_leb a a = true.
Proof.
  destruct (month_then_rain_leb a a) eqn:E; [reflexivity |].
  pose proof (month_then_rain_total a a E) as T. congruence.
Qed.

Lemma month_then_rain_trans (a b c : wettest_row) :
  month_then_rain_leb a b = true -> month_then_rain_leb b c = true ->
  month_then_rain_leb a c = true.
Proof.
  unfold month_then_rain_leb.
  destruct (w_Month a) as [x |], (w_Month b) as [y |], (w_Month c) as [z |];
    simpl; try discriminate; try (intros; reflexivity).
  - destruct (Z.eqb_spec x y) as [-> | Nxy], (Z.eqb_spec y z) as [-> | Nyz].
    + apply desc_leb_trans, Qle_bool_trans.
    + intros _ H. exact H.
    + destruct (Z.eqb_spec x z) as [-> | _]; [contradiction |].
      intros H _. exact H.
    + intros H1 H2. apply Z.leb_le in H1, H2.
      destruct (Z.eqb_spec x z) as [-> | _]; [lia |]. apply Z.leb_le. lia.
  - apply desc_leb_trans, Qle_bool_trans.
Qed.

(** X12.  On a loaded table the result has one row for each calendar month that
    has a precipitation reading, in ascending order of the month, and the
    row is a day of that month whose precipitation no other day of the
    month exceeds. *)
Theorem wettest_day_of_each_month (csv : DataFrame) :
  let result := wettest_days (weather csv) in
  StronglySorted (fun a b => key_lt (w_Month a) (w_Month b)) result
  /\ (forall m, In (Some m) (map w_Month result)
                <-> (1 <= m <= 12 /\ month_readings m (weather csv) <> []))
  /\ Forall (fun row =>
               exists m v r,
                 w_Month row = Some m /\ w_Rain row = Some v
                 /\ In r (month_readings m (weather csv))
                 /\ Date r = w_Date row /\ PRCP r = Some v
                 /\ forall r' v', In r' (month_readings m (weather csv)) ->
                                  PRCP r' = Some v' -> (v' <= v)%Q)
            result.
Proof.
  intros result. unfold wettest_days in result.
  set (mk := fun r => {| w_Month := EXTRACT month_of (Date r);
                         w_Date := Date r; w_Rain := PRCP r |}) in *.
  set (readings := filter (fun r => is_not_null (PRCP r)) (weather csv)) in *.
  set (ordered := sort month_then_rain_leb (map mk readings)) in *.
  assert (Hs : StronglySorted (fun a b => month_then_rain_leb a b = true)
                 ordered).
  { apply sort_sorted; [apply month_then_rain_total |
                        apply month_then_rain_trans]. }
  assert (Hkeys : forall k, In k (map w_Month result) <->
                            In k (map (fun r => EXTRACT month_of (Date r))
                                    readings)).
  { intros k. unfold result. rewrite map_distinct_on.
    rewrite (in_distinct _ opt_Z_eqb_spec). unfold ordered.
    rewrite !in_map_iff. split.
    - intros (x & <- & Hx). apply in_sort, in_map_iff in Hx as (r & <- & Hr).
      now exists r.
    - intros (r & <- & Hr). exists (mk r). split; [reflexivity |].
      apply in_sort. now apply in_map. }
  split; [| split].
  - apply StronglySorted_refine
      with (P := fun _ => True)
           (R := fun a b => month_then_rain_leb a b = true
                            /\ w_Month a <> w_Month b);
      [| apply Forall_forall; auto
       | apply (sorted_keys_apart _ w_Month);
         [apply StronglySorted_distinct_on, Hs |]].
    + intros a b _ _ [Hab Nab]. apply key_order_strict.
      unfold month_then_rain_leb in Hab.
      destruct (opt_eqb Z.eqb (w_Month a) (w_Month b)) eqn:E;
        [apply opt_Z_eqb_spec in E; contradiction | now split].
    + unfold result. rewrite map_distinct_on.
      apply NoDup_distinct, opt_Z_eqb_spec.
  - intros m. rewrite Hkeys. unfold readings. rewrite month_key_present.
    split.
    + intros (m' & E & Hm & Hne). injection E as <-. now split.
    + intros [Hm Hne]. now exists m.
  - rewrite Forall_forall. intros row Hrow.
    assert (Hk : In (w_Month row) (map w_Month result)) by now apply in_map.
    apply Hkeys in Hk. unfold readings in Hk.
    apply month_key_present in Hk as (m & Em & _ & _).
    destruct (distinct_on_first _ _ _ _ Hrow) as (l1 & l2 & El & Hl1).
    assert (Hin : In row ordered) by (rewrite El; apply in_elt).
    unfold ordered in Hin.
    apply in_sort, in_map_iff in Hin as (r & Er & Hr).
    apply filter_In in Hr as [Hr Hnn].
    destruct (PRCP r) as [v |] eqn:Ev; [| discriminate Hnn].
    assert (Emr : Month r = Some m) by (rewrite <- Em, <- Er; reflexivity).
    exists m, v, r. rewrite <- Er. simpl. rewrite <- Er in Em. simpl in Em.
    split; [exact Em |]. split; [exact Ev |]. split.
    { apply filter_In. split; [exact Hr |]. rewrite Emr, Ev. simpl.
      now rewrite Z.eqb_refl. }
    split; [reflexivity |]. split; [exact Ev |].
    intros r' v' Hr' Ev'. apply filter_In in Hr' as [Hr' Hp].
    apply andb_true_iff in Hp as [Hm' Hnn']. apply opt_Z_eqb_spec in Hm'.
    assert (Hin' : In (mk r') ordered).
    { unfold ordered. apply in_sort, in_map, filter_In. now split. }
    assert (Hleb : month_then_rain_leb row (mk r') = true).
    { rewrite El in Hin', Hs.
      apply StronglySorted_app in Hs as (_ & Hs & _).
      apply StronglySorted_inv in Hs as [_ Hs]. rewrite Forall_forall in Hs.
      apply in_app_or in Hin' as [Hin' | [<- | Hin']].
      - specialize (Hl1 _ Hin'). rewrite <- Er in Hl1.
        change (opt_eqb Z.eqb (Month r') (Month r) = false) in Hl1.
        rewrite Hm', Emr in Hl1. simpl in Hl1.
        now rewrite Z.eqb_refl in Hl1.
      - apply month_then_rain_refl.
      - now apply Hs. }
    rewrite <- Er in Hleb.
    change (month_then_rain_leb (mk r) (mk r'))
      with (if opt_eqb Z.eqb (Month r) (Month r')
            then desc_leb Qle_bool (PRCP r) (PRCP r')
            else asc_leb Z.leb (Month r) (Month r')) in Hleb.
    rewrite Hm', Emr, Ev, Ev' in Hleb. simpl in Hleb.
    rewrite Z.eqb_refl in Hleb. now apply Qle_bool_iff.
Qed.
End WettestDayOfMonth.

(** ** Holiday outlook: the days selected for each holiday *)

Section IsoDates.
Import Calendar.
Local Open Scope Z_scope.

Lemma digit_val_digit (n : Z) : digit_val (digit n) = Some (n mod 10).
Proof.
  unfold digit_val, digit.
  pose proof (Z.mod_pos_bound n 10 ltac:(lia)) as B.
  set (k := Z.to_nat (n mod 10)).
  assert (Hk : (k < 10)%nat) by (unfold k; lia).
  rewrite nat_ascii_embedding by lia.
  destruct (Nat.leb_spec 48 (48 + k)) as [_ | L]; [| lia].
  destruct (Nat.leb_spec (48 + k) 57) as [_ | L]; [| lia].
  simpl. f_equal. unfold k. lia.
Qed.

Lemma num2_digits (a b : Z) :
  num2 (digit a) (digit b) = Some (10 * (a mod 10) + b mod 10).
Proof. unfold num2. now rewrite !digit_val_digit. Qed.

(** The ISO rendering of a date of the years 1 to 9999 reads back as that
    date. *)
Lemma parse_strftime_ymd (d : date) :
  1 <= year_of d <= 9999 -> parse_ymd (strftime_ymd d) = Some d.
Proof.
  intros Hy. unfold strftime_ymd, zfill4, zfill2. cbn [append].
  unfold parse_ymd. rewrite !num2_digits.
  change (Ascii.eqb "-" "-") with true. cbn [andb]. cbv zeta.
  unfold year_of, month_of, day_of in *.
  pose proof (ord2ymd_sound d) as H.
  destruct (ord2ymd d) as [[y m] dd]. cbn [fst snd] in *.
  destruct H as (E & Hm & Hd).
  assert (Ey : 100 * (10 * ((y / 1000) mod 10) + (y / 100) mod 10)
               + (10 * ((y / 10) mod 10) + y mod 10) = y)
    by (Z.div_mod_to_equations; lia).
  assert (Em : 10 * ((m / 10) mod 10) + m mod 10 = m)
    by (Z.div_mod_to_equations; lia).
  assert (Ed : 10 * ((dd / 10) mod 10) + dd mod 10 = dd).
  { assert (dd <= 31).
    { unfold days_in_month in Hd.
      destruct ((m =? 2) && is_leap y); [lia |].
      assert (days_in_month_table m <= 31); [| lia].
      assert (Hc : m = 1 \/ m = 2 \/ m = 3 \/ m = 4 \/ m = 5 \/ m = 6
                   \/ m = 7 \/ m = 8 \/ m = 9 \/ m = 10 \/ m = 11 \/ m = 12)
        by lia.
      repeat (destruct Hc as [-> | Hc]); try subst m; cbn; lia. }
    Z.div_mod_to_equations; lia. }
  rewrite Ey, Em, Ed.
  rewrite (proj2 (valid_ymd_spec y m dd)) by lia.
  now rewrite E.
Qed.
End IsoDates.

Section HolidayRows.
Import Calendar SQL Frame HolidayOutlook Spec.
Local Open Scope Z_scope.

Lemma last_weekday_unique (w y m : Z) (d d' : date) :
  last_weekday_of w y m d -> last_weekday_of w y m d' -> d = d'.
Proof.
  intros (Hm & Hw & Hmax) (Hm' & Hw' & Hmax').
  pose proof (Hmax d' Hm' Hw'). pose proof (Hmax' d Hm Hw). lia.
Qed.

Lemma first_weekday_unique (w y m : Z) (d d' : date) :
  first_weekday_of w y m d -> first_weekday_of w y m d' -> d = d'.
Proof.
  intros (Hm & Hw & Hmin) (Hm' & Hw' & Hmin').
  pose proof (Hmin d' Hm' Hw'). pose proof (Hmin' d Hm Hw). lia.
Qed.

Lemma fourth_weekday_before (w y m : Z) (d d' : date) :
  fourth_weekday_of w y m d -> fourth_weekday_of w y m d' -> ~ d < d'.
Proof.
  intros (Hm & Hw & earlier & Hlen & Hnd & Hin)
         (Hm' & Hw' & earlier' & Hlen' & Hnd' & Hin') Hlt.
  assert (Hn : NoDup (d :: earlier)).
  { constructor; [| exact Hnd]. intros H. apply Hin in H. lia. }
  assert (Hi : incl (d :: earlier) earlier').
  { intros x [<- | Hx]; apply Hin'; [tauto |].
    apply Hin in Hx as (Hxm & Hxw & Hxl).
    split; [exact Hxm |]. split; [exact Hxw | lia]. }
  pose proof (NoDup_incl_length Hn Hi) as L. simpl in L. lia.
Qed.

Lemma fourth_weekday_unique (w y m : Z) (d d' : date) :
  fourth_weekday_of w y m d -> fourth_weekday_of w y m d' -> d = d'.
Proof.
  intros H H'.
  pose proof (fourth_weekday_before w y m d d' H H').
  pose proof (fourth_weekday_before w y m d' d H' H). lia.
Qed.

Lemma Forall2_in_r {A B : Type} (R : A -> B -> Prop) (l : list A)
    (l' : list B) (b : B) :
  Forall2 R l l' -> In b l' -> exists a, In a l /\ R a b.
Proof.
  induction 1 as [| x y l l' Hxy _ IH]; simpl; [intros [] |].
  intros [<- | H]; [exists x; auto |].
  destruct (IH H) as (a & Ha & Hab). exists a; auto.
Qed.

Lemma Forall2_in_l {A B : Type} (R : A -> B -> Prop) (l : list A)
    (l' : list B) (a : A) :
  Forall2 R l l' -> In a l -> exists b, In b l' /\ R a b.
Proof.
  induction 1 as [| x y l l' Hxy _ IH]; simpl; [intros [] |].
  intros [<- | H]; [exists y; auto |].
  destruct (IH H) as (b & Hb & Hab). exists b; auto.
Qed.

Lemma in_range (a b y : Z) : In y (range a b) <-> a <= y < b.
Proof.
  unfold range. rewrite in_map_iff. split.
  - intros (i & <- & Hi). apply in_seq in Hi. lia.
  - intros H. exists (Z.to_nat (y - a)). split; [lia |]. apply in_seq. lia.
Qed.

Lemma on_month_day_spec (month day : Z) (r : Row) :
  on_month_day month day r = true <->
  exists d, Date r = Some d /\ month_of d = month /\ day_of d = day.
Proof.
  unfold on_month_day. destruct (Date r) as [d |]; simpl.
  - rewrite andb_true_iff, !Z.eqb_eq. split.
    + intros [Hm Hd]. now exists d.
    + intros (d' & E & Hm & Hd). injection E as <-. now split.
  - split; [discriminate | intros (d & E & _); discriminate E].
Qed.

Lemma date_in_spec (dates : list string) (r : Row) :
  date_in dates r = true <->
  exists d s, Date r = Some d /\ In s dates /\ parse_ymd s = Some d.
Proof.
  unfold date_in. destruct (Date r) as [d |].
  - rewrite existsb_exists. split.
    + intros (s & Hs & H). exists d, s.
      destruct (parse_ymd s) as [d' |]; [| discriminate H].
      apply Z.eqb_eq in H. now subst.
    + intros (d' & s & E & Hs & Hp). injection E as <-. exists s.
      rewrite Hp. split; [exact Hs | apply Z.eqb_refl].
  - split; [discriminate | intros (d & s & E & _); discriminate E].
Qed.

(** The days a list of the resolver selects: a row is selected exactly when
    its date is the holiday of its year, for a year from 1949 to the
    current one. *)
Lemma resolved_dates_select (P : Z -> date -> Prop) (now_year : Z)
    (dates : list string) (r : Row) :
  now_year <= 9999 ->
  (forall y d, P y d -> year_of d = y) ->
  (forall y d d', P y d -> P y d' -> d = d') ->
  Forall2 (fun y s => exists d, s = strftime_ymd d /\ P y d)
    (range 1949 (now_year + 1)) dates ->
  date_in dates r = true <->
  exists d, Date r = Some d /\ 1949 <= year_of d <= now_year
            /\ P (year_of d) d.
Proof.
  intros Hnow Hyear Huniq Hf. rewrite date_in_spec. split.
  - intros (d & s & Ed & Hs & Hp).
    destruct (Forall2_in_r _ _ _ _ Hf Hs) as (y & Hy & d' & -> & Hd').
    apply in_range in Hy. pose proof (Hyear _ _ Hd') as Ey.
    rewrite parse_strftime_ymd in Hp by lia. injection Hp as <-.
    exists d'. rewrite Ey. repeat split; auto; lia.
  - intros (d & Ed & Hy & Hd).
    destruct (Forall2_in_l _ _ _ (year_of d) Hf) as (s & Hs & d' & -> & Hd').
    { apply in_range. lia. }
    rewrite (Huniq _ _ _ Hd' Hd) in Hs.
    exists d, (strftime_ymd d). repeat split; auto.
    apply parse_strftime_ymd. lia.
Qed.

(** X13.  The holiday table holds, under each holiday's name, exactly the days of
    the weather table that fall on the holiday: January 1, July 4 and
    December 25 of any year, and, for each year from 1949 to the current
    one, the last Monday of May, the first Monday of September and the
    fourth Thursday of November. *)
Theorem holiday_rows_fall_on_the_holiday (now_year : Z) :
  1949 <= now_year <= 9999 ->
  exists variable_holidays,
    get_variable_holiday_dates now_year = Some variable_holidays
    /\ forall (weather : list Row) (h : holiday_row),
         In h (all_holidays_df variable_holidays weather) <->
         exists r d, In r weather /\ Date r = Some d
                     /\ h = select_row (Holiday h) r
                     /\ holiday_on (Holiday h) now_year d.
Proof.
  intros Hnow.
  destruct (for_years_spec (range 1949 (now_year + 1)) [] [] [])
    as (ms & ls & ts & Ef & Fm & Fl & Ft).
  exists [("Memorial Day"%string, ms); ("Labor Day"%string, ls);
          ("Thanksgiving"%string, ts)].
  unfold get_variable_holiday_dates. cbv zeta. rewrite Ef. simpl app.
  split; [reflexivity |]. intros weather h.
  assert (Hm := fun r => resolved_dates_select memorial_day now_year ms r
                           (proj2 Hnow)
                           (fun y d H => proj1 (proj1 H))
                           (fun y => last_weekday_unique 0 y 5) Fm).
  assert (Hl := fun r => resolved_dates_select labor_day now_year ls r
                           (proj2 Hnow)
                           (fun y d H => proj1 (proj1 H))
                           (fun y => first_weekday_unique 0 y 9) Fl).
  assert (Ht := fun r => resolved_dates_select thanksgiving_day now_year ts r
                           (proj2 Hnow)
                           (fun y d H => proj1 (proj1 H))
                           (fun y => fourth_weekday_unique 3 y 11) Ft).
  unfold all_holidays_df, fixed_holiday_rows, variable_holiday_rows,
    holiday_names.
  cbn [flat_map]. rewrite !app_nil_r, !in_app_iff, !in_map_iff.
  unfold holiday_on. split.
  - intros [[H | [H | H]] | [H | [H | H]]];
      destruct H as (r & <- & Hr); apply filter_In in Hr as [Hr Hp];
      [apply on_month_day_spec in Hp as (d & Ed & Hmo & Hda)
      |apply on_month_day_spec in Hp as (d & Ed & Hmo & Hda)
      |apply on_month_day_spec in Hp as (d & Ed & Hmo & Hda)
      |apply Hm in Hp as (d & Ed & Hy & Hd)
      |apply Hl in Hp as (d & Ed & Hy & Hd)
      |apply Ht in Hp as (d & Ed & Hy & Hd)];
      exists r, d; simpl; (split; [exact Hr |]); (split; [exact Ed |]);
      (split; [reflexivity |]); tauto.
  - intros (r & d & Hr & Ed & Eh & H).
    destruct H as [(En & Hmo & Hda) | [(En & Hmo & Hda) | [(En & Hmo & Hda)
                  | (Hy & [(En & Hd) | [(En & Hd) | (En & Hd)]])]]];
      rewrite En in Eh; symmetry in Eh.
    + left. left. exists r. split; [exact Eh |]. apply filter_In.
      split; [exact Hr |]. apply on_month_day_spec. now exists d.
    + left. right. left. exists r. split; [exact Eh |]. apply filter_In.
      split; [exact Hr |]. apply on_month_day_spec. now exists d.
    + left. right. right. exists r. split; [exact Eh |]. apply filter_In.
      split; [exact Hr |]. apply on_month_day_spec. now exists d.
    + right. left. exists r. split; [exact Eh |]. apply filter_In.
      split; [exact Hr |]. apply Hm. now exists d.
    + right. right. left. exists r. split; [exact Eh |]. apply filter_In.
      split; [exact Hr |]. apply Hl. now exists d.
    + right. right. right. exists r. split; [exact Eh |]. apply filter_In.
      split; [exact Hr |]. apply Ht. now exists d.
Qed.
End HolidayRows.

(** ** Climate history: every reported streak is a dry run *)

Section ReportedStreaks.
Import Calendar SQL Frame ClimateHistoryByDay Spec.
Local Open Scope Z_scope.

Lemma in_running_sum (acc : Z) (l : list weather_clean_row) (x : runs_row) :
  In x (running_sum acc l) ->
  exists a b, l = a ++ base x :: b
              /\ wet_group x = acc + group_of a + wet_flag (base x).
Proof.
  revert acc. induction l as [| r t IH]; intros acc; simpl; [intros [] |].
  intros [<- | H].
  - exists [], t. simpl. split; [reflexivity |]. unfold group_of. simpl. lia.
  - destruct (IH _ H) as (a & b & -> & E). exists (r :: a), b.
    split; [reflexivity |]. rewrite E.
    change (group_of (r :: a)) with (wet_flag r + group_of a). lia.
Qed.

(** A day of the cleaned series is dry (1) or wet (0). *)
Lemma is_dry_flag (weather : list Row) (c : weather_clean_row) :
  In c (weather_clean weather) -> is_dry c = 0 \/ is_dry c = 1.
Proof.
  unfold weather_clean. intros H.
  apply in_sort, in_flat_map in H as (r & _ & H).
  destruct (Date r) as [d |]; [| destruct H]. destruct H as [<- | []].
  unfold clean. simpl. destruct (is_null (PRCP r) || eq_const (PRCP r) 0); auto.
Qed.

Lemma dry_prefix (l : list weather_clean_row) :
  (forall c, In c l -> is_dry c = 0 \/ is_dry c = 1) ->
  exists l1 l2, l = l1 ++ l2
                /\ forallb (fun r => is_dry r =? 1) l1 = true
                /\ starts_wet l2 = true.
Proof.
  induction l as [| c t IH]; intros H.
  - exists [], []. now repeat split.
  - destruct (H c (or_introl eq_refl)) as [E | E].
    + exists [], (c :: t). simpl. rewrite E. now repeat split.
    + destruct IH as (l1 & l2 & -> & H1 & H2);
        [intros x Hx; apply H; now right |].
      exists (c :: l1), l2. simpl. rewrite E, H1. now repeat split.
Qed.

Lemma dry_suffix (l : list weather_clean_row) :
  (forall c, In c l -> is_dry c = 0 \/ is_dry c = 1) ->
  exists l1 l2, l = l1 ++ l2
                /\ ends_wet l1 = true
                /\ forallb (fun r => is_dry r =? 1) l2 = true.
Proof.
  intros H. destruct (dry_prefix (rev l)) as (b1 & b2 & E & H1 & H2).
  { intros c Hc. apply H. now apply in_rev. }
  exists (rev b2), (rev b1). split; [| split].
  - rewrite <- rev_app_distr, <- E. symmetry. apply rev_involutive.
  - unfold ends_wet. rewrite rev_involutive. exact H2.
  - apply forallb_forall. intros x Hx. apply in_rev in Hx.
    rewrite forallb_forall in H1. now apply H1.
Qed.

Lemma dry_group (l : list weather_clean_row) :
  forallb (fun r => is_dry r =? 1) l = true -> group_of l = 0.
Proof.
  induction l as [| c t IH]; simpl; [reflexivity |]. intros H.
  apply andb_true_iff in H as [Hc Ht]. apply Z.eqb_eq in Hc.
  change (group_of (c :: t)) with (wet_flag c + group_of t).
  rewrite (wet_flag_dry c Hc), (IH Ht). reflexivity.
Qed.

(** A dry day of the series lies in a maximal dry run, and the running
    count of wet days gives the day the number of the wet days before that
    run. *)
Lemma dry_day_in_run (series : list weather_clean_row) (x : runs_row) :
  (forall c, In c series -> is_dry c = 0 \/ is_dry c = 1) ->
  In x (running_sum 0 series) -> is_dry (base x) = 1 ->
  exists pre run post,
    maximal_dry_run series pre run post /\ group_of pre = wet_group x.
Proof.
  intros Hflag Hx Hdry.
  destruct (in_running_sum 0 series x Hx) as (a & b & E & Eg).
  rewrite (wet_flag_dry _ Hdry) in Eg.
  destruct (dry_suffix a) as (a1 & a2 & Ea & Ha1 & Ha2).
  { intros c Hc. apply Hflag. rewrite E. apply in_or_app. now left. }
  destruct (dry_prefix b) as (b1 & b2 & Eb & Hb1 & Hb2).
  { intros c Hc. apply Hflag. rewrite E. apply in_or_app. right. now right. }
  exists a1, (a2 ++ base x :: b1), b2. split.
  - split; [| split; [| split; [| split]]].
    + rewrite E, Ea, Eb, <- !app_assoc. reflexivity.
    + destruct a2; discriminate.
    + rewrite forallb_app. simpl. rewrite Ha2, Hb1, Hdry. reflexivity.
    + exact Ha1.
    + exact Hb2.
  - rewrite Eg, Ea, group_of_app, (dry_group a2 Ha2). lia.
Qed.

(** Every streak of the [streaks] CTE is a maximal dry run of 150 days or
    more, with the run's first day, last day and number of days. *)
Lemma streak_is_maximal_run (weather : list Row) (st : streaks_row) :
  In st (streaks weather) ->
  exists pre run post start stop,
    maximal_dry_run (weather_clean weather) pre run post
    /\ first_day run = Some start /\ last_day run = Some stop
    /\ 150 <= COUNT run
    /\ st = {| s_wet_group := group_of pre; s_StartDate := start;
               s_EndDate := stop; StreakDays := COUNT run |}.
Proof.
  intros Hst. pose proof Hst as Hin. unfold streaks in Hin.
  apply filter_In in Hin as [Hin _].
  apply in_flat_map in Hin as (g & Hg & Hsg).
  apply (in_group_by Z.eqb Z.eqb_eq) in Hg as [Hk _].
  apply in_map_iff in Hk as (x & Ex & Hx). apply filter_In in Hx as [Hx Hd].
  apply Z.eqb_eq in Hd. rewrite runs_series in Hx.
  destruct (dry_day_in_run (weather_clean weather) x (is_dry_flag weather)
              Hx Hd) as (pre & run & post & Hmax & Eg).
  destruct (run_has_days run) as (start & stop & Hfirst & Hlast);
    [apply Hmax |].
  pose proof (in_streak_of g st Hsg) as Ekey.
  destruct (proj1 (streak_of_maximal_run weather pre run post start stop st
                     Hmax Hfirst Hlast)) as [E Hlen].
  { split; [exact Hst | congruence]. }
  now exists pre, run, post, start, stop.
Qed.

(** X14.  Every row of the dry-streak result stands for a maximal run of dry days
    of the date-ordered series, of 150 days or more: it starts on the run's
    first day, counts the run's days, and is dated the day after the run's
    last day, on which the table records the precipitation shown, above
    0.01 inch. *)
Theorem reported_streaks_are_dry_runs (weather : list Row) :
  Forall (fun out =>
            exists pre run post start stop w,
              maximal_dry_run (weather_clean weather) pre run post
              /\ first_day run = Some start /\ last_day run = Some stop
              /\ 150 <= COUNT run
              /\ StartDate out = start /\ streak_length out = COUNT run
              /\ EndDate out = next_day stop
              /\ In w weather /\ Date w = Some (next_day stop)
              /\ gt (PRCP w) 0.01 = true /\ Rain out = PRCP w)
         (dry_streaks weather).
Proof.
  rewrite Forall_forall. intros out Hout.
  apply in_dry_streaks in Hout as (j & Hj & ->).
  apply in_rain_on_next_day in Hj as (Hst & Hdate & w & Hw & Ed & Egt & Er).
  destruct (streak_is_maximal_run weather (s j) Hst)
    as (pre & run & post & start & stop & Hmax & Hfirst & Hlast & Hlen & E).
  exists pre, run, post, start, stop, w. simpl.
  rewrite E in Hdate |- *. simpl in Hdate |- *. rewrite Hdate in Ed.
  tauto.
Qed.
End ReportedStreaks.

Section HolidayAverages.
Import Calendar SQL Frame HolidayOutlook Spec.

(** After the fill a day with an average temperature has a maximum
    temperature. *)
Lemma filled_holiday_maximum
    (variable_holidays : list (string * list string)) (csv : DataFrame)
    (h : holiday_row) :
  In h (all_holidays_df variable_holidays (weather_df csv)) ->
  h_TAVG h <> None -> h_TMAX h <> None.
Proof.
  assert (Hw : forall r, In r (weather_df csv) ->
                         TAVG r <> None -> TMAX r <> None).
  { unfold weather_df. intros r Hr. apply in_map_iff in Hr as (r1 & <- & Hr).
    apply in_map_iff in Hr as (r0 & <- & _). simpl.
    destruct (TMAX r0); simpl; [discriminate | auto]. }
  unfold all_holidays_df, fixed_holiday_rows, variable_holiday_rows.
  intros H. apply in_app_or in H as [H | H];
    apply in_flat_map in H as (entry & _ & H).
  - destruct entry as [name [month day]].
    apply in_map_iff in H as (r & <- & Hr). apply filter_In in Hr as [Hr _].
    simpl. now apply Hw.
  - destruct entry as [name dates].
    apply in_map_iff in H as (r & <- & Hr). apply filter_In in Hr as [Hr _].
    simpl. now apply Hw.
Qed.

Lemma AVG_none (l : list (option Q)) : AVG l = None <-> non_null l = [].
Proof.
  unfold AVG. destruct (non_null l); split; try discriminate; reflexivity.
Qed.

Lemma MAX_none (l : list (option Q)) : MAX l = None <-> non_null l = [].
Proof.
  unfold MAX. destruct (non_null l); split; try discriminate; reflexivity.
Qed.

Lemma MIN_none (l : list (option Q)) : MIN l = None <-> non_null l = [].
Proof.
  unfold MIN. destruct (non_null l); split; try discriminate; reflexivity.
Qed.

(** X15.  The averages of a holiday are shown with their records: the average
    high is missing exactly when the record high is, and the average low
    exactly when the record low is, namely when no day of the holiday has
    the reading; and whenever the holiday has an average temperature it
    has an average high, the missing maxima having been filled from the
    average temperatures. *)
Theorem holiday_averages_present_with_records
    (variable_holidays : list (string * list string)) (csv : DataFrame)
    (holiday : string) :
  let df :=
    holiday_df (all_holidays_df variable_holidays (weather_df csv)) holiday in
  (avg_high df = None <-> max_temp df = None)
  /\ (avg_high df = None <-> forall r, In r df -> h_TMAX r = None)
  /\ (avg_low df = None <-> min_temp df = None)
  /\ (avg_low df = None <-> forall r, In r df -> h_TMIN r = None)
  /\ (avg_temp df <> None -> avg_high df <> None).
Proof.
  intros df. unfold avg_high, max_temp, avg_low, min_temp, avg_temp.
  assert (Hcol : forall col : holiday_row -> option Q,
             non_null (map col df) = [] <-> forall r, In r df -> col r = None).
  { intros col. split.
    - intros E r Hr. destruct (col r) as [v |] eqn:Ev; [| reflexivity].
      assert (Hv : In v (non_null (map col df))).
      { apply in_non_null. rewrite <- Ev. now apply in_map. }
      rewrite E in Hv. destruct Hv.
    - intros Hall. destruct (non_null (map col df)) as [| v vs] eqn:E;
        [reflexivity |].
      assert (Hv : In (Some v) (map col df))
        by (apply in_non_null; rewrite E; now left).
      apply in_map_iff in Hv as (r & Er & Hr). rewrite (Hall r Hr) in Er.
      discriminate Er. }
  split; [now rewrite AVG_none, MAX_none |].
  split; [now rewrite AVG_none, Hcol |].
  split; [now rewrite AVG_none, MIN_none |].
  split; [now rewrite AVG_none, Hcol |].
  intros Ht Hh. apply Ht. rewrite AVG_none, Hcol in Hh |- *.
  intros r Hr. destruct (h_TAVG r) as [t |] eqn:Et; [exfalso | reflexivity].
  pose proof Hr as Hall. apply in_holiday_df in Hall as [Hall _].
  apply (filled_holiday_maximum _ _ _ Hall); [rewrite Et; discriminate |].
  now apply Hh.
Qed.
End HolidayAverages.

(** ** Means of doubles

    Where the exact mean and the engine's part: a mean of doubles can lie
    above its greatest reading or below its least, and can fall on the other
    side of a rounding tie.  The decimal numerals stand for the doubles
    nearest to them, as the readings of the table do. *)

Section DoubleMeans.
Import PrimFloat Doubles SQL.
#[local] Set Warnings "-inexact-float".

(** Three readings of 30.1 average to 30.100000000000005. *)
Example double_mean_above_maximum :
  ltb 30.1%float (double_mean [30.1; 30.1; 30.1]%float) = true.
Proof. vm_compute. reflexivity. Qed.

(** Three readings of 50.3 average to 50.29999999999999. *)
Example double_mean_below_minimum :
  ltb (double_mean [50.3; 50.3; 50.3]%float) 50.3%float = true.
Proof. vm_compute. reflexivity. Qed.

(** The readings 67.1 and 87.8 average to 77.44999999999999, which rounds
    to 77.4; in exact arithmetic their mean is 77.45, which rounds to
    77.5. *)
Example double_mean_under_the_tie :
  ltb (double_mean [67.1; 87.8]%float) 77.45%float = true.
Proof. vm_compute. reflexivity. Qed.

Example exact_mean_at_the_tie : (exact_round_avg [67.1; 87.8] == 77.5)%Q.
Proof. vm_compute. reflexivity. Qed.
End DoubleMeans.

(** ** The theorems on sample tables *)

Import Calendar SQL Frame Spec Examples.

Lemma synthetic_series_one_streak_witness :
  let day0 := ymd2ord 2000 1 1 in
  let pre := firstn 100 synthetic_series in
  let dry := firstn 161 (skipn 100 synthetic_series) in
  let rain := synthetic_row 261 in
  let post := skipn 262 synthetic_series in
  (map Date pre = days_from day0 100
   /\ map Date dry = days_from (day0 + 100) 161
   /\ Date rain = Some (day0 + 261)
   /\ map Date post = days_from (day0 + 262) 138)
  /\ (forallb (fun r => gt (PRCP r) 0%Q) pre = true
      /\ forallb (fun r => eq_const (PRCP r) 0%Q) dry = true
      /\ eq_const (PRCP rain) 0.5%Q = true
      /\ forallb (fun r => gt (PRCP r) 0%Q) post = true)
  /\ ClimateHistoryByDay.streaks (pre ++ dry ++ rain :: post)
     = [{| ClimateHistoryByDay.s_wet_group := 100;
           ClimateHistoryByDay.s_StartDate := day0 + 100;
           ClimateHistoryByDay.s_EndDate := day0 + 260;
           ClimateHistoryByDay.StreakDays := 161 |}].
Proof.
  cbv zeta.
  split; [repeat split; vm_compute; reflexivity |].
  split; [repeat split; vm_compute; reflexivity |].
  apply (synthetic_series_one_streak (ymd2ord 2000 1 1)
           (firstn 100 synthetic_series)
           (firstn 161 (skipn 100 synthetic_series))
           (synthetic_row 261) (skipn 262 synthetic_series));
    vm_compute; reflexivity.
Defined.

Lemma dry_streak_reported_iff_next_day_rain_witness :
  let weather := synthetic_series in
  let series := ClimateHistoryByDay.weather_clean weather in
  let pre := firstn 100 series in
  let run := firstn 161 (skipn 100 series) in
  let post := skipn 261 series in
  let start := ymd2ord 2000 1 1 + 100 in
  let stop := ymd2ord 2000 1 1 + 260 in
  maximal_dry_run series pre run post
  /\ 150 <= COUNT run
  /\ first_day run = Some start
  /\ last_day run = Some stop
  /\ exists out, In out (ClimateHistoryByDay.dry_streaks weather)
                 /\ ClimateHistoryByDay.StartDate out = start
                 /\ ClimateHistoryByDay.streak_length out = COUNT run
                 /\ ClimateHistoryByDay.EndDate out = next_day stop.
Proof.
  cbv zeta.
  assert (Hmax : maximal_dry_run
                   (ClimateHistoryByDay.weather_clean synthetic_series)
                   (firstn 100 (ClimateHistoryByDay.weather_clean synthetic_series))
                   (firstn 161 (skipn 100
                      (ClimateHistoryByDay.weather_clean synthetic_series)))
                   (skipn 261 (ClimateHistoryByDay.weather_clean synthetic_series))).
  { unfold maximal_dry_run.
    split; [vm_compute; reflexivity |].
    split; [vm_compute; discriminate |].
    repeat split; vm_compute; reflexivity. }
  assert (Hlen : 150 <= COUNT (firstn 161 (skipn 100
                    (ClimateHistoryByDay.weather_clean synthetic_series))))
    by (apply Z.leb_le; vm_compute; reflexivity).
  split; [exact Hmax |]. split; [exact Hlen |].
  split; [vm_compute; reflexivity |]. split; [vm_compute; reflexivity |].
  apply (proj1 (dry_streak_reported_iff_next_day_rain synthetic_series _ _ _
                  (ymd2ord 2000 1 1 + 100) (ymd2ord 2000 1 1 + 260)
                  Hmax Hlen ltac:(vm_compute; reflexivity)
                  ltac:(vm_compute; reflexivity))).
  exists (synthetic_row 261).
  split; [unfold synthetic_series; apply in_map, in_seq; lia |].
  split; vm_compute; reflexivity.
Defined.

Lemma short_dry_run_not_reported_witness :
  let weather := short_series in
  let series := ClimateHistoryByDay.weather_clean weather in
  let pre := firstn 100 series in
  let run := firstn 149 (skipn 100 series) in
  let post := skipn 249 series in
  maximal_dry_run series pre run post
  /\ COUNT run = 149
  /\ COUNT run < 150
  /\ Forall (fun out => 150 <= ClimateHistoryByDay.streak_length out
                        /\ ClimateHistoryByDay.streak_length out <> COUNT run)
            (ClimateHistoryByDay.dry_streaks weather).
Proof.
  cbv zeta.
  assert (Hmax : maximal_dry_run
                   (ClimateHistoryByDay.weather_clean short_series)
                   (firstn 100 (ClimateHistoryByDay.weather_clean short_series))
                   (firstn 149 (skipn 100
                      (ClimateHistoryByDay.weather_clean short_series)))
                   (skipn 249 (ClimateHistoryByDay.weather_clean short_series))).
  { unfold maximal_dry_run.
    split; [vm_compute; reflexivity |].
    split; [vm_compute; discriminate |].
    repeat split; vm_compute; reflexivity. }
  assert (Hlen : COUNT (firstn 149 (skipn 100
                    (ClimateHistoryByDay.weather_clean short_series))) < 150)
    by (apply Z.ltb_lt; vm_compute; reflexivity).
  split; [exact Hmax |]. split; [vm_compute; reflexivity |].
  split; [exact Hlen |].
  apply (short_dry_run_not_reported short_series _ _ _ Hmax Hlen).
Defined.

(** On the short series nothing is reported at all. *)
Example short_series_reports_nothing :
  ClimateHistoryByDay.dry_streaks short_series = [].
Proof. vm_compute. reflexivity. Qed.

Lemma monthly_climatology_rows_witness :
  covers_all_months (Snapshot.weather year_2000) = true
  /\ lows_below_highs (Snapshot.weather year_2000) = true
  /\ map Snapshot.mt_Month
       (Snapshot.monthly_temp_combined (Snapshot.weather year_2000))
     = calendar_months
  /\ Forall (extremes_of_month (Snapshot.weather year_2000))
       (Snapshot.monthly_temp_combined (Snapshot.weather year_2000))
  /\ Forall (fun row => avgs_ordered row /\ low_high_ordered row)
       (Snapshot.monthly_temp_combined (Snapshot.weather year_2000)).
Proof.
  assert (Hcov : covers_all_months (Snapshot.weather year_2000) = true)
    by (vm_compute; reflexivity).
  assert (Hlh : lows_below_highs (Snapshot.weather year_2000) = true)
    by (vm_compute; reflexivity).
  split; [exact Hcov |]. split; [exact Hlh |].
  destruct (monthly_climatology_rows year_2000 Hcov) as (Hmonths & Hext & Hord).
  split; [exact Hmonths |]. split; [exact Hext | exact (Hord Hlh)].
Defined.

(** C6, as stated, fails: with a day in every month and January's low (70)
    above its high (60), January's row has AvgLow = 70 above AvgHigh = 60. *)
Lemma monthly_climatology_low_above_high :
  covers_all_months (Snapshot.weather year_2000_exchanged) = true
  /\ ~ Forall fully_ordered
         (Snapshot.monthly_temp_combined (Snapshot.weather year_2000_exchanged)).
Proof.
  split; [vm_compute; reflexivity |]. intros H.
  assert (Hjan : fully_ordered
                   (nth 0 (Snapshot.monthly_temp_combined
                             (Snapshot.weather year_2000_exchanged)) no_month)).
  { rewrite Forall_forall in H. apply H, nth_In.
    apply Nat.ltb_lt. vm_compute. reflexivity. }
  destruct Hjan as (_ & (b & c & Eb & Ec & Hle) & _).
  vm_compute in Eb. vm_compute in Ec.
  injection Eb as <-. injection Ec as <-.
  unfold Qle in Hle. simpl in Hle. lia.
Qed.

(** The ranked days on the four-hundred-day series: its first day, with a
    tenth of an inch. *)
Lemma top_extreme_days_are_extreme_witness :
  let weather := synthetic_series in
  let r := synthetic_row 0 in
  let v := 0.1%Q in
  In r weather
  /\ (PRCP r = Some v ->
      In {| Snapshot.dv_Date := Date r; Snapshot.dv_value := PRCP r |}
         (Snapshot.wettest_days weather)
      \/ Forall (fun x => exists a, Snapshot.dv_value x = Some a /\ (v <= a)%Q)
                (Snapshot.wettest_days weather)).
Proof.
  cbv zeta.
  assert (Hin : In (synthetic_row 0) synthetic_series)
    by (unfold synthetic_series; apply in_map, in_seq; lia).
  split; [exact Hin |].
  apply (top_extreme_days_are_extreme synthetic_series (synthetic_row 0) 0.1%Q
           Hin).
Defined.

(** February 30 on the four-hundred-day series. *)
Lemma day_summary_impossible_day_witness :
  ~ (1 <= 2 <= 12
     /\ 1 <= 30 <= (if 2 =? 2 then 29 else days_in_month_table 2))
  /\ ClimateHistoryByDay.filtered_data 2 30 synthetic_series = []
  /\ ClimateHistoryByDay.day_summary 2 30 synthetic_series = [].
Proof.
  assert (H : ~ (1 <= 2 <= 12
                 /\ 1 <= 30 <= (if 2 =? 2 then 29 else days_in_month_table 2)))
    by (simpl; lia).
  split; [exact H |].
  apply (day_summary_impossible_day 2 30 synthetic_series H).
Defined.

(** The holiday table as resolved in 2024. *)
Lemma holiday_rows_fall_on_the_holiday_witness :
  1949 <= 2024 <= 9999
  /\ exists variable_holidays,
       HolidayOutlook.get_variable_holiday_dates 2024 = Some variable_holidays
       /\ forall (weather : list Row) (h : HolidayOutlook.holiday_row),
            In h (HolidayOutlook.all_holidays_df variable_holidays weather) <->
            exists r d, In r weather /\ Date r = Some d
                        /\ h = HolidayOutlook.select_row
                                 (HolidayOutlook.Holiday h) r
                        /\ holiday_on (HolidayOutlook.Holiday h) 2024 d.
Proof.
  assert (H : 1949 <= 2024 <= 9999) by lia.
  split; [exact H |].
  apply (holiday_rows_fall_on_the_holiday 2024 H).
Defined.
